(** * claude-code-sync: the session reconciliation engine of the hook command

    A shallow embedding of the hook command of [src/cli.ts] and of the
    cost calculator of the plugin entry point, with the properties the
    specification states about them; then of the payloads of the sync
    client, the session-state file, the statistics parser and the
    in-process plugin, with properties read off the code.

    Conventions of the embedding.
    - Identifiers (session ids, entry uuids, model names, paths) are only
      compared, tested for emptiness and searched for substrings: they are
      [string]s.  Prompt text is measured and cut by UTF-16 code unit
      ([length], [slice], [lastIndexOf]), so it is a list of code units.
    - Counters are JavaScript numbers holding integers; they are modelled
      as [Z] (exact below 2^53).  The token totals of a transcript, which
      are sums of numbers read from the file, are added as binary64 adds
      them ([add64]).  Monetary amounts are binary64 floats and
      are modelled by the primitive floats, which are binary64 as well.
    - An optional field is an [option]; [a || b] and [!a] follow the
      JavaScript truthiness of the field's type ([undefined], the empty
      string and [0] are falsy).
    - Objects used as dictionaries are finite maps.  The session store is
      read on its own properties (session identifiers are assumed not to
      be names every object inherits); the pricing table is read through
      the prototype chain, as [MODEL_PRICING[model]] does.
    - A hook payload or a transcript line is taken at its TypeScript type;
      JSON of another shape is outside the model. *)

From Stdlib Require Import Floats.PrimFloat Ascii.
From stdpp Require Import gmap strings list pretty.

Set Warnings "-inexact-float,-clear-no-such-hyp".

Open Scope Z_scope.

(* ===================================================================== *)
(** ** JavaScript strings as code-unit sequences *)
(* ===================================================================== *)

Abbreviation jsstring := (list N).

(** An ASCII literal as a sequence of code units. *)
Definition js (s : string) : jsstring :=
  map Ascii.N_of_ascii (String.list_ascii_of_string s).

(** Truthiness of a string: only the empty string is falsy. *)
Definition truthy_jsstring (s : jsstring) : bool :=
  match s with [] => false | _ => true end.

Definition truthy_string (s : string) : bool :=
  match s with EmptyString => false | _ => true end.

(** [a || b] on optional strings. *)
Definition truthy_opt_string (o : option string) : bool :=
  match o with Some s => truthy_string s | None => false end.

(** The relative index of [String.prototype.slice]: a negative index counts
    from the end, and both ends are clamped to the string. *)
Definition clamp_index (len i : Z) : Z :=
  if i <? 0 then Z.max (len + i) 0 else Z.min i len.

(** [s.slice(start, end)]. *)
Definition slice (s : jsstring) (start end_ : Z) : jsstring :=
  let len := Z.of_nat (length s) in
  let from := clamp_index len start in
  let to := clamp_index len end_ in
  take (Z.to_nat (to - from)) (drop (Z.to_nat from) s).

(** WhiteSpace and LineTerminator code points of ECMAScript, the ones
    [String.prototype.trim] strips.  All of them are single code units. *)
Definition isWhiteSpace (c : N) : bool :=
  bool_decide (c ∈ [9; 10; 11; 12; 13; 32; 160; 5760;
                    8192; 8193; 8194; 8195; 8196; 8197; 8198; 8199; 8200;
                    8201; 8202; 8232; 8233; 8239; 8287; 12288; 65279]%N).

Fixpoint trimStart (s : jsstring) : jsstring :=
  match s with
  | c :: s' => if isWhiteSpace c then trimStart s' else s
  | [] => []
  end.

Definition trimEnd (s : jsstring) : jsstring :=
  reverse (trimStart (reverse s)).

(** [s.trim()]. *)
Definition trim (s : jsstring) : jsstring := trimEnd (trimStart s).

Definition SPACE : N := 32%N.

(** The scan behind [lastIndexOf]: [i] is the index of the head of [s],
    [acc] the last index found so far. *)
Fixpoint lastIndexOf_from (c : N) (s : jsstring) (i acc : Z) : Z :=
  match s with
  | [] => acc
  | x :: s' => lastIndexOf_from c s' (i + 1) (if (x =? c)%N then i else acc)
  end.

(** [s.lastIndexOf(c)] for a one-unit search string: the greatest index
    holding [c], or -1. *)
Definition lastIndexOf (c : N) (s : jsstring) : Z :=
  lastIndexOf_from c s 0 (-1).

(** The ellipsis marker, three full stops. *)
Definition ELLIPSIS : jsstring := js "...".

(** [generateTitle] of cli.ts. *)
Definition generateTitle (prompt : jsstring) : jsstring :=
  let trimmed := trim (slice prompt 0 80) in
  if 80 <? Z.of_nat (length prompt) then
    let lastSpace := lastIndexOf SPACE trimmed in
    if 40 <? lastSpace then slice trimmed 0 lastSpace ++ ELLIPSIS
    else trimmed ++ ELLIPSIS
  else trimmed.

(* ===================================================================== *)
(** ** Model pricing and cost calculation *)
(* ===================================================================== *)

(** [s.includes(k)]: [k] occurs in [s] as a contiguous substring. *)
Fixpoint includes (s k : string) : bool :=
  String.prefix k s ||
  match s with
  | EmptyString => false
  | String _ s' => includes s' k
  end.

(** One row of the pricing table: USD per million tokens. *)
Record Pricing := {
  pricing_input : float;
  pricing_output : float;
  pricing_cacheWrite : float;
  pricing_cacheRead : float;
}.

(** [MODEL_PRICING], in the order the object literal lists its keys, which
    is the order [Object.keys] enumerates them in. *)
Definition MODEL_PRICING : list (string * Pricing) :=
  [ ("claude-sonnet-4-20250514",
      {| pricing_input := 3.00; pricing_output := 15.00;
         pricing_cacheWrite := 3.75; pricing_cacheRead := 0.30 |});
    ("claude-opus-4-20250514",
      {| pricing_input := 15.00; pricing_output := 75.00;
         pricing_cacheWrite := 18.75; pricing_cacheRead := 1.50 |});
    ("claude-opus-4-5-20251101",
      {| pricing_input := 15.00; pricing_output := 75.00;
         pricing_cacheWrite := 18.75; pricing_cacheRead := 1.50 |});
    ("claude-3-5-sonnet-20241022",
      {| pricing_input := 3.00; pricing_output := 15.00;
         pricing_cacheWrite := 3.75; pricing_cacheRead := 0.30 |});
    ("claude-3-opus-20240229",
      {| pricing_input := 15.00; pricing_output := 75.00;
         pricing_cacheWrite := 18.75; pricing_cacheRead := 1.50 |});
    ("claude-3-5-haiku-20241022",
      {| pricing_input := 0.80; pricing_output := 4.00;
         pricing_cacheWrite := 1.00; pricing_cacheRead := 0.08 |}) ]%float.

(** The own property of the table named [k]. *)
Fixpoint own_property (table : list (string * Pricing)) (k : string)
  : option Pricing :=
  match table with
  | [] => None
  | (k', p) :: table' => if String.eqb k' k then Some p else own_property table' k
  end.

(** The property names a plain object inherits from [Object.prototype]. *)
Definition OBJECT_PROTOTYPE_KEYS : list string :=
  [ "constructor"; "__defineGetter__"; "__defineSetter__"; "hasOwnProperty";
    "__lookupGetter__"; "__lookupSetter__"; "isPrototypeOf";
    "propertyIsEnumerable"; "toString"; "valueOf"; "__proto__";
    "toLocaleString" ]%string.

(** What [MODEL_PRICING[k]] evaluates to when it is not [undefined]: a row
    of the table, or a member inherited from [Object.prototype] (a function
    or the prototype object itself, truthy, with none of the rate fields). *)
Inductive member :=
  | Own (p : Pricing)
  | Inherited.

(** [MODEL_PRICING[k]]; [None] is [undefined]. *)
Definition MODEL_PRICING_get (k : string) : option member :=
  match own_property MODEL_PRICING k with
  | Some p => Some (Own p)
  | None => if bool_decide (k ∈ OBJECT_PROTOTYPE_KEYS) then Some Inherited else None
  end.

(** [pricing.f] as a number in an arithmetic expression: a field that is
    absent reads [undefined], which multiplies to NaN. *)
Definition rate (m : member) (f : Pricing → float) : float :=
  match m with
  | Own p => f p
  | Inherited => PrimFloat.nan
  end.

(** [Object.keys(MODEL_PRICING)]. *)
Definition Object_keys (table : list (string * Pricing)) : list string :=
  map fst table.

(** [Array.prototype.find]. *)
Fixpoint find {A} (f : A → bool) (l : list A) : option A :=
  match l with
  | [] => None
  | x :: l' => if f x then Some x else find f l'
  end.

(** [TranscriptStats] of the plugin entry point. *)
Record TranscriptStats := {
  stats_model : option string;
  inputTokens : float;
  cacheCreationTokens : float;
  cacheReadTokens : float;
  outputTokens : float;
  stats_messageCount : Z;
  stats_toolCallCount : Z;
  stats_title : option string;
  stats_cwd : option string;
}.

(** The cost of [stats] at the rates of [m]. *)
Definition cost_at (m : member) (stats : TranscriptStats) : float :=
  let inputCost := (inputTokens stats * rate m pricing_input)%float in
  let cacheWriteCost := (cacheCreationTokens stats * rate m pricing_cacheWrite)%float in
  let cacheReadCost := (cacheReadTokens stats * rate m pricing_cacheRead)%float in
  let outputCost := (outputTokens stats * rate m pricing_output)%float in
  ((inputCost + cacheWriteCost + cacheReadCost + outputCost) / 1000000)%float.

(** [calculateCost] of the plugin entry point. *)
Definition calculateCost (model : option string) (stats : TranscriptStats)
  : float :=
  match model with
  | None => 0%float
  | Some model =>
    if negb (truthy_string model) then 0%float else
    let pricing := MODEL_PRICING_get model in
    let pricing :=
      match pricing with
      | Some _ => pricing
      | None =>
        match find (λ k, includes model k || includes k model)
                   (Object_keys MODEL_PRICING) with
        | Some matchingKey =>
            if truthy_string matchingKey then MODEL_PRICING_get matchingKey
            else pricing
        | None => pricing
        end
      end in
    match pricing with
    | None => 0%float
    | Some m => cost_at m stats
    end
  end.

(** *** The calculator as the specification words it

    The rate row is found by exact model match and otherwise by the first
    either-direction substring match, in table order; the cost is the sum
    over the four token classes of tokens times rate, divided by one
    million; with no model or no match the cost is 0.  The four products
    are added in the order of the source (input, cache write, cache read,
    output), which matters to the last bit in binary64. *)
Definition spec_rate_row (model : string) : option Pricing :=
  match find (λ '(k, _), String.eqb k model) MODEL_PRICING with
  | Some (_, p) => Some p
  | None =>
    match find (λ '(k, _), includes model k || includes k model) MODEL_PRICING with
    | Some (_, p) => Some p
    | None => None
    end
  end.

Definition spec_cost (model : option string) (stats : TranscriptStats) : float :=
  match model with
  | None => 0%float
  | Some model =>
    match spec_rate_row model with
    | None => 0%float
    | Some p =>
      ((inputTokens stats * pricing_input p
        + cacheCreationTokens stats * pricing_cacheWrite p
        + cacheReadTokens stats * pricing_cacheRead p
        + outputTokens stats * pricing_output p) / 1000000)%float
    end
  end.

(* ===================================================================== *)
(** ** Transcript parsing *)
(* ===================================================================== *)

(** [a || 0] on an optional number. *)
Definition or0 (n : option Z) : Z := default 0 n.

(** The binary64 number nearest to the integer [z], ties to the even
    significand: what [JSON.parse] reads from the integer literal [z] and
    what an addition of exact result [z] yields.  Integers up to 2^53 in
    magnitude are binary64 numbers.  (Magnitudes from 2^1024 on, which
    binary64 holds as Infinity, are outside the model.) *)
Definition round64 (z : Z) : Z :=
  let a := Z.abs z in
  if a <=? 2 ^ 53 then z
  else
    let e := Z.log2 a - 52 in
    let q := a / 2 ^ e in
    let r := a mod 2 ^ e in
    let half := 2 ^ (e - 1) in
    let q' := if (half <? r) || ((r =? half) && Z.odd q) then q + 1 else q in
    Z.sgn z * (q' * 2 ^ e).

(** [a + b] on numbers. *)
Definition add64 (a b : Z) : Z := round64 (a + b).

(** The usage block of a message; each field holds the integer literal of
    the file. *)
Record TranscriptUsage := {
  input_tokens : option Z;
  output_tokens : option Z;
  cache_read_input_tokens : option Z;
  cache_creation_input_tokens : option Z;
}.

(** Of a content part only [type] and [text] are read. *)
Record TranscriptContentPart := {
  part_type : string;
  part_text : option jsstring;
}.

(** [content] is [None] when the field is absent or is not an array.  A
    part is [None] when it is [null], on which [part.type] throws; a part
    that is not an object reads as a part of another type than text. *)
Record TranscriptMessage := {
  content : option (list (option TranscriptContentPart));
  usage : option TranscriptUsage;
  message_model : option string;
}.

Record TranscriptEntry := {
  entry_type : option string;
  entry_uuid : option string;
  entry_timestamp : option string;
  message : option TranscriptMessage;
}.

(** One line of the transcript, as the loop of [parseTranscriptFile] sees
    it: blank ([!line.trim()]), one on which [JSON.parse] throws or that
    parses to [null] (on which [entry.type] throws, before anything was
    changed), or one that parses to an entry.  The one other place where
    the body of the inner [try] can throw is [part.type] on a [null]
    content part. *)
Inductive line :=
  | Blank
  | Malformed
  | Parsed (entry : TranscriptEntry).

(** What a path names: nothing ([fs.existsSync] is false), something
    [fs.readFileSync] throws on (a directory, a file without read
    permission), or a file with its lines ([content.trim().split("\n")]). *)
Inductive fsnode :=
  | NoEntry
  | Unreadable
  | File (lines : list line).

Record TokenUsage := {
  input : Z;
  output : Z;
}.

Record AssistantMessage := {
  uuid : string;
  text : jsstring;
  timestamp : string;
  model : option string;
}.

Record ParsedTranscript := {
  assistantMessages : list AssistantMessage;
  tokenUsage : TokenUsage;
}.

Definition emptyTranscript : ParsedTranscript :=
  {| assistantMessages := []; tokenUsage := {| input := 0; output := 0 |} |}.

(** The parts the inner loop reads before it throws, if it does: those
    before the first [null]. *)
Fixpoint partsRead (parts : list (option TranscriptContentPart))
  : list TranscriptContentPart :=
  match parts with
  | Some part :: parts' => part :: partsRead parts'
  | _ => []
  end.

(** The inner loop throws: the content holds a [null] part. *)
Definition contentThrows (msg : TranscriptMessage) : bool :=
  match content msg with
  | Some parts =>
      existsb (λ part, match part with None => true | Some _ => false end) parts
  | None => false
  end.

(** The inner loop over the content parts: one message per non-empty text
    part, all carrying the uuid of the entry. *)
Definition textMessages (ISO_now : string) (entry : TranscriptEntry)
    (msg : TranscriptMessage) (uuid : string) : list AssistantMessage :=
  match content msg with
  | None => []
  | Some parts =>
    omap (λ part,
      if String.eqb (part_type part) "text" then
        match part_text part with
        | Some t =>
          if truthy_jsstring t then
            Some {| uuid := uuid; text := t;
                    timestamp := match entry_timestamp entry with
                                 | Some ts => if truthy_string ts then ts else ISO_now
                                 | None => ISO_now
                                 end;
                    model := message_model msg |}
          else None
        | None => None
        end
      else None) (partsRead parts)
  end.

(** [x || 0] on a field of the usage block. *)
Definition usageField (x : option Z) : Z :=
  or0 (round64 <$> x).

Definition addUsage (u : TokenUsage) (msg : TranscriptMessage) : TokenUsage :=
  match usage msg with
  | None => u
  | Some us =>
    {| input := add64 (input u)
                  (add64 (add64 (usageField (input_tokens us))
                                (usageField (cache_read_input_tokens us)))
                         (usageField (cache_creation_input_tokens us)));
       output := add64 (output u) (usageField (output_tokens us)) |}
  end.

(** One iteration of the loop over the lines; the state is the result under
    construction and [seenUuids].  When the inner loop throws, the [catch]
    of the line ends the iteration: the uuid is recorded and the text parts
    read so far are pushed, and the usage is not added. *)
Definition parseLine (ISO_now : string)
    (acc : ParsedTranscript * gset string) (l : line)
  : ParsedTranscript * gset string :=
  let '(result, seenUuids) := acc in
  match l with
  | Blank => acc
  | Malformed => acc
  | Parsed entry =>
    match entry_type entry, message entry with
    | Some ty, Some msg =>
      if String.eqb ty "assistant" then
        let uuid := default EmptyString (entry_uuid entry) in
        if truthy_string uuid && bool_decide (uuid ∈ seenUuids) then acc
        else
          let seenUuids := if truthy_string uuid then {[uuid]} ∪ seenUuids
                           else seenUuids in
          ({| assistantMessages :=
                assistantMessages result ++ textMessages ISO_now entry msg uuid;
              tokenUsage := if contentThrows msg then tokenUsage result
                            else addUsage (tokenUsage result) msg |},
           seenUuids)
      else acc
    | _, _ => acc
    end
  end.

(** [parseTranscriptFile] of cli.ts, over the file system [fs]. *)
Definition parseTranscriptFile (fs : string → fsnode) (ISO_now : string)
    (transcriptPath : string) : ParsedTranscript :=
  match fs transcriptPath with
  | NoEntry => emptyTranscript
  | Unreadable => emptyTranscript
  | File lines => fst (foldl (parseLine ISO_now) (emptyTranscript, ∅) lines)
  end.

(* ===================================================================== *)
(** ** Session state and the records sent to the collector *)
(* ===================================================================== *)

(** The value stored per session identifier in [SessionState].  After
    [loadSessionState] the synced uuids are a [Set]. *)
Record SessionEntry := {
  state_model : option string;
  firstPrompt : option jsstring;
  state_tokenUsage : option TokenUsage;
  messageCount : option Z;
  syncedMessageUuids : option (gset string);
}.

(** The object literal [{}]. *)
Definition emptyEntry : SessionEntry :=
  {| state_model := None; firstPrompt := None; state_tokenUsage := None;
     messageCount := None; syncedMessageUuids := None |}.

Abbreviation SessionState := (gmap string SessionEntry).

Definition set_firstPrompt (p : jsstring) (st : SessionEntry) : SessionEntry :=
  {| state_model := state_model st; firstPrompt := Some p;
     state_tokenUsage := state_tokenUsage st; messageCount := messageCount st;
     syncedMessageUuids := syncedMessageUuids st |}.

Definition set_tokenUsage (u : TokenUsage) (st : SessionEntry) : SessionEntry :=
  {| state_model := state_model st; firstPrompt := firstPrompt st;
     state_tokenUsage := Some u; messageCount := messageCount st;
     syncedMessageUuids := syncedMessageUuids st |}.

Definition set_messageCount (n : Z) (st : SessionEntry) : SessionEntry :=
  {| state_model := state_model st; firstPrompt := firstPrompt st;
     state_tokenUsage := state_tokenUsage st; messageCount := Some n;
     syncedMessageUuids := syncedMessageUuids st |}.

Definition set_syncedMessageUuids (s : gset string) (st : SessionEntry)
  : SessionEntry :=
  {| state_model := state_model st; firstPrompt := firstPrompt st;
     state_tokenUsage := state_tokenUsage st; messageCount := messageCount st;
     syncedMessageUuids := Some s |}.

(** [SessionData]; the constant [source] and the git fields, which the hook
    command never sets, are left out. *)
Record SessionData := {
  sessionId : string;
  title : option jsstring;
  projectPath : option string;
  projectName : option string;
  cwd : option string;
  session_model : option string;
  startType : option string;
  endReason : option string;
  thinkingEnabled : option bool;
  permissionMode : option string;
  mcpServers : option (list string);
  session_messageCount : option Z;
  toolCallCount : option Z;
  session_tokenUsage : option TokenUsage;
  costEstimate : option float;
  startedAt : option string;
  endedAt : option string;
}.

Inductive Role := user | assistant | system.

(** [MessageData], with the fields the hook command sets. *)
Record MessageData := {
  message_sessionId : string;
  messageId : string;
  role : Role;
  message_content : option jsstring;
  toolName : option string;
  toolArgs : option string;
  toolResult : option string;
  durationMs : option Z;
  message_timestamp : option string;
  msg_model : option string;
}.

(** One call on the [SyncClient]. *)
Inductive Request :=
  | syncSession (session : SessionData)
  | syncMessage (message : MessageData).

(* ===================================================================== *)
(** ** Hook payloads *)
(* ===================================================================== *)

Record HookSessionStartData := {
  start_session_id : string;
  start_cwd : option string;
  start_model : option string;
  permission_mode : option string;
  source : option string;
  thinking_enabled : option bool;
  mcp_servers : option (list string);
}.

Record HookSessionEndData := {
  end_session_id : string;
  reason : option string;
  message_count : option Z;
  tool_call_count : option Z;
  total_token_usage : option TokenUsage;
  cost_estimate : option float;
}.

Record HookUserPromptData := {
  prompt_session_id : string;
  prompt : jsstring;
  prompt_timestamp : option string;
}.

Record ToolResult := {
  tool_output : option string;
  tool_error : option string;
}.

Record HookToolUseData := {
  tool_session_id : string;
  tool_name : string;
  tool_use_id : option string;
  tool_input : option string;
  tool_result : option ToolResult;
  duration_ms : option Z;
}.

Record HookStopData := {
  stop_session_id : string;
  transcript_path : option string;
}.

(** The event name given on the command line together with the payload
    read from standard input, parsed at the type the case casts it to.  An
    empty input, or one that is not JSON, ends the process with status 0
    before any state is read or any request is issued. *)
Inductive HookEvent :=
  | SessionStart (data : HookSessionStartData)
  | SessionEnd (data : HookSessionEndData)
  | UserPromptSubmit (data : HookUserPromptData)
  | PostToolUse (data : HookToolUseData)
  | Stop (data : HookStopData)
  | UnknownEvent (event : string).

(* ===================================================================== *)
(** ** The world of one invocation *)
(* ===================================================================== *)

(** The part of [Config] the hook command reads. *)
Record Config := {
  autoSync : option bool;
  syncToolCalls : option bool;
}.

(** What an invocation reads from outside: the configuration, the file
    system holding the transcripts, the collector (whether it accepts a
    request, given the requests it has received before in this invocation),
    and the clock, read as [Date.now()] in decimal and as an ISO string
    (one reading per invocation; nothing below depends on it). *)
Record Env := {
  config : option Config;
  fs : string → fsnode;
  collector : list Request → Request → bool;
  Date_now : string;
  ISO_now : string;
}.

(** What an invocation writes: the session-state file and the requests
    issued to the collector, in the order they were awaited. *)
Record World := {
  disk : SessionState;
  requests : list Request;
}.

(** The error a [SyncClient] method throws when the request fails. *)
Inductive exn :=
  | SyncFailed (r : Request).

(** Computations of the hook command: they change the world and either
    return or throw. *)
Definition M (A : Type) : Type := World → (exn + A) * World.

#[global] Instance M_ret : MRet M := λ A a w, (inr a, w).

#[global] Instance M_bind : MBind M := λ A B f m w,
  match m w with
  | (inl e, w') => (inl e, w')
  | (inr a, w') => f a w'
  end.

(** [loadSessionState]; a missing or corrupt file reads as the empty map. *)
Definition loadSessionState : M SessionState := λ w, (inr (disk w), w).

(** [saveSessionState].  The source ignores a write that fails, which
    leaves the file as it was; the file is taken to be writable. *)
Definition saveSessionState (state : SessionState) : M unit := λ w,
  (inr (), {| disk := state; requests := requests w |}).

(** [await client.syncSession(..)] and [await client.syncMessage(..)]: the
    request is issued, and the call throws when the collector refuses it. *)
Definition await (env : Env) (r : Request) : M unit := λ w,
  let w' := {| disk := disk w; requests := requests w ++ [r] |} in
  if collector env (requests w) r then (inr (), w')
  else (inl (SyncFailed r), w').

(* ===================================================================== *)
(** ** The hook command *)
(* ===================================================================== *)

(** [a || b] on optional numbers. *)
Definition or_number (a b : option Z) : option Z :=
  match a with
  | Some n => if n =? 0 then b else a
  | None => b
  end.

(** [a || b] on optional strings. *)
Definition or_string (a b : option string) : option string :=
  if truthy_opt_string a then a else b.

(** [s.split("/").pop()], scanning [s] with the segment read so far. *)
Fixpoint split_pop (s seg : string) : string :=
  match s with
  | EmptyString => seg
  | String c s' =>
    if Ascii.eqb c "/"%char then split_pop s' EmptyString
    else split_pop s' (seg +:+ String c EmptyString)
  end.

Definition hookSessionStart (env : Env) (data : HookSessionStartData)
    (sessionState : SessionState) : M unit :=
  let sessionState :=
    <[start_session_id data :=
        {| state_model := start_model data; firstPrompt := None;
           state_tokenUsage := Some {| input := 0; output := 0 |};
           messageCount := Some 0; syncedMessageUuids := None |}]> sessionState in
  saveSessionState sessionState;;
  let session :=
    {| sessionId := start_session_id data; title := None;
       projectPath := start_cwd data;
       projectName := match start_cwd data with
                      | Some c => if truthy_string c
                                  then Some (split_pop c EmptyString) else None
                      | None => None
                      end;
       cwd := start_cwd data;
       session_model := start_model data;
       startType := if bool_decide (source data = Some "startup"%string)
                    then Some "new"%string else source data;
       endReason := None;
       thinkingEnabled := thinking_enabled data;
       permissionMode := permission_mode data;
       mcpServers := mcp_servers data;
       session_messageCount := None; toolCallCount := None;
       session_tokenUsage := None; costEstimate := None;
       startedAt := Some (ISO_now env); endedAt := None |} in
  await env (syncSession session).

Definition hookSessionEnd (env : Env) (data : HookSessionEndData)
    (sessionState : SessionState) : M unit :=
  let state := default emptyEntry (sessionState !! end_session_id data) in
  let finalTokenUsage :=
    match total_token_usage data with
    | Some u => Some u
    | None => state_tokenUsage state
    end in
  let session :=
    {| sessionId := end_session_id data;
       title := match firstPrompt state with
                | Some p => if truthy_jsstring p then Some (generateTitle p)
                            else None
                | None => None
                end;
       projectPath := None; projectName := None; cwd := None;
       session_model := None; startType := None;
       endReason := reason data;
       thinkingEnabled := None; permissionMode := None; mcpServers := None;
       session_messageCount := or_number (message_count data) (messageCount state);
       toolCallCount := tool_call_count data;
       session_tokenUsage := finalTokenUsage;
       costEstimate := cost_estimate data;
       startedAt := None; endedAt := Some (ISO_now env) |} in
  await env (syncSession session);;
  let sessionState := delete (end_session_id data) sessionState in
  saveSessionState sessionState.

Definition sessionTitle (sid : string) (t : jsstring) : SessionData :=
  {| sessionId := sid; title := Some t; projectPath := None;
     projectName := None; cwd := None; session_model := None;
     startType := None; endReason := None; thinkingEnabled := None;
     permissionMode := None; mcpServers := None;
     session_messageCount := None; toolCallCount := None;
     session_tokenUsage := None; costEstimate := None; startedAt := None;
     endedAt := None |}.

Definition hookUserPromptSubmit (env : Env) (data : HookUserPromptData)
    (sessionState : SessionState) : M unit :=
  let sid := prompt_session_id data in
  let state := default emptyEntry (sessionState !! sid) in
  '(state, sessionState) ←
    (if negb (match firstPrompt state with
              | Some p => truthy_jsstring p
              | None => false
              end)
     then
       let state := set_firstPrompt (prompt data) state in
       let sessionState := <[sid := state]> sessionState in
       saveSessionState sessionState;;
       await env (syncSession (sessionTitle sid (generateTitle (prompt data))));;
       mret (state, sessionState)
     else mret (state, sessionState));
  let state := set_messageCount (or0 (messageCount state) + 1) state in
  let sessionState := <[sid := state]> sessionState in
  saveSessionState sessionState;;
  let message :=
    {| message_sessionId := sid;
       messageId := sid +:+ "-user-" +:+ Date_now env;
       role := user;
       message_content := Some (prompt data);
       toolName := None; toolArgs := None; toolResult := None;
       durationMs := None;
       message_timestamp := or_string (prompt_timestamp data) (Some (ISO_now env));
       msg_model := None |} in
  await env (syncMessage message).

Definition hookPostToolUse (env : Env) (cfg : Config) (data : HookToolUseData)
    (sessionState : SessionState) : M unit :=
  if negb (bool_decide (syncToolCalls cfg = Some true)) then mret ()
  else
    let sid := tool_session_id data in
    let message :=
      {| message_sessionId := sid;
         messageId := default (sid +:+ "-tool-" +:+ Date_now env)
                              (or_string (tool_use_id data) None);
         role := assistant;
         message_content := None;
         toolName := Some (tool_name data);
         toolArgs := tool_input data;
         toolResult := or_string (tool_result data ≫= tool_output)
                                 (tool_result data ≫= tool_error);
         durationMs := duration_ms data;
         message_timestamp := Some (ISO_now env);
         msg_model := None |} in
    await env (syncMessage message).

(** The message record built for one assistant message of the transcript. *)
Definition assistantMessage (env : Env) (sid : string) (msg : AssistantMessage)
  : MessageData :=
  {| message_sessionId := sid;
     messageId := if truthy_string (uuid msg) then uuid msg
                  else sid +:+ "-assistant-" +:+ Date_now env;
     role := assistant;
     message_content := Some (text msg);
     toolName := None; toolArgs := None; toolResult := None;
     durationMs := None;
     message_timestamp := Some (timestamp msg);
     msg_model := model msg |}.

(** The loop over [transcript.assistantMessages] of the Stop case; it
    threads [syncedMessages] and [state]. *)
Fixpoint syncNewMessages (env : Env) (sid : string)
    (msgs : list AssistantMessage) (syncedMessages : gset string)
    (state : SessionEntry) : M (gset string * SessionEntry) :=
  match msgs with
  | [] => mret (syncedMessages, state)
  | msg :: msgs' =>
    if truthy_string (uuid msg) && bool_decide (uuid msg ∈ syncedMessages)
    then syncNewMessages env sid msgs' syncedMessages state
    else
      let syncedMessages :=
        if truthy_string (uuid msg) then {[uuid msg]} ∪ syncedMessages
        else syncedMessages in
      let state := set_messageCount (or0 (messageCount state) + 1) state in
      await env (syncMessage (assistantMessage env sid msg));;
      syncNewMessages env sid msgs' syncedMessages state
  end.

Definition sessionTotals (sid : string) (state : SessionEntry) : SessionData :=
  {| sessionId := sid; title := None; projectPath := None;
     projectName := None; cwd := None; session_model := None;
     startType := None; endReason := None; thinkingEnabled := None;
     permissionMode := None; mcpServers := None;
     session_messageCount := messageCount state; toolCallCount := None;
     session_tokenUsage := state_tokenUsage state; costEstimate := None;
     startedAt := None; endedAt := None |}.

Definition hookStop (env : Env) (data : HookStopData)
    (sessionState : SessionState) : M unit :=
  let sid := stop_session_id data in
  let state := default emptyEntry (sessionState !! sid) in
  state ←
    (if truthy_opt_string (transcript_path data) then
       let transcript :=
         parseTranscriptFile (fs env) (ISO_now env)
                             (default EmptyString (transcript_path data)) in
       let state :=
         if (0 <? input (tokenUsage transcript))
            || (0 <? output (tokenUsage transcript))
         then set_tokenUsage (tokenUsage transcript) state
         else state in
       let syncedMessages := default ∅ (syncedMessageUuids state) in
       '(syncedMessages, state) ←
         syncNewMessages env sid (assistantMessages transcript)
                         syncedMessages state;
       mret (set_syncedMessageUuids syncedMessages state)
     else mret state);
  let sessionState := <[sid := state]> sessionState in
  saveSessionState sessionState;;
  await env (syncSession (sessionTotals sid state)).

(** The [switch] of the hook action. *)
Definition dispatch (env : Env) (cfg : Config) (event : HookEvent) : M unit :=
  sessionState ← loadSessionState;
  match event with
  | SessionStart data => hookSessionStart env data sessionState
  | SessionEnd data => hookSessionEnd env data sessionState
  | UserPromptSubmit data => hookUserPromptSubmit env data sessionState
  | PostToolUse data => hookPostToolUse env cfg data sessionState
  | Stop data => hookStop env data sessionState
  | UnknownEvent _ => mret ()
  end.

(** How the process ends: its exit status and what the [catch] of the
    action logged on standard error. *)
Record Exit := {
  exit_code : Z;
  logged : option exn;
}.

(** The action of [hook <event>]: nothing happens without a configuration
    or with [autoSync] off; otherwise the event is dispatched, an exception
    is logged, and the process exits with status 0 either way. *)
Definition hook (env : Env) (event : HookEvent) (w : World) : Exit * World :=
  match config env with
  | None => ({| exit_code := 0; logged := None |}, w)
  | Some cfg =>
    if bool_decide (autoSync cfg = Some false)
    then ({| exit_code := 0; logged := None |}, w)
    else
      match dispatch env cfg event w with
      | (inr _, w') => ({| exit_code := 0; logged := None |}, w')
      | (inl error, w') => ({| exit_code := 0; logged := Some error |}, w')
      end
  end.

(** One invocation on the state file [d]: a fresh process, which has
    issued no request yet. *)
Definition invoke (env : Env) (event : HookEvent) (d : SessionState)
  : Exit * World :=
  hook env event {| disk := d; requests := [] |}.

(* ===================================================================== *)
(** ** Sequences of invocations and what is observed of them *)
(* ===================================================================== *)

(** The state file after a sequence of invocations, each in its own
    process with its own environment. *)
Fixpoint run (d : SessionState) (events : list (Env * HookEvent))
  : SessionState :=
  match events with
  | [] => d
  | (env, event) :: events' => run (disk (invoke env event d).2) events'
  end.

(** The accumulator of a session, [{}] when the store has none. *)
Definition accumulator (sid : string) (d : SessionState) : SessionEntry :=
  default emptyEntry (d !! sid).

(** [messageCount] of a session, counting a missing one as 0. *)
Definition count (sid : string) (d : SessionState) : Z :=
  or0 (messageCount (accumulator sid d)).

(** The synced entry ids of a session. *)
Definition synced (sid : string) (d : SessionState) : gset string :=
  default ∅ (syncedMessageUuids (accumulator sid d)).

(** The hook command is configured and [autoSync] is not off. *)
Definition enabled (env : Env) : Prop :=
  ∃ cfg, config env = Some cfg ∧ autoSync cfg ≠ Some false.

(** The collector accepts every Message record. *)
Definition acceptsMessages (env : Env) : Prop :=
  ∀ history message, collector env history (syncMessage message) = true.

(** The collector accepts the requests [rs] one after the other, after the
    requests [history]. *)
Fixpoint acceptsAll (env : Env) (history rs : list Request) : bool :=
  match rs with
  | [] => true
  | r :: rs' => collector env history r && acceptsAll env (history ++ [r]) rs'
  end.

(** The requests of [rs] that are issued when they are awaited one after
    the other after the requests [history]: those up to the first one the
    collector refuses, that one included. *)
Fixpoint issued (env : Env) (history rs : list Request) : list Request :=
  match rs with
  | [] => []
  | r :: rs' =>
      r :: (if collector env history r then issued env (history ++ [r]) rs'
            else [])
  end.

(** The state a SessionStart event creates. *)
Definition startEntry (data : HookSessionStartData) : SessionEntry :=
  {| state_model := start_model data; firstPrompt := None;
     state_tokenUsage := Some {| input := 0; output := 0 |};
     messageCount := Some 0; syncedMessageUuids := None |}.

(** An event that creates or deletes the accumulator of [sid]. *)
Definition resets (sid : string) (event : HookEvent) : Prop :=
  match event with
  | SessionStart data => start_session_id data = sid
  | SessionEnd data => end_session_id data = sid
  | _ => False
  end.

(* ===================================================================== *)
(** ** The Stop case as a function

    What the Stop case computes when no call throws: the assistant messages
    it forwards, the synced set and the accumulator it saves, and the
    requests it issues.  [Stop_run_ok] below proves that the command
    computes exactly this. *)
(* ===================================================================== *)

(** The messages of [msgs] the loop forwards, in order, from the synced
    set [syncedMessages]. *)
Fixpoint newMessages (msgs : list AssistantMessage)
    (syncedMessages : gset string) : list AssistantMessage :=
  match msgs with
  | [] => []
  | msg :: msgs' =>
    if truthy_string (uuid msg) && bool_decide (uuid msg ∈ syncedMessages)
    then newMessages msgs' syncedMessages
    else msg :: newMessages msgs'
                  (if truthy_string (uuid msg) then {[uuid msg]} ∪ syncedMessages
                   else syncedMessages)
  end.

(** The synced set at the end of the loop. *)
Fixpoint syncedAfter (msgs : list AssistantMessage)
    (syncedMessages : gset string) : gset string :=
  match msgs with
  | [] => syncedMessages
  | msg :: msgs' =>
    if truthy_string (uuid msg) && bool_decide (uuid msg ∈ syncedMessages)
    then syncedAfter msgs' syncedMessages
    else syncedAfter msgs'
           (if truthy_string (uuid msg) then {[uuid msg]} ∪ syncedMessages
            else syncedMessages)
  end.

(** [n] increments of [messageCount]. *)
Definition countMessages (n : nat) (state : SessionEntry) : SessionEntry :=
  match n with
  | O => state
  | S _ => set_messageCount (or0 (messageCount state) + Z.of_nat n) state
  end.

(** The transcript a Stop event makes the command parse, if any. *)
Definition stopTranscript (env : Env) (data : HookStopData)
  : option ParsedTranscript :=
  if truthy_opt_string (transcript_path data)
  then Some (parseTranscriptFile (fs env) (ISO_now env)
                                 (default EmptyString (transcript_path data)))
  else None.

(** The accumulator after the token-usage update. *)
Definition stopUsage (transcript : ParsedTranscript) (state : SessionEntry)
  : SessionEntry :=
  if (0 <? input (tokenUsage transcript)) || (0 <? output (tokenUsage transcript))
  then set_tokenUsage (tokenUsage transcript) state
  else state.

(** The assistant messages a Stop invocation forwards. *)
Definition stopForwarded (env : Env) (data : HookStopData) (d : SessionState)
  : list AssistantMessage :=
  match stopTranscript env data with
  | Some transcript =>
      newMessages (assistantMessages transcript)
                  (synced (stop_session_id data) d)
  | None => []
  end.

(** The accumulator a Stop invocation saves. *)
Definition stopState (env : Env) (data : HookStopData) (d : SessionState)
  : SessionEntry :=
  let state := accumulator (stop_session_id data) d in
  match stopTranscript env data with
  | Some transcript =>
      set_syncedMessageUuids
        (syncedAfter (assistantMessages transcript)
                     (synced (stop_session_id data) d))
        (countMessages (length (stopForwarded env data d))
                       (stopUsage transcript state))
  | None => state
  end.

(** The Message requests of a Stop invocation, in order. *)
Definition stopMessages (env : Env) (data : HookStopData) (d : SessionState)
  : list Request :=
  (λ msg, syncMessage (assistantMessage env (stop_session_id data) msg))
    <$> stopForwarded env data d.

(** The Session request of a Stop invocation. *)
Definition stopSession (env : Env) (data : HookStopData) (d : SessionState)
  : Request :=
  syncSession (sessionTotals (stop_session_id data) (stopState env data d)).

(** The assistant messages a sequence of Stop invocations forwards. *)
Fixpoint forwardedBy (d : SessionState) (stops : list (Env * HookStopData))
  : list AssistantMessage :=
  match stops with
  | [] => []
  | (env, data) :: stops' =>
      stopForwarded env data d
      ++ forwardedBy (disk (invoke env (Stop data) d).2) stops'
  end.

(** The entry ids among messages: their non-empty uuids. *)
Definition entryIds (msgs : list AssistantMessage) : list string :=
  filter (λ u, u ≠ EmptyString) (uuid <$> msgs).

(* ===================================================================== *)
(** ** Concrete inputs used by the examples below *)
(* ===================================================================== *)

(** Three prompts of 100 code units. *)
Definition prompt_space45 : jsstring :=
  replicate 44 97%N ++ [SPACE] ++ replicate 55 98%N.
Definition prompt_space61 : jsstring :=
  replicate 60 97%N ++ [SPACE] ++ replicate 39 98%N.
Definition prompt_nospace : jsstring := replicate 100 97%N.

(** One million input tokens and one million output tokens, no cache. *)
Definition stats_1M : TranscriptStats :=
  {| stats_model := None; inputTokens := 1000000; cacheCreationTokens := 0;
     cacheReadTokens := 0; outputTokens := 1000000; stats_messageCount := 0;
     stats_toolCallCount := 0; stats_title := None; stats_cwd := None |}.

(** An assistant entry with uuid u1, one text part and a usage block of
    100 input and 50 output tokens, and the same entry without uuid. *)
Definition entry_u1 : TranscriptEntry :=
  {| entry_type := Some "assistant"%string;
     entry_uuid := Some "u1"%string;
     entry_timestamp := Some "2025-01-22T10:00:00.000Z"%string;
     message := Some
       {| content := Some [ Some {| part_type := "text"; part_text := Some (js "done") |} ];
          usage := Some {| input_tokens := Some 100; output_tokens := Some 50;
                           cache_read_input_tokens := None;
                           cache_creation_input_tokens := None |};
          message_model := Some "claude-sonnet-4-20250514"%string |} |}.

Definition entry_nouuid : TranscriptEntry :=
  {| entry_type := Some "assistant"%string;
     entry_uuid := None;
     entry_timestamp := Some "2025-01-22T10:00:00.000Z"%string;
     message := message entry_u1 |}.

(** A file system with a transcript of the one and of the other entry. *)
Definition files (path : string) : fsnode :=
  if String.eqb path "with-uuid.jsonl" then File [Parsed entry_u1]
  else if String.eqb path "no-uuid.jsonl" then File [Parsed entry_nouuid]
  else NoEntry.

Definition config_on : Config :=
  {| autoSync := None; syncToolCalls := Some true |}.

(** An environment whose collector accepts every request, one whose
    collector refuses every request, and one whose collector refuses the
    Message records only. *)
Definition env_up : Env :=
  {| config := Some config_on; fs := files; collector := λ _ _, true;
     Date_now := "1737540000000"; ISO_now := "2025-01-22T10:00:01.000Z" |}.

Definition env_down : Env :=
  {| config := Some config_on; fs := files; collector := λ _ _, false;
     Date_now := "1737540000000"; ISO_now := "2025-01-22T10:00:01.000Z" |}.

Definition env_no_messages : Env :=
  {| config := Some config_on; fs := files;
     collector := λ _ r, match r with syncMessage _ => false | syncSession _ => true end;
     Date_now := "1737540000000"; ISO_now := "2025-01-22T10:00:01.000Z" |}.

(** Events of session S1. *)
Definition start_S1 : HookSessionStartData :=
  {| start_session_id := "S1"; start_cwd := Some "/home/dev/project"%string;
     start_model := Some "claude-sonnet-4-20250514"%string;
     permission_mode := None; source := Some "startup"%string;
     thinking_enabled := None; mcp_servers := None |}.

Definition prompt_S1 : HookUserPromptData :=
  {| prompt_session_id := "S1"; prompt := js "fix bug"; prompt_timestamp := None |}.

Definition stop_S1 (path : string) : HookStopData :=
  {| stop_session_id := "S1"; transcript_path := Some path |}.

Definition end_S1 (n : option Z) : HookSessionEndData :=
  {| end_session_id := "S1"; reason := Some "completed"%string;
     message_count := n; tool_call_count := None;
     total_token_usage := None; cost_estimate := None |}.

(** The state file after the start of S1 and one prompt. *)
Definition disk_S1 : SessionState :=
  run ∅ [ (env_up, SessionStart start_S1); (env_up, UserPromptSubmit prompt_S1) ].

(** The three Stop events the examples use. *)
Definition stop_with_uuid : HookStopData := stop_S1 "with-uuid.jsonl".
Definition stop_no_uuid : HookStopData := stop_S1 "no-uuid.jsonl".

(** The assistant message parsed from the entry without uuid. *)
Definition message_no_uuid : AssistantMessage :=
  {| uuid := EmptyString; text := js "done";
     timestamp := "2025-01-22T10:00:00.000Z";
     model := Some "claude-sonnet-4-20250514"%string |}.

(* ===================================================================== *)
(** ** What the transcript loop looks at *)
(* ===================================================================== *)

(** The entry and message of a line the loop of [parseTranscriptFile]
    processes: a parsed entry of type assistant that has a message. *)
Definition assistantLine (l : line) : option (TranscriptEntry * TranscriptMessage) :=
  match l with
  | Parsed entry =>
    match entry_type entry, message entry with
    | Some ty, Some msg =>
        if String.eqb ty "assistant" then Some (entry, msg) else None
    | _, _ => None
    end
  | _ => None
  end.

(** The uuid the loop reads on a line it processes, empty otherwise. *)
Definition lineUuid (l : line) : string :=
  match assistantLine l with
  | Some (entry, _) => default EmptyString (entry_uuid entry)
  | None => EmptyString
  end.

(** The non-empty uuids of the processed lines. *)
Definition assistantUuids (lines : list line) : gset string :=
  list_to_set (filter (λ u, u ≠ EmptyString) (lineUuid <$> lines)).

(** The messages one processed line contributes when it is not skipped as
    a duplicate: its text parts, up to a [null] part. *)
Definition lineMessages (ISO_now : string) (l : line) : list AssistantMessage :=
  match assistantLine l with
  | Some (entry, msg) => textMessages ISO_now entry msg (lineUuid l)
  | None => []
  end.


(** What such a line does to the totals: it adds its usage block, unless
    the inner loop throws. *)
Definition lineAddUsage (u : TokenUsage) (l : line) : TokenUsage :=
  match assistantLine l with
  | Some (_, msg) => if contentThrows msg then u else addUsage u msg
  | None => u
  end.

(** The usage block such a line adds, if any, and the input and output
    it stands for: cache reads and cache writes count as input. *)
Definition lineUsage (l : line) : option TranscriptUsage :=
  match assistantLine l with
  | Some (_, msg) => if contentThrows msg then None else usage msg
  | None => None
  end.

Definition lineInput (l : line) : Z :=
  match lineUsage l with
  | Some us => or0 (input_tokens us) + or0 (cache_read_input_tokens us)
               + or0 (cache_creation_input_tokens us)
  | None => 0
  end.

Definition lineOutput (l : line) : Z :=
  match lineUsage l with
  | Some us => or0 (output_tokens us)
  | None => 0
  end.

(** No count of the usage block of the line is negative. *)
Definition lineNonneg (l : line) : Prop :=
  match lineUsage l with
  | Some us => 0 ≤ or0 (input_tokens us) ∧ 0 ≤ or0 (cache_read_input_tokens us)
               ∧ 0 ≤ or0 (cache_creation_input_tokens us)
               ∧ 0 ≤ or0 (output_tokens us)
  | None => True
  end.

(** The inner loop throws on the line: it is a processed line whose
    content holds a [null] part. *)
Definition interrupted (l : line) : Prop :=
  match assistantLine l with
  | Some (_, msg) => contentThrows msg = true
  | None => False
  end.

(** A message without its timestamp, and a line whose messages take
    their timestamp from the entry, not from the clock. *)
Definition untimed (m : AssistantMessage) : string * jsstring * option string :=
  (uuid m, text m, model m).

Definition stamped (l : line) : Prop :=
  match assistantLine l with
  | Some (entry, _) => truthy_opt_string (entry_timestamp entry) = true
  | None => True
  end.

(** A file system in which every path names the same file. *)
Definition oneFile (lines : list line) : string → fsnode := λ _, File lines.

(** The sum of a list of integers. *)
Definition sumZ (l : list Z) : Z := foldr Z.add 0 l.

(** A user entry, and the entry of uuid u1 with another text. *)
Definition entry_user : TranscriptEntry :=
  {| entry_type := Some "user"%string; entry_uuid := Some "u0"%string;
     entry_timestamp := None; message := None |}.

Definition entry_u1_again : TranscriptEntry :=
  {| entry_type := Some "assistant"%string;
     entry_uuid := Some "u1"%string;
     entry_timestamp := None;
     message := Some
       {| content := Some [ Some {| part_type := "text"; part_text := Some (js "again") |} ];
          usage := Some {| input_tokens := Some 7; output_tokens := Some 3;
                           cache_read_input_tokens := Some 1;
                           cache_creation_input_tokens := None |};
          message_model := None |} |}.

(** The entry of uuid u3 whose content is a text part, a [null] part and
    another text part, and a later entry of the same uuid. *)
Definition entry_u3 : TranscriptEntry :=
  {| entry_type := Some "assistant"%string;
     entry_uuid := Some "u3"%string;
     entry_timestamp := None;
     message := Some
       {| content := Some [ Some {| part_type := "text"; part_text := Some (js "kept") |};
                            None;
                            Some {| part_type := "text"; part_text := Some (js "lost") |} ];
          usage := Some {| input_tokens := Some 9; output_tokens := Some 4;
                           cache_read_input_tokens := None;
                           cache_creation_input_tokens := None |};
          message_model := None |} |}.

Definition entry_u3_retry : TranscriptEntry :=
  {| entry_type := Some "assistant"%string;
     entry_uuid := Some "u3"%string;
     entry_timestamp := None;
     message := Some
       {| content := Some [ Some {| part_type := "text"; part_text := Some (js "retry") |} ];
          usage := Some {| input_tokens := Some 5; output_tokens := Some 2;
                           cache_read_input_tokens := None;
                           cache_creation_input_tokens := None |};
          message_model := None |} |}.

(* ===================================================================== *)
(** ** The other cases of the hook command as functions *)
(* ===================================================================== *)

(** The session an event is about. *)
Definition eventSession (event : HookEvent) : option string :=
  match event with
  | SessionStart data => Some (start_session_id data)
  | SessionEnd data => Some (end_session_id data)
  | UserPromptSubmit data => Some (prompt_session_id data)
  | PostToolUse data => Some (tool_session_id data)
  | Stop data => Some (stop_session_id data)
  | UnknownEvent _ => None
  end.

(** The session a request is about. *)
Definition requestSession (r : Request) : string :=
  match r with
  | syncSession session => sessionId session
  | syncMessage message => message_sessionId message
  end.

(** [state.firstPrompt] is truthy. *)
Definition firstPromptRecorded (state : SessionEntry) : bool :=
  match firstPrompt state with
  | Some p => truthy_jsstring p
  | None => false
  end.

(** The accumulator of a UserPromptSubmit event after its first save (the
    prompt recorded as first prompt when there was none) and after its
    second save (the message counted). *)
Definition promptRecorded (data : HookUserPromptData) (d : SessionState)
  : SessionEntry :=
  let state := accumulator (prompt_session_id data) d in
  if firstPromptRecorded state then state
  else set_firstPrompt (prompt data) state.

Definition promptCounted (data : HookUserPromptData) (d : SessionState)
  : SessionEntry :=
  set_messageCount
    (or0 (messageCount (accumulator (prompt_session_id data) d)) + 1)
    (promptRecorded data d).

(** The user message of a UserPromptSubmit event. *)
Definition promptMessage (env : Env) (data : HookUserPromptData) : MessageData :=
  {| message_sessionId := prompt_session_id data;
     messageId := prompt_session_id data +:+ "-user-" +:+ Date_now env;
     role := user;
     message_content := Some (prompt data);
     toolName := None; toolArgs := None; toolResult := None;
     durationMs := None;
     message_timestamp := or_string (prompt_timestamp data) (Some (ISO_now env));
     msg_model := None |}.

(** The requests of a UserPromptSubmit event that runs to its end: the
    title update when the prompt is the first one, then the message. *)
Definition promptRequests (env : Env) (data : HookUserPromptData)
    (d : SessionState) : list Request :=
  (if firstPromptRecorded (accumulator (prompt_session_id data) d) then []
   else [syncSession (sessionTitle (prompt_session_id data)
                                   (generateTitle (prompt data)))])
  ++ [syncMessage (promptMessage env data)].

(** The final record of a SessionEnd event. *)
Definition endSession (env : Env) (data : HookSessionEndData) (d : SessionState)
  : SessionData :=
  let state := accumulator (end_session_id data) d in
  {| sessionId := end_session_id data;
     title := if firstPromptRecorded state
              then generateTitle <$> firstPrompt state else None;
     projectPath := None; projectName := None; cwd := None;
     session_model := None; startType := None;
     endReason := reason data;
     thinkingEnabled := None; permissionMode := None; mcpServers := None;
     session_messageCount := or_number (message_count data) (messageCount state);
     toolCallCount := tool_call_count data;
     session_tokenUsage := match total_token_usage data with
                           | Some u => Some u
                           | None => state_tokenUsage state
                           end;
     costEstimate := cost_estimate data;
     startedAt := None; endedAt := Some (ISO_now env) |}.

(** The record of a SessionStart event. *)
Definition startSession (env : Env) (data : HookSessionStartData) : SessionData :=
  {| sessionId := start_session_id data; title := None;
     projectPath := start_cwd data;
     projectName := match start_cwd data with
                    | Some c => if truthy_string c
                                then Some (split_pop c EmptyString) else None
                    | None => None
                    end;
     cwd := start_cwd data;
     session_model := start_model data;
     startType := if bool_decide (source data = Some "startup"%string)
                  then Some "new"%string else source data;
     endReason := None;
     thinkingEnabled := thinking_enabled data;
     permissionMode := permission_mode data;
     mcpServers := mcp_servers data;
     session_messageCount := None; toolCallCount := None;
     session_tokenUsage := None; costEstimate := None;
     startedAt := Some (ISO_now env); endedAt := None |}.

(** The message of a PostToolUse event. *)
Definition toolMessage (env : Env) (data : HookToolUseData) : MessageData :=
  {| message_sessionId := tool_session_id data;
     messageId := default (tool_session_id data +:+ "-tool-" +:+ Date_now env)
                          (or_string (tool_use_id data) None);
     role := assistant;
     message_content := None;
     toolName := Some (tool_name data);
     toolArgs := tool_input data;
     toolResult := or_string (tool_result data ≫= tool_output)
                             (tool_result data ≫= tool_error);
     durationMs := duration_ms data;
     message_timestamp := Some (ISO_now env);
     msg_model := None |}.

(** The configuration asks for tool calls to be forwarded. *)
Definition toolCallsOn (env : Env) : bool :=
  match config env with
  | Some cfg => bool_decide (syncToolCalls cfg = Some true)
  | None => false
  end.

(** The requests an event issues when it runs to its end. *)
Definition allRequests (env : Env) (event : HookEvent) (d : SessionState)
  : list Request :=
  match event with
  | SessionStart data => [syncSession (startSession env data)]
  | SessionEnd data => [syncSession (endSession env data d)]
  | UserPromptSubmit data => promptRequests env data d
  | PostToolUse data =>
      if toolCallsOn env then [syncMessage (toolMessage env data)] else []
  | Stop data => stopMessages env data d ++ [stopSession env data d]
  | UnknownEvent _ => []
  end.

(* ===================================================================== *)
(** ** The payloads of the sync client *)
(* ===================================================================== *)

(** The body [transformSession] builds.  A key the function does not set
    is [None]; the constant [source] is left out, as in the records. *)
Record SessionPayload := {
  externalId : string;
  payload_title : option jsstring;
  payload_projectPath : option string;
  payload_projectName : option string;
  payload_model : option string;
  promptTokens : option Z;
  completionTokens : option Z;
  cost : option float;
  payload_messageCount : option Z;
  payload_toolCallCount : option Z;
  payload_endReason : option string;
  payload_durationMs : option float;
}.

(** [a] when it is truthy, [None] otherwise: the value of a key set under
    [if (a)]. *)
Definition truthy_only (a : option string) : option string :=
  or_string a None.

(** [transformSession] of the sync client.  [getTime s] stands for
    [new Date(s).getTime()]. *)
Definition transformSession (getTime : string → float) (session : SessionData)
  : SessionPayload :=
  {| externalId := sessionId session;
     payload_title := title session;
     payload_projectPath := or_string (projectPath session) (truthy_only (cwd session));
     payload_projectName := truthy_only (projectName session);
     payload_model := truthy_only (session_model session);
     promptTokens := input <$> session_tokenUsage session;
     completionTokens := output <$> session_tokenUsage session;
     cost := costEstimate session;
     payload_messageCount := session_messageCount session;
     payload_toolCallCount := toolCallCount session;
     payload_endReason := truthy_only (endReason session);
     payload_durationMs :=
       match endedAt session, startedAt session with
       | Some e, Some s =>
           if truthy_string e && truthy_string s
           then Some (getTime e - getTime s)%float else None
       | _, _ => None
       end |}.

(** A part of a message payload. *)
Inductive MessagePart :=
  | part_tool_call (name : string) (args : option string)
  | part_tool_result (result : string).

(** The body [transformMessage] builds.  The text content is the content
    of the message or, failing that, its tool result. *)
Record MessagePayload := {
  sessionExternalId : string;
  message_externalId : string;
  payload_role : Role;
  textContent : option (jsstring + string);
  message_durationMs : option Z;
  message_promptTokens : option Z;
  message_payload_model : option string;
  parts : option (list MessagePart);
}.

(** [transformMessage] of the sync client.  [tokenCount] is the field of
    that name, which the records of the hook command do not have. *)
Definition transformMessage (tokenCount : option Z) (message : MessageData)
  : MessagePayload :=
  let hasContent := match message_content message with
                    | Some c => truthy_jsstring c
                    | None => false
                    end in
  {| sessionExternalId := message_sessionId message;
     message_externalId := messageId message;
     payload_role := role message;
     textContent :=
       if hasContent then inl <$> message_content message
       else if truthy_opt_string (toolResult message)
               && negb (truthy_opt_string (toolName message))
            then inr <$> toolResult message
            else None;
     message_durationMs := durationMs message;
     message_promptTokens := tokenCount;
     message_payload_model := truthy_only (msg_model message);
     parts :=
       match toolName message with
       | Some name =>
         if truthy_string name then
           Some (part_tool_call name (toolArgs message)
                 :: match toolResult message with
                    | Some res => if truthy_string res then [part_tool_result res] else []
                    | None => []
                    end)
         else None
       | None => None
       end |}.

(* ===================================================================== *)
(** ** The session-state file *)
(* ===================================================================== *)

(** A [Set<string>] is the list of its elements in insertion order;
    [Set_add] is [Set.prototype.add] and [new_Set] is [new Set(array)]. *)
Definition Set_add (x : string) (s : list string) : list string :=
  if bool_decide (x ∈ s) then s else s ++ [x].

Definition new_Set (array : list string) : list string :=
  foldl (λ s x, Set_add x s) [] array.

(** The value of [syncedMessageUuids] in memory: a set or an array. *)
Inductive Uuids :=
  | UuidSet (elements : list string)
  | UuidArray (items : list string).

(** A value of [SessionState] in memory, and in the file, where the synced
    uuids are an array. *)
Record MemoryEntry := {
  memory_model : option string;
  memory_firstPrompt : option jsstring;
  memory_tokenUsage : option TokenUsage;
  memory_messageCount : option Z;
  memory_syncedMessageUuids : option Uuids;
}.

Record FileEntry := {
  file_model : option string;
  file_firstPrompt : option jsstring;
  file_tokenUsage : option TokenUsage;
  file_messageCount : option Z;
  file_syncedMessageUuids : option (list string);
}.

(** The loop body of [loadSessionState]: an array becomes a set. *)
Definition loadEntry (e : FileEntry) : MemoryEntry :=
  {| memory_model := file_model e;
     memory_firstPrompt := file_firstPrompt e;
     memory_tokenUsage := file_tokenUsage e;
     memory_messageCount := file_messageCount e;
     memory_syncedMessageUuids := UuidSet ∘ new_Set <$> file_syncedMessageUuids e |}.

(** The loop body of [saveSessionState]: a set becomes the array of its
    elements, an array is written as it is. *)
Definition saveEntry (e : MemoryEntry) : FileEntry :=
  {| file_model := memory_model e;
     file_firstPrompt := memory_firstPrompt e;
     file_tokenUsage := memory_tokenUsage e;
     file_messageCount := memory_messageCount e;
     file_syncedMessageUuids :=
       match memory_syncedMessageUuids e with
       | Some (UuidSet elements) => Some elements
       | Some (UuidArray items) => Some items
       | None => None
       end |}.

(** What the state file holds: nothing, text that is not JSON, or an
    object keyed by session identifier. *)
Inductive StateFile :=
  | NoStateFile
  | CorruptStateFile
  | StateObject (sessions : gmap string FileEntry).

(** [loadSessionState] and [saveSessionState] on the file. *)
Definition loadSessionState_file (file : StateFile) : gmap string MemoryEntry :=
  match file with
  | StateObject sessions => loadEntry <$> sessions
  | _ => ∅
  end.

Definition saveSessionState_file (state : gmap string MemoryEntry) : StateFile :=
  StateObject (saveEntry <$> state).

(** The synced uuids as the Stop case reads them: a set is taken as it
    is, an array through [new Set]. *)
Definition syncedOf (u : option Uuids) : option (gset string) :=
  match u with
  | Some (UuidSet elements) => Some (list_to_set elements)
  | Some (UuidArray items) => Some (list_to_set (new_Set items))
  | None => None
  end.

(** The accumulator of the sections above: the entry in memory with its
    synced uuids as a finite set. *)
Definition entryOf (e : MemoryEntry) : SessionEntry :=
  {| state_model := memory_model e;
     firstPrompt := memory_firstPrompt e;
     state_tokenUsage := memory_tokenUsage e;
     messageCount := memory_messageCount e;
     syncedMessageUuids := syncedOf (memory_syncedMessageUuids e) |}.

(** An entry in memory whose synced uuids are a set, as they are after
    the Stop case; a set has no repeated element. *)
Definition wellFormed (e : MemoryEntry) : Prop :=
  match memory_syncedMessageUuids e with
  | Some (UuidSet elements) => NoDup elements
  | Some (UuidArray _) => False
  | None => True
  end.

(* ===================================================================== *)
(** ** The statistics parser of the plugin entry point *)
(* ===================================================================== *)

(** [a || 0] on an optional binary64 number: zero, negative zero and NaN
    are falsy. *)
Definition or0_float (a : option float) : float :=
  match a with
  | Some x => if PrimFloat.eqb x 0 || PrimFloat.is_nan x then 0%float else x
  | None => 0%float
  end.

Record StatsUsage := {
  usage_input_tokens : option float;
  usage_output_tokens : option float;
  usage_cache_creation_input_tokens : option float;
  usage_cache_read_input_tokens : option float;
}.

(** The message of an entry as [parseTranscript] reads it.  Of [content]
    only the type tags of the parts are read: [stats_content] is [None]
    when the content is absent, falsy or not an array, and a part is
    [None] when it is not an object with a [type]. *)
Record StatsMessage := {
  stats_message_model : option string;
  stats_usage : option StatsUsage;
  stats_content : option (list (option string));
}.

Record StatsEntry := {
  stats_type : option string;
  stats_message : option StatsMessage;
  stats_entry_cwd : option string;
  stats_slug : option string;
}.

(** A line on which [JSON.parse] throws or yields [null], or a parsed
    entry. *)
Inductive statsLine :=
  | StatsMalformed
  | StatsParsed (entry : StatsEntry).

Inductive statsFile :=
  | NoStatsFile
  | UnreadableStatsFile
  | StatsFile (lines : list statsLine).

Definition emptyStats : TranscriptStats :=
  {| stats_model := None; inputTokens := 0; cacheCreationTokens := 0;
     cacheReadTokens := 0; outputTokens := 0; stats_messageCount := 0;
     stats_toolCallCount := 0; stats_title := None; stats_cwd := None |}.

(** The number of parts of kind tool_use. *)
Definition toolUses (content : option (list (option string))) : Z :=
  match content with
  | Some parts =>
      Z.of_nat (length (filter (λ part, part = Some "tool_use"%string) parts))
  | None => 0
  end.

(** The assistant message of an entry, when the entry is of type assistant
    and has one. *)
Definition statsAssistant (entry : StatsEntry) : option StatsMessage :=
  if bool_decide (stats_type entry = Some "assistant"%string)
  then stats_message entry else None.

(** One iteration of the loop of [parseTranscript]. *)
Definition statsLineStep (stats : TranscriptStats) (l : statsLine)
  : TranscriptStats :=
  match l with
  | StatsMalformed => stats
  | StatsParsed entry =>
    let cwd' := if negb (truthy_opt_string (stats_cwd stats))
                   && truthy_opt_string (stats_entry_cwd entry)
                then stats_entry_cwd entry else stats_cwd stats in
    let title' := if negb (truthy_opt_string (stats_title stats))
                     && truthy_opt_string (stats_slug entry)
                  then stats_slug entry else stats_title stats in
    let messageCount' :=
      if bool_decide (stats_type entry = Some "user"%string)
      then stats_messageCount stats + 1 else stats_messageCount stats in
    let model' :=
      match statsAssistant entry with
      | Some msg =>
          if truthy_opt_string (stats_message_model msg)
             && negb (truthy_opt_string (stats_model stats))
          then stats_message_model msg else stats_model stats
      | None => stats_model stats
      end in
    let usage' := statsAssistant entry ≫= stats_usage in
    {| stats_model := model';
       inputTokens :=
         match usage' with
         | Some u => (inputTokens stats + or0_float (usage_input_tokens u))%float
         | None => inputTokens stats
         end;
       cacheCreationTokens :=
         match usage' with
         | Some u => (cacheCreationTokens stats
                      + or0_float (usage_cache_creation_input_tokens u))%float
         | None => cacheCreationTokens stats
         end;
       cacheReadTokens :=
         match usage' with
         | Some u => (cacheReadTokens stats
                      + or0_float (usage_cache_read_input_tokens u))%float
         | None => cacheReadTokens stats
         end;
       outputTokens :=
         match usage' with
         | Some u => (outputTokens stats + or0_float (usage_output_tokens u))%float
         | None => outputTokens stats
         end;
       stats_messageCount := messageCount';
       stats_toolCallCount :=
         stats_toolCallCount stats
         + match statsAssistant entry with
           | Some msg => toolUses (stats_content msg)
           | None => 0
           end;
       stats_title := title';
       stats_cwd := cwd' |}
  end.

(** [parseTranscript] of the plugin entry point. *)
Definition parseTranscript (files : string → statsFile) (transcriptPath : string)
  : TranscriptStats :=
  match files transcriptPath with
  | NoStatsFile => emptyStats
  | UnreadableStatsFile => emptyStats
  | StatsFile lines => foldl statsLineStep emptyStats lines
  end.

(** What a line shows of each kind. *)
Definition lineIsUser (l : statsLine) : Prop :=
  match l with
  | StatsParsed entry => stats_type entry = Some "user"%string
  | StatsMalformed => False
  end.

Definition lineToolUses (l : statsLine) : Z :=
  match l with
  | StatsParsed entry =>
      match statsAssistant entry with
      | Some msg => toolUses (stats_content msg)
      | None => 0
      end
  | StatsMalformed => 0
  end.

Definition lineModel (l : statsLine) : option string :=
  match l with
  | StatsParsed entry =>
      truthy_only (statsAssistant entry ≫= stats_message_model)
  | StatsMalformed => None
  end.

Definition lineSlug (l : statsLine) : option string :=
  match l with
  | StatsParsed entry => truthy_only (stats_slug entry)
  | StatsMalformed => None
  end.

Definition lineCwd (l : statsLine) : option string :=
  match l with
  | StatsParsed entry => truthy_only (stats_entry_cwd entry)
  | StatsMalformed => None
  end.

#[global] Instance lineIsUser_dec l : Decision (lineIsUser l).
Proof. destruct l; simpl; apply _. Defined.

(** The first truthy value wins: how the loop fills [model], [title] and
    [cwd]. *)
Definition firstWins (current : option string) (found : list string)
  : option string :=
  if truthy_opt_string current then current
  else match found with
       | x :: _ => Some x
       | [] => current
       end.

(* ===================================================================== *)
(** ** Masking the API key *)
(* ===================================================================== *)

(** [s.substring(start, end)]: both indices are clamped to the string and
    swapped when they come in the wrong order. *)
Definition substring (s : jsstring) (start end_ : Z) : jsstring :=
  let len := Z.of_nat (length s) in
  let a := Z.min (Z.max start 0) len in
  let b := Z.min (Z.max end_ 0) len in
  take (Z.to_nat (Z.max a b - Z.min a b)) (drop (Z.to_nat (Z.min a b)) s).

(** [maskApiKey] of cli.ts. *)
Definition maskApiKey (key : jsstring) : jsstring :=
  let len := Z.of_nat (length key) in
  if len <=? 8 then js "****"
  else substring key 0 4 ++ js "****" ++ substring key (len - 4) len.

(* ===================================================================== *)
(** ** The in-process plugin *)
(* ===================================================================== *)

(** [createPlugin] of the plugin entry point: the handlers share two
    counters and the session cache of their [SyncClient].

    Of [Partial<SessionData>] the cache holds the keys the handlers set.
    A key that is absent and a key that holds [undefined] read alike, and
    both are [None].  The keys [sessionId], [source] and [gitBranch] are
    left out: no handler reads them from the cache and [transformSession]
    sends none of what the cache holds of them, so the reading of
    [.git/HEAD], whose errors are ignored, has no effect that is modelled
    here.  [path.basename], which depends on the platform, is a parameter
    of the host. *)
Module Plugin.

Record SessionStartEvent := {
  ss_session_id : option string;
  ss_sessionId : option string;
  ss_cwd : option string;
  ss_model : option string;
  ss_startType : option string;
  ss_thinkingEnabled : option bool;
  ss_permission_mode : option string;
  ss_permissionMode : option string;
  ss_mcpServers : option (list string);
}.

Record UserPromptEvent := {
  up_session_id : option string;
  up_sessionId : option string;
  up_prompt : option jsstring;
  up_timestamp : option string;
}.

Record ToolUseEvent := {
  tu_session_id : option string;
  tu_sessionId : option string;
  tu_tool_name : option string;
  tu_toolName : option string;
  tu_args : option string;
  tu_result : option string;
  tu_durationMs : option Z;
}.

Record StopEvent := {
  st_session_id : option string;
  st_sessionId : option string;
  st_response : option jsstring;
  st_tokenUsage : option TokenUsage;
  st_durationMs : option Z;
  st_model : option string;
}.

Record SessionEndEvent := {
  se_session_id : option string;
  se_sessionId : option string;
  se_cwd : option string;
  se_reason : option string;
  se_endReason : option string;
  se_messageCount : option Z;
  se_toolCallCount : option Z;
  se_totalTokenUsage : option TokenUsage;
  se_costEstimate : option float;
}.

Inductive Event :=
  | OnSessionStart (event : SessionStartEvent)
  | OnUserPromptSubmit (event : UserPromptEvent)
  | OnPostToolUse (event : ToolUseEvent)
  | OnStop (event : StopEvent)
  | OnSessionEnd (event : SessionEndEvent).

(** A value of the session cache. *)
Record CachedSession := {
  cached_cwd : option string;
  cached_projectPath : option string;
  cached_projectName : option string;
  cached_model : option string;
  cached_startType : option string;
  cached_thinkingEnabled : option bool;
  cached_permissionMode : option string;
  cached_mcpServers : option (list string);
  cached_startedAt : option string;
  cached_tokenUsage : option TokenUsage;
}.

(** The object literal [{}]. *)
Definition emptySession : CachedSession :=
  {| cached_cwd := None; cached_projectPath := None;
     cached_projectName := None; cached_model := None;
     cached_startType := None; cached_thinkingEnabled := None;
     cached_permissionMode := None; cached_mcpServers := None;
     cached_startedAt := None; cached_tokenUsage := None |}.

(** The state the handlers close over. *)
Record State := {
  messageCounter : Z;
  toolCallCounter : Z;
  sessionCache : gmap string CachedSession;
}.

(** One call on the [SyncClient]; [tokenCount] is the field of that name
    of the message. *)
Inductive Call :=
  | SessionCall (session : SessionData)
  | MessageCall (message : MessageData) (tokenCount : option Z).

(** What the plugin is given: the configuration [createPlugin] loaded,
    [path.basename], and the collector (whether it accepts a call, given
    the calls it has received before). *)
Record Host := {
  host_config : Config;
  basename : string → string;
  host_collector : list Call → Call → bool;
}.

(** What a handler leaves: the state, the calls it made, and whether its
    promise was fulfilled (a call the collector refuses rejects it). *)
Record Outcome := {
  state_after : State;
  sent : list Call;
  fulfilled : bool;
}.

(** [createPlugin]: the state of the handlers it returns, or [None] when
    it returns [null]. *)
Definition createPlugin (config : option Config) : option State :=
  match config with
  | None => None
  | Some cfg =>
      if bool_decide (autoSync cfg = Some false) then None
      else Some {| messageCounter := 0; toolCallCounter := 0;
                   sessionCache := ∅ |}
  end.

(** [event.session_id || event.sessionId || EmptyString]. *)
Definition eventSessionId (session_id sessionId : option string) : string :=
  default EmptyString (or_string session_id sessionId).

(** [client.getSessionState]. *)
Definition getSessionState (st : State) (sessionId : string) : CachedSession :=
  default emptySession (sessionCache st !! sessionId).

Definition set_sessionCache (cache : gmap string CachedSession) (st : State)
  : State :=
  {| messageCounter := messageCounter st;
     toolCallCounter := toolCallCounter st; sessionCache := cache |}.

(** [client.updateSessionState(sessionId, session)] on the session of a
    SessionStart event: the keys of the literal replace the cached ones,
    [projectPath] and [projectName] only when the event has a working
    directory. *)
Definition cacheStartedSession (session : SessionData) (st : State) : State :=
  let current := getSessionState st (sessionId session) in
  let hasCwd := truthy_opt_string (cwd session) in
  set_sessionCache
    (<[sessionId session :=
        {| cached_cwd := cwd session;
           cached_projectPath :=
             if hasCwd then projectPath session else cached_projectPath current;
           cached_projectName :=
             if hasCwd then projectName session else cached_projectName current;
           cached_model := session_model session;
           cached_startType := startType session;
           cached_thinkingEnabled := thinkingEnabled session;
           cached_permissionMode := permissionMode session;
           cached_mcpServers := mcpServers session;
           cached_startedAt := startedAt session;
           cached_tokenUsage := cached_tokenUsage current |}]>
      (sessionCache st)) st.

(** [client.updateSessionState(sessionId, { tokenUsage })]. *)
Definition cacheTokenUsage (sessionId : string) (u : TokenUsage) (st : State)
  : State :=
  let current := getSessionState st sessionId in
  set_sessionCache
    (<[sessionId :=
        {| cached_cwd := cached_cwd current;
           cached_projectPath := cached_projectPath current;
           cached_projectName := cached_projectName current;
           cached_model := cached_model current;
           cached_startType := cached_startType current;
           cached_thinkingEnabled := cached_thinkingEnabled current;
           cached_permissionMode := cached_permissionMode current;
           cached_mcpServers := cached_mcpServers current;
           cached_startedAt := cached_startedAt current;
           cached_tokenUsage := Some u |}]>
      (sessionCache st)) st.

(** [client.clearSessionState]. *)
Definition clearSessionState (sessionId : string) (st : State) : State :=
  set_sessionCache (delete sessionId (sessionCache st)) st.

Definition SessionStart (host : Host) (now : string) (accepts : Call → bool)
    (event : SessionStartEvent) (st : State) : Outcome :=
  let st := {| messageCounter := 0; toolCallCounter := 0;
               sessionCache := sessionCache st |} in
  let sessionId := eventSessionId (ss_session_id event) (ss_sessionId event) in
  let cwd := ss_cwd event in
  let permissionMode :=
    or_string (ss_permission_mode event) (ss_permissionMode event) in
  let session :=
    {| sessionId := sessionId; title := None;
       projectPath := if truthy_opt_string cwd then cwd else None;
       projectName := if truthy_opt_string cwd then basename host <$> cwd
                      else None;
       cwd := cwd;
       session_model := ss_model event;
       startType := ss_startType event;
       endReason := None;
       thinkingEnabled := ss_thinkingEnabled event;
       permissionMode := permissionMode;
       mcpServers := ss_mcpServers event;
       session_messageCount := None; toolCallCount := None;
       session_tokenUsage := None; costEstimate := None;
       startedAt := Some now; endedAt := None |} in
  let st := cacheStartedSession session st in
  {| state_after := st; sent := [SessionCall session];
     fulfilled := accepts (SessionCall session) |}.

Definition UserPromptSubmit (host : Host) (now : string)
    (accepts : Call → bool) (event : UserPromptEvent) (st : State) : Outcome :=
  let st := {| messageCounter := messageCounter st + 1;
               toolCallCounter := toolCallCounter st;
               sessionCache := sessionCache st |} in
  let sessionId := eventSessionId (up_session_id event) (up_sessionId event) in
  let prompt := default [] (up_prompt event) in
  let message :=
    {| message_sessionId := sessionId;
       messageId := sessionId +:+ "-msg-" +:+ pretty (messageCounter st);
       role := user;
       message_content := Some prompt;
       toolName := None; toolArgs := None; toolResult := None;
       durationMs := None;
       message_timestamp := or_string (up_timestamp event) (Some now);
       msg_model := None |} in
  {| state_after := st; sent := [MessageCall message None];
     fulfilled := accepts (MessageCall message None) |}.

Definition PostToolUse (host : Host) (now : string) (accepts : Call → bool)
    (event : ToolUseEvent) (st : State) : Outcome :=
  if negb (bool_decide (syncToolCalls (host_config host) = Some true))
  then {| state_after := st; sent := []; fulfilled := true |}
  else
    let st := {| messageCounter := messageCounter st + 1;
                 toolCallCounter := toolCallCounter st + 1;
                 sessionCache := sessionCache st |} in
    let sessionId := eventSessionId (tu_session_id event) (tu_sessionId event) in
    let toolName :=
      default "unknown"%string
              (truthy_only (or_string (tu_tool_name event) (tu_toolName event))) in
    let message :=
      {| message_sessionId := sessionId;
         messageId := sessionId +:+ "-tool-" +:+ pretty (toolCallCounter st);
         role := assistant;
         message_content := None;
         toolName := Some toolName;
         toolArgs := tu_args event;
         toolResult := tu_result event;
         durationMs := tu_durationMs event;
         message_timestamp := Some now;
         msg_model := None |} in
    {| state_after := st; sent := [MessageCall message None];
       fulfilled := accepts (MessageCall message None) |}.

(** The update of the cached token usage at the end of the Stop handler. *)
Definition addTokenUsage (sessionId : string) (tokenUsage : TokenUsage)
    (st : State) : State :=
  if (0 <? input tokenUsage) || (0 <? output tokenUsage) then
    let currentTokens :=
      default {| input := 0; output := 0 |}
              (cached_tokenUsage (getSessionState st sessionId)) in
    cacheTokenUsage sessionId
      {| input := input currentTokens + input tokenUsage;
         output := output currentTokens + output tokenUsage |} st
  else st.

Definition Stop (host : Host) (now : string) (accepts : Call → bool)
    (event : StopEvent) (st : State) : Outcome :=
  let sessionId := eventSessionId (st_session_id event) (st_sessionId event) in
  let tokenUsage :=
    default {| input := 0; output := 0 |} (st_tokenUsage event) in
  match st_response event with
  | Some response =>
    if truthy_jsstring response then
      let st := {| messageCounter := messageCounter st + 1;
                   toolCallCounter := toolCallCounter st;
                   sessionCache := sessionCache st |} in
      let message :=
        {| message_sessionId := sessionId;
           messageId := sessionId +:+ "-msg-" +:+ pretty (messageCounter st);
           role := assistant;
           message_content := Some response;
           toolName := None; toolArgs := None; toolResult := None;
           durationMs := st_durationMs event;
           message_timestamp := Some now;
           msg_model := st_model event |} in
      let call :=
        MessageCall message (Some (input tokenUsage + output tokenUsage)) in
      if accepts call
      then {| state_after := addTokenUsage sessionId tokenUsage st;
              sent := [call]; fulfilled := true |}
      else {| state_after := st; sent := [call]; fulfilled := false |}
    else {| state_after := addTokenUsage sessionId tokenUsage st;
            sent := []; fulfilled := true |}
  | None => {| state_after := addTokenUsage sessionId tokenUsage st;
               sent := []; fulfilled := true |}
  end.

Definition SessionEnd (host : Host) (now : string) (accepts : Call → bool)
    (event : SessionEndEvent) (st : State) : Outcome :=
  let sessionId := eventSessionId (se_session_id event) (se_sessionId event) in
  let currentState := getSessionState st sessionId in
  let endReason := or_string (se_reason event) (se_endReason event) in
  let session :=
    {| sessionId := sessionId; title := None;
       projectPath := se_cwd event;
       projectName := if truthy_opt_string (se_cwd event)
                      then basename host <$> se_cwd event else None;
       cwd := se_cwd event;
       session_model := cached_model currentState;
       startType := cached_startType currentState;
       endReason := endReason;
       thinkingEnabled := cached_thinkingEnabled currentState;
       permissionMode := cached_permissionMode currentState;
       mcpServers := cached_mcpServers currentState;
       session_messageCount := se_messageCount event;
       toolCallCount := se_toolCallCount event;
       session_tokenUsage := se_totalTokenUsage event;
       costEstimate := se_costEstimate event;
       startedAt := cached_startedAt currentState;
       endedAt := Some now |} in
  if accepts (SessionCall session)
  then {| state_after := clearSessionState sessionId st;
          sent := [SessionCall session]; fulfilled := true |}
  else {| state_after := st; sent := [SessionCall session];
          fulfilled := false |}.

(** The handler of an event. *)
Definition handle (host : Host) (now : string) (accepts : Call → bool)
    (event : Event) (st : State) : Outcome :=
  match event with
  | OnSessionStart e => SessionStart host now accepts e st
  | OnUserPromptSubmit e => UserPromptSubmit host now accepts e st
  | OnPostToolUse e => PostToolUse host now accepts e st
  | OnStop e => Stop host now accepts e st
  | OnSessionEnd e => SessionEnd host now accepts e st
  end.

(** The plugin over a sequence of events, each with the time it is
    handled at: the state of the handlers and the calls made so far.  A
    handler whose promise is rejected does not keep the next from
    running. *)
Record Trace := {
  plugin : State;
  calls : list Call;
}.

Definition step (host : Host) (t : Trace) (e : string * Event) : Trace :=
  let o := handle host e.1 (host_collector host (calls t)) e.2 (plugin t) in
  {| plugin := state_after o; calls := calls t ++ sent o |}.

Definition run (host : Host) (events : list (string * Event)) (t : Trace)
  : Trace :=
  foldl (step host) t events.

(** The session an event names. *)
Definition eventSession (event : Event) : string :=
  match event with
  | OnSessionStart e => eventSessionId (ss_session_id e) (ss_sessionId e)
  | OnUserPromptSubmit e => eventSessionId (up_session_id e) (up_sessionId e)
  | OnPostToolUse e => eventSessionId (tu_session_id e) (tu_sessionId e)
  | OnStop e => eventSessionId (st_session_id e) (st_sessionId e)
  | OnSessionEnd e => eventSessionId (se_session_id e) (se_sessionId e)
  end.

Definition isSessionStart (event : Event) : bool :=
  match event with OnSessionStart _ => true | _ => false end.

Definition isSessionEnd (event : Event) : bool :=
  match event with OnSessionEnd _ => true | _ => false end.

(** The session and the identifier of the messages among the calls. *)
Definition messageKey (c : Call) : option (string * string) :=
  match c with
  | MessageCall message _ => Some (message_sessionId message, messageId message)
  | SessionCall _ => None
  end.

(** The cached session without its token usage. *)
Definition withoutUsage (s : CachedSession) : CachedSession :=
  {| cached_cwd := cached_cwd s; cached_projectPath := cached_projectPath s;
     cached_projectName := cached_projectName s;
     cached_model := cached_model s; cached_startType := cached_startType s;
     cached_thinkingEnabled := cached_thinkingEnabled s;
     cached_permissionMode := cached_permissionMode s;
     cached_mcpServers := cached_mcpServers s;
     cached_startedAt := cached_startedAt s; cached_tokenUsage := None |}.

(** Two states that differ at most in the token usage they cache. *)
Definition sameButUsage (st st' : State) : Prop :=
  messageCounter st = messageCounter st' ∧
  toolCallCounter st = toolCallCounter st' ∧
  ∀ sessionId, withoutUsage (getSessionState st sessionId)
               = withoutUsage (getSessionState st' sessionId).

(** The message identifiers the handlers form between two states: the
    session, then the kind and the value of a counter above that of the
    first state and up to that of the second. *)
Definition issuedBetween (st st' : State) (key : string * string) : Prop :=
  (∃ n, messageCounter st < n ≤ messageCounter st' ∧
        key.2 = key.1 +:+ "-msg-" +:+ pretty n) ∨
  (∃ n, toolCallCounter st < n ≤ toolCallCounter st' ∧
        key.2 = key.1 +:+ "-tool-" +:+ pretty n).

(** The session [sessionId] is cached with the model [model] and the
    start time [startedAt]. *)
Definition cachedSince (st : State) (sessionId : string)
    (model : option string) (startedAt : string) : Prop :=
  ∃ c, sessionCache st !! sessionId = Some c ∧ cached_model c = model ∧
       cached_startedAt c = Some startedAt.

End Plugin.

(** The flags the [config] command prints: a flag that is absent is
    reported as set. *)
Definition reportedAutoSync (cfg : Config) : bool :=
  negb (bool_decide (autoSync cfg = Some false)).

Definition reportedSyncToolCalls (cfg : Config) : bool :=
  negb (bool_decide (syncToolCalls cfg = Some false)).

(* ===================================================================== *)
(** ** Further concrete inputs *)
(* ===================================================================== *)

(** The assistant message parsed from [entry_u1]. *)
Definition message_u1 : AssistantMessage :=
  {| uuid := "u1"; text := js "done";
     timestamp := "2025-01-22T10:00:00.000Z";
     model := Some "claude-sonnet-4-20250514"%string |}.




(** A tool call of S1 that printed ok. *)
Definition tool_S1 : HookToolUseData :=
  {| tool_session_id := "S1"; tool_name := "Bash"; tool_use_id := None;
     tool_input := None;
     tool_result := Some {| tool_output := Some "ok"%string; tool_error := None |};
     duration_ms := None |}.

(** A configuration file that names neither flag, and an environment that
    has it. *)
Definition config_bare : Config :=
  {| autoSync := None; syncToolCalls := None |}.

Definition env_bare : Env :=
  {| config := Some config_bare; fs := files; collector := λ _ _, true;
     Date_now := "1737540000000"; ISO_now := "2025-01-22T10:00:01.000Z" |}.

(** A state in memory in which S1 has synced u1 and u2. *)
Definition memory_S1 : gmap string MemoryEntry :=
  {[ "S1"%string :=
       {| memory_model := Some "claude-sonnet-4-20250514"%string;
          memory_firstPrompt := Some (js "fix bug");
          memory_tokenUsage := Some {| input := 100; output := 50 |};
          memory_messageCount := Some 2;
          memory_syncedMessageUuids := Some (UuidSet ["u1"; "u2"]%string) |} ]}.

(** Hosts of the plugin, with [config_on] and with [config_bare]; their
    collector accepts every call and the base name of a path is its last
    segment. *)
Definition host_up : Plugin.Host :=
  {| Plugin.host_config := config_on;
     Plugin.basename := λ p, split_pop p EmptyString;
     Plugin.host_collector := λ _ _, true |}.

Definition host_bare : Plugin.Host :=
  {| Plugin.host_config := config_bare;
     Plugin.basename := λ p, split_pop p EmptyString;
     Plugin.host_collector := λ _ _, true |}.

(** Events of session P1 as the plugin receives them. *)
Definition start_P1 : Plugin.SessionStartEvent :=
  {| Plugin.ss_session_id := Some "P1"%string; Plugin.ss_sessionId := None;
     Plugin.ss_cwd := Some "/home/dev/project"%string;
     Plugin.ss_model := Some "claude-sonnet-4-20250514"%string;
     Plugin.ss_startType := None; Plugin.ss_thinkingEnabled := None;
     Plugin.ss_permission_mode := Some "default"%string;
     Plugin.ss_permissionMode := None; Plugin.ss_mcpServers := None |}.

Definition prompt_P1 : Plugin.UserPromptEvent :=
  {| Plugin.up_session_id := Some "P1"%string; Plugin.up_sessionId := None;
     Plugin.up_prompt := Some (js "fix bug"); Plugin.up_timestamp := None |}.

Definition tool_P1 : Plugin.ToolUseEvent :=
  {| Plugin.tu_session_id := Some "P1"%string; Plugin.tu_sessionId := None;
     Plugin.tu_tool_name := Some "Bash"%string; Plugin.tu_toolName := None;
     Plugin.tu_args := None; Plugin.tu_result := Some "ok"%string;
     Plugin.tu_durationMs := None |}.

Definition stop_P1 : Plugin.StopEvent :=
  {| Plugin.st_session_id := Some "P1"%string; Plugin.st_sessionId := None;
     Plugin.st_response := Some (js "done");
     Plugin.st_tokenUsage := Some {| input := 100; output := 50 |};
     Plugin.st_durationMs := None; Plugin.st_model := None |}.

Definition end_P1 : Plugin.SessionEndEvent :=
  {| Plugin.se_session_id := Some "P1"%string; Plugin.se_sessionId := None;
     Plugin.se_cwd := Some "/home/dev/project"%string;
     Plugin.se_reason := Some "other"%string; Plugin.se_endReason := None;
     Plugin.se_messageCount := None; Plugin.se_toolCallCount := None;
     Plugin.se_totalTokenUsage := None; Plugin.se_costEstimate := None |}.

(** The plugin as [createPlugin] returns it, and with a token usage
    cached for P1. *)
Definition fresh : Plugin.Trace :=
  {| Plugin.plugin := {| Plugin.messageCounter := 0;
                         Plugin.toolCallCounter := 0;
                         Plugin.sessionCache := ∅ |};
     Plugin.calls := [] |}.

Definition fresh_with_usage : Plugin.Trace :=
  {| Plugin.plugin :=
       Plugin.cacheTokenUsage "P1" {| input := 100; output := 50 |}
                              (Plugin.plugin fresh);
     Plugin.calls := [] |}.

(* ===================================================================== *)
(** ** Title derivation *)
(* ===================================================================== *)

Section Title.

Implicit Types (s w prompt : jsstring) (c : N).

Lemma slice_0 s (e : Z) : 0 ≤ e → slice s 0 e = take (Z.to_nat e) s.
Proof.
  intros He. unfold slice, clamp_index.
  replace (0 <? 0) with false by reflexivity.
  destruct (Z.ltb_spec e 0) as [?|_]; [lia|].
  rewrite (Z.min_l 0) by lia. rewrite Z.sub_0_r. change (Z.to_nat 0) with 0%nat. rewrite drop_0.
  destruct (Z.le_gt_cases e (Z.of_nat (length s))).
  - by rewrite Z.min_l.
  - rewrite Z.min_r by lia. rewrite Nat2Z.id.
    rewrite firstn_all. symmetry. apply take_ge. lia.
Qed.

Lemma lastIndexOf_from_spec c s (i acc : Z) :
  ((c ∉ s) ∧ lastIndexOf_from c s i acc = acc) ∨
  (∃ k : nat, s !! k = Some c ∧ (∀ j : nat, (k < j)%nat → s !! j ≠ Some c)
              ∧ lastIndexOf_from c s i acc = i + Z.of_nat k).
Proof.
  revert i acc. induction s as [|x s IH]; intros i acc; simpl.
  - left. split; [apply not_elem_of_nil | done].
  - destruct (IH (i + 1) (if (x =? c)%N then i else acc))
      as [[Hnot Heq]|(k & Hk & Hlast & Heq)].
    + rewrite Heq. destruct (N.eqb_spec x c) as [->|Hne].
      * right. exists 0%nat. split; [done|]. split; [|lia].
        intros [|j] Hj; [lia|]. simpl. intros Hin.
        apply Hnot. by eapply list_elem_of_lookup_2.
      * left. split; [|done]. rewrite not_elem_of_cons. split; [congruence|done].
    + right. exists (S k). split; [done|]. split; [|lia].
      intros [|j] Hj; [lia|]. simpl. apply Hlast. lia.
Qed.

(** [lastIndexOf] returns the index of the last occurrence. *)
Lemma lastIndexOf_last c s (i : nat) :
  s !! i = Some c → (∀ j : nat, (i < j)%nat → s !! j ≠ Some c) →
  lastIndexOf c s = Z.of_nat i.
Proof.
  intros Hi Hlast. unfold lastIndexOf.
  destruct (lastIndexOf_from_spec c s 0 (-1))
    as [[Hnot _]|(k & Hk & Hklast & ->)].
  - exfalso. apply Hnot. by eapply list_elem_of_lookup_2.
  - destruct (Nat.lt_total i k) as [Hlt|[->|Hgt]]; [|lia|].
    + by destruct (Hlast k Hlt).
    + by destruct (Hklast i Hgt).
Qed.

(** Without an occurrence beyond [n], [lastIndexOf] is at most [n]. *)
Lemma lastIndexOf_bound c s (n : nat) :
  (∀ j : nat, (n < j)%nat → s !! j ≠ Some c) → lastIndexOf c s ≤ Z.of_nat n.
Proof.
  intros Hno. unfold lastIndexOf.
  destruct (lastIndexOf_from_spec c s 0 (-1))
    as [[_ ->]|(k & Hk & _ & ->)]; [lia|].
  destruct (Nat.le_gt_cases k n) as [?|Hgt]; [lia|].
  by destruct (Hno k Hgt).
Qed.

Lemma trimStart_id s :
  (∀ c, head s = Some c → isWhiteSpace c = false) → trimStart s = s.
Proof.
  destruct s as [|c s]; [done|]. intros H. simpl. by rewrite (H c).
Qed.

Lemma trim_id s :
  (∀ c, head s = Some c → isWhiteSpace c = false) →
  (∀ c, last s = Some c → isWhiteSpace c = false) →
  trim s = s.
Proof.
  intros Hh Hl. unfold trim, trimEnd. rewrite (trimStart_id s Hh).
  rewrite trimStart_id; [apply reverse_involutive|].
  intros c Hc. apply Hl. by rewrite <- head_reverse.
Qed.


(** The window the title is cut from: the first 80 code units, trimmed. *)
Lemma generateTitle_window prompt :
  trim (slice prompt 0 80) = trim (take 80 prompt).
Proof. by rewrite slice_0. Qed.

Lemma generateTitle_short prompt :
  (length prompt ≤ 80)%nat → generateTitle prompt = trim prompt.
Proof.
  intros Hlen. unfold generateTitle. rewrite generateTitle_window.
  destruct (Z.ltb_spec 80 (Z.of_nat (length prompt))) as [?|_]; [lia|].
  by rewrite take_ge.
Qed.

Lemma generateTitle_word_boundary prompt (i : nat) :
  let w := trim (take 80 prompt) in
  (80 < length prompt)%nat → (40 < i)%nat → w !! i = Some SPACE →
  (∀ j : nat, (i < j)%nat → w !! j ≠ Some SPACE) →
  generateTitle prompt = take i w ++ ELLIPSIS.
Proof.
  intros w Hlen Hi Hsp Hlast. unfold generateTitle.
  rewrite generateTitle_window. fold w.
  destruct (Z.ltb_spec 80 (Z.of_nat (length prompt))) as [_|?]; [|lia].
  rewrite (lastIndexOf_last SPACE w i Hsp Hlast).
  destruct (Z.ltb_spec 40 (Z.of_nat i)) as [_|?]; [|lia].
  rewrite slice_0 by lia. by rewrite Nat2Z.id.
Qed.

Lemma generateTitle_raw_cut prompt :
  let w := trim (take 80 prompt) in
  (80 < length prompt)%nat →
  (∀ j : nat, (40 < j)%nat → w !! j ≠ Some SPACE) →
  generateTitle prompt = w ++ ELLIPSIS.
Proof.
  intros w Hlen Hno. unfold generateTitle.
  rewrite generateTitle_window. fold w.
  destruct (Z.ltb_spec 80 (Z.of_nat (length prompt))) as [_|?]; [|lia].
  pose proof (lastIndexOf_bound SPACE w 40 Hno).
  destruct (Z.ltb_spec 40 (lastIndexOf SPACE w)) as [?|_]; [lia|done].
Qed.

(** A window that neither starts nor ends with white space is its own trim. *)
Lemma window_trim_id prompt :
  (80 ≤ length prompt)%nat →
  (∀ c, prompt !! 0%nat = Some c → isWhiteSpace c = false) →
  (∀ c, prompt !! 79%nat = Some c → isWhiteSpace c = false) →
  trim (take 80 prompt) = take 80 prompt.
Proof.
  intros Hlen H0 H79. apply trim_id.
  - intros c. rewrite head_lookup, lookup_take_lt by lia. apply H0.
  - intros c. rewrite last_lookup, length_take_le by lia.
    rewrite lookup_take_lt by lia. apply H79.
Qed.

(** C5 (as amended).  Let [w] be the first 80 code units of the prompt with
    leading and trailing white space removed.  A prompt of at most 80 code
    units yields its trim.  A longer prompt yields [w] cut before its last
    space followed by the ellipsis when that space has a zero-based index
    greater than 40 in [w], and [w] followed by the ellipsis otherwise.  In
    particular, a 50-unit prompt that is its own trim is returned unchanged;
    a 100-unit prompt whose only white space among the first 80 units is a
    space as 45th character yields its first 44 units and the ellipsis; a
    100-unit prompt without white space among its first 80 units yields
    these 80 units and the ellipsis. *)
Theorem generateTitle_cases prompt :
  let w := trim (take 80 prompt) in
  ((length prompt ≤ 80)%nat → generateTitle prompt = trim prompt) ∧
  ((80 < length prompt)%nat →
     (∀ i : nat, (40 < i)%nat → w !! i = Some SPACE →
        (∀ j : nat, (i < j)%nat → w !! j ≠ Some SPACE) →
        generateTitle prompt = take i w ++ ELLIPSIS) ∧
     ((∀ j : nat, (40 < j)%nat → w !! j ≠ Some SPACE) →
        generateTitle prompt = w ++ ELLIPSIS)) ∧
  (length prompt = 50%nat → trim prompt = prompt →
     generateTitle prompt = prompt) ∧
  (length prompt = 100%nat → prompt !! 44%nat = Some SPACE →
     (∀ (j : nat) c, (j < 80)%nat → j ≠ 44%nat → prompt !! j = Some c →
        isWhiteSpace c = false) →
     generateTitle prompt = take 44 prompt ++ ELLIPSIS) ∧
  (length prompt = 100%nat →
     (∀ (j : nat) c, (j < 80)%nat → prompt !! j = Some c →
        isWhiteSpace c = false) →
     generateTitle prompt = take 80 prompt ++ ELLIPSIS).
Proof.
  intros w. split; [apply generateTitle_short|].
  split.
  { intros Hlen. split.
    - intros i. by apply generateTitle_word_boundary.
    - by apply generateTitle_raw_cut. }
  split.
  { intros Hlen Htrim. rewrite generateTitle_short by lia. done. }
  split.
  - intros Hlen H44 Hws.
    assert (Hw : w = take 80 prompt).
    { apply window_trim_id; [lia| |]; intros c Hc.
      - apply (Hws 0%nat c); [lia|lia|exact Hc].
      - apply (Hws 79%nat c); [lia|lia|exact Hc]. }
    rewrite (generateTitle_word_boundary prompt 44); fold w.
    + rewrite Hw, take_take. done.
    + lia.
    + lia.
    + rewrite Hw, lookup_take_lt by lia. done.
    + intros j Hj. rewrite Hw. destruct (decide (j < 80)%nat) as [Hlt|Hge].
      * rewrite lookup_take_lt by lia. intros Hsp.
        by specialize (Hws j SPACE Hlt ltac:(lia) Hsp).
      * rewrite lookup_take_ge by lia. done.
  - intros Hlen Hws.
    assert (Hw : w = take 80 prompt).
    { apply window_trim_id; [lia| |]; intros c Hc.
      - apply (Hws 0%nat c); [lia|exact Hc].
      - apply (Hws 79%nat c); [lia|exact Hc]. }
    rewrite (generateTitle_raw_cut prompt); fold w.
    + by rewrite Hw.
    + lia.
    + intros j Hj. rewrite Hw. destruct (decide (j < 80)%nat) as [Hlt|Hge].
      * rewrite lookup_take_lt by lia. intros Hsp.
        by specialize (Hws j SPACE Hlt Hsp).
      * rewrite lookup_take_ge by lia. done.
Qed.

(** A property of every indexed unit of a concrete string, by evaluation. *)
Lemma lookup_forallb (P : nat → N → bool) s :
  forallb (λ jc, P jc.1 jc.2) (imap pair s) = true →
  ∀ (j : nat) c, s !! j = Some c → P j c = true.
Proof.
  intros H j c Hj. apply Is_true_true_2, forallb_True in H.
  apply Is_true_true_1.
  apply (Forall_lookup_1 _ _ j (j, c) H).
  by rewrite list_lookup_imap, Hj.
Qed.

(** C5, witness: the theorem at the prompt "fix bug" and at 100-unit
    prompts with a space as 45th character and with no space at all. *)
Lemma generateTitle_cases_witness :
  generateTitle (js "fix bug") = js "fix bug" ∧
  generateTitle prompt_space45 = replicate 44 97%N ++ ELLIPSIS ∧
  generateTitle prompt_nospace = replicate 80 97%N ++ ELLIPSIS.
Proof.
  split; [|split].
  - refine (proj1 (generateTitle_cases (js "fix bug")) _).
    vm_compute. lia.
  - refine (proj1 (proj2 (proj2 (proj2 (generateTitle_cases prompt_space45)))) _ _ _).
    + reflexivity.
    + reflexivity.
    + intros j c _ Hne Hc.
      pose proof (lookup_forallb
        (λ j c, (j =? 44)%nat || negb (isWhiteSpace c)) prompt_space45
        eq_refl j c Hc) as H.
      apply orb_true_iff in H as [H|H].
      * by apply Nat.eqb_eq in H.
      * by apply negb_true_iff in H.
  - refine (proj2 (proj2 (proj2 (proj2 (generateTitle_cases prompt_nospace)))) _ _).
    + reflexivity.
    + intros j c _ Hc.
      pose proof (lookup_forallb (λ _ c, negb (isWhiteSpace c)) prompt_nospace
        eq_refl j c Hc) as H.
      by apply negb_true_iff in H.
Defined.

(** C5, counterexample to the claim as stated.  [prompt_space45] has 100
    units and a space as its 45th character, yet its title is not the first
    45 units followed by the ellipsis: the cut falls before the space.
    [prompt_space61] has 100 units and no space before its 40th character,
    yet its title is not the first 80 units followed by the ellipsis: it is
    cut at the space that is its 61st character. *)
Lemma generateTitle_counterexample :
  (length prompt_space45 = 100%nat ∧ prompt_space45 !! 44%nat = Some SPACE ∧
   generateTitle prompt_space45 = take 44 prompt_space45 ++ ELLIPSIS ∧
   generateTitle prompt_space45 ≠ take 45 prompt_space45 ++ ELLIPSIS) ∧
  (length prompt_space61 = 100%nat ∧ (SPACE ∉ take 40 prompt_space61) ∧
   generateTitle prompt_space61 = take 60 prompt_space61 ++ ELLIPSIS ∧
   generateTitle prompt_space61 ≠ take 80 prompt_space61 ++ ELLIPSIS).
Proof.
  repeat split; try reflexivity.
  - by vm_compute.
  - apply (bool_decide_unpack _). by vm_compute.
  - by vm_compute.
Qed.

End Title.

(* ===================================================================== *)
(** ** Cost calculation *)
(* ===================================================================== *)

Section Cost.

Implicit Types (t : list (string * Pricing)) (k model : string) (p : Pricing).

Lemma own_property_find t k :
  own_property t k = snd <$> find (λ '(k', _), String.eqb k' k) t.
Proof.
  induction t as [|[k' p] t IH]; simpl; [done|].
  by destruct (String.eqb k' k).
Qed.

Lemma find_keys (f : string → bool) t :
  find f (Object_keys t) = fst <$> find (λ '(k, _), f k) t.
Proof.
  induction t as [|[k p] t IH]; simpl; [done|].
  by destruct (f k).
Qed.

Lemma find_elem_of {A} (f : A → bool) (l : list A) x :
  find f l = Some x → x ∈ l.
Proof.
  induction l as [|y l IH]; simpl; [done|].
  destruct (f y); intros H.
  - injection H as ->. apply list_elem_of_here.
  - apply list_elem_of_further. by apply IH.
Qed.

(** With distinct keys, the row a search returns is the own property of
    its key. *)
Lemma find_own (f : string → bool) t k p :
  NoDup (Object_keys t) →
  find (λ '(k, _), f k) t = Some (k, p) → own_property t k = Some p.
Proof.
  induction t as [|[k' p'] t IH]; simpl; [done|].
  intros Hnd. apply NoDup_cons in Hnd as [Hnotin Hnd].
  destruct (f k').
  - intros [= -> ->]. by rewrite String.eqb_refl.
  - intros Hfind. destruct (String.eqb_spec k' k) as [->|_]; [|by apply IH].
    destruct Hnotin. apply find_elem_of in Hfind.
    unfold Object_keys. apply list_elem_of_fmap. by exists (k, p).
Qed.

Lemma MODEL_PRICING_keys_NoDup : NoDup (Object_keys MODEL_PRICING).
Proof. apply (bool_decide_unpack _). by vm_compute. Qed.

Lemma MODEL_PRICING_keys_truthy k p :
  (k, p) ∈ MODEL_PRICING → truthy_string k = true.
Proof.
  unfold MODEL_PRICING. rewrite !elem_of_cons, elem_of_nil.
  intros H. repeat (destruct H as [[= -> _]|H]; [done|]). done.
Qed.

Lemma cost_at_Own p stats :
  cost_at (Own p) stats =
  ((inputTokens stats * pricing_input p
    + cacheCreationTokens stats * pricing_cacheWrite p
    + cacheReadTokens stats * pricing_cacheRead p
    + outputTokens stats * pricing_output p) / 1000000)%float.
Proof. reflexivity. Qed.

Lemma MODEL_PRICING_get_own model :
  model ∉ OBJECT_PROTOTYPE_KEYS →
  MODEL_PRICING_get model =
  Own <$> (snd <$> find (λ '(k', _), String.eqb k' model) MODEL_PRICING).
Proof.
  intros Hproto. unfold MODEL_PRICING_get. rewrite own_property_find.
  destruct (find _ MODEL_PRICING) as [[k p]|]; simpl; [done|].
  by rewrite bool_decide_eq_false_2.
Qed.

(** On a model name that is neither empty nor inherited by every object,
    the code computes what the specification words. *)
Lemma calculateCost_refines model stats :
  model ≠ EmptyString → model ∉ OBJECT_PROTOTYPE_KEYS →
  calculateCost (Some model) stats = spec_cost (Some model) stats.
Proof.
  intros Hne Hproto. unfold calculateCost, spec_cost, spec_rate_row.
  replace (truthy_string model) with true by (by destruct model).
  simpl negb. cbv iota zeta. rewrite !MODEL_PRICING_get_own by done.
  destruct (find (λ '(k', _), String.eqb k' model) MODEL_PRICING)
    as [[k p]|]; simpl fmap; cbv iota beta.
  { apply cost_at_Own. }
  rewrite find_keys.
  destruct (find (λ '(k, _), includes model k || includes k model) MODEL_PRICING)
    as [[k p]|] eqn:Hfind; simpl fmap; cbv iota beta; [|done].
  rewrite (MODEL_PRICING_keys_truthy k p) by (by eapply find_elem_of).
  unfold MODEL_PRICING_get.
  rewrite (find_own _ _ _ _ MODEL_PRICING_keys_NoDup Hfind).
  apply cost_at_Own.
Qed.

(** C6 (as amended).  Without a model, or with the empty model name, the
    cost is exactly 0.  For every model name that is not empty and is not
    a property name every object inherits, and for all token counts, the
    cost is the sum over the four token classes of tokens times per-million
    rate, divided by 1,000,000, at the rate row found by exact match and
    otherwise by the first either-direction substring match in table order,
    and exactly 0 when no row is found.  In particular the model
    claude-sonnet-4-20250514 with one million input and one million output
    tokens and no cache tokens costs exactly 18. *)
Theorem calculateCost_cases model stats :
  calculateCost None stats = 0%float ∧
  calculateCost (Some EmptyString) stats = 0%float ∧
  (model ≠ EmptyString → model ∉ OBJECT_PROTOTYPE_KEYS →
     calculateCost (Some model) stats = spec_cost (Some model) stats) ∧
  (model ≠ EmptyString → model ∉ OBJECT_PROTOTYPE_KEYS →
     spec_rate_row model = None → calculateCost (Some model) stats = 0%float) ∧
  calculateCost (Some "claude-sonnet-4-20250514"%string) stats_1M = 18%float.
Proof.
  split; [done|]. split; [done|]. split; [apply calculateCost_refines|].
  split; [|by vm_compute].
  intros Hne Hproto Hrow. rewrite calculateCost_refines by done.
  unfold spec_cost. by rewrite Hrow.
Qed.

(** C6, witness: a dated model name matched by substring, and a model name
    matching no row. *)
Lemma calculateCost_cases_witness :
  calculateCost (Some "claude-sonnet-4"%string) stats_1M = 18%float ∧
  calculateCost (Some "gpt-4"%string) stats_1M = 0%float.
Proof.
  split.
  - refine (proj1 (proj2 (proj2
      (calculateCost_cases "claude-sonnet-4" stats_1M))) _ _).
    + discriminate.
    + apply (bool_decide_unpack _). by vm_compute.
  - refine (proj1 (proj2 (proj2 (proj2
      (calculateCost_cases "gpt-4" stats_1M)))) _ _ _).
    + discriminate.
    + apply (bool_decide_unpack _). by vm_compute.
    + reflexivity.
Defined.

(** C6, counterexample to the claim as stated.  The empty string is a
    model identifier and a substring of every key, so the rule of the claim
    selects the first row and prices [stats_1M] at 18; the code returns 0,
    because it treats the empty name like a missing one. *)
Lemma calculateCost_counterexample :
  calculateCost (Some EmptyString) stats_1M = 0%float ∧
  spec_cost (Some EmptyString) stats_1M = 18%float ∧
  calculateCost (Some EmptyString) stats_1M ≠ spec_cost (Some EmptyString) stats_1M.
Proof.
  split; [reflexivity|]. split; [by vm_compute|].
  intros H. apply (f_equal (λ x, PrimFloat.eqb x 0)) in H.
  vm_compute in H. discriminate.
Qed.

(** A model name every object inherits is found by the exact lookup, as a
    member without rates, and the cost is not a number. *)
Example calculateCost_inherited :
  calculateCost (Some "toString"%string) stats_1M = PrimFloat.nan.
Proof. by vm_compute. Qed.

End Cost.

(* ===================================================================== *)
(** ** The loop of the Stop case *)
(* ===================================================================== *)

Section StopLoop.

Context (env : Env) (sid : string).

Implicit Types (msgs : list AssistantMessage) (s : gset string)
  (state : SessionEntry) (w : World).

Local Abbreviation request msg := (syncMessage (assistantMessage env sid msg)).

Lemma countMessages_S n state :
  countMessages n (set_messageCount (or0 (messageCount state) + 1) state)
  = countMessages (S n) state.
Proof.
  destruct n as [|n]; unfold countMessages, set_messageCount; simpl.
  - done.
  - f_equal. f_equal. lia.
Qed.

(** When the collector accepts every message the loop forwards, the loop
    returns, having issued one request per new message. *)
Lemma syncNewMessages_ok msgs s state w :
  acceptsAll env (requests w) ((λ msg, request msg) <$> newMessages msgs s) = true →
  syncNewMessages env sid msgs s state w =
  (inr (syncedAfter msgs s, countMessages (length (newMessages msgs s)) state),
   {| disk := disk w;
      requests := requests w ++ ((λ msg, request msg) <$> newMessages msgs s) |}).
Proof.
  revert s state w. induction msgs as [|msg msgs IH]; intros s state w; simpl.
  - intros _. rewrite app_nil_r. by destruct w.
  - destruct (truthy_string (uuid msg) && bool_decide (uuid msg ∈ s)).
    + apply IH.
    + simpl. intros [Hacc Hrest]%andb_true_iff.
      unfold mbind, M_bind, await. rewrite Hacc.
      rewrite IH by done. simpl.
      rewrite countMessages_S, <- app_assoc. done.
Qed.

(** When the collector refuses one of them, the loop throws at the first
    refusal, with the state file untouched. *)
Lemma syncNewMessages_fail msgs s state w :
  acceptsAll env (requests w) ((λ msg, request msg) <$> newMessages msgs s) = false →
  ∃ rs r,
    syncNewMessages env sid msgs s state w =
      (inl (SyncFailed r),
       {| disk := disk w; requests := requests w ++ rs ++ [r] |}) ∧
    (rs ++ [r]) `prefix_of` ((λ msg, request msg) <$> newMessages msgs s) ∧
    acceptsAll env (requests w) rs = true ∧
    collector env (requests w ++ rs) r = false.
Proof.
  revert s state w. induction msgs as [|msg msgs IH]; intros s state w; simpl.
  - done.
  - destruct (truthy_string (uuid msg) && bool_decide (uuid msg ∈ s)).
    + apply IH.
    + simpl. unfold mbind, M_bind, await.
      destruct (collector env (requests w) (request msg)) eqn:Hacc; simpl.
      * intros Hrest.
        destruct (IH _ (set_messageCount (or0 (messageCount state) + 1) state)
                    {| disk := disk w; requests := requests w ++ [request msg] |}
                    Hrest) as (rs & r & -> & Hpre & Hok & Hno).
        simpl in *. exists (request msg :: rs), r.
        rewrite <- !app_assoc in *. simpl. split; [done|].
        split; [by apply prefix_cons|]. split; [|done].
        by rewrite Hacc.
      * intros _. exists [], (request msg). simpl. rewrite app_nil_r.
        split; [done|]. split; [|done].
        apply prefix_cons, prefix_nil.
Qed.

End StopLoop.

(* ===================================================================== *)
(** ** One Stop invocation *)
(* ===================================================================== *)

Section StopRun.

Context (env : Env) (data : HookStopData) (d : SessionState).

Lemma hook_enabled event w :
  enabled env →
  ∃ cfg, config env = Some cfg ∧
    hook env event w =
    match dispatch env cfg event w with
    | (inr _, w') => ({| exit_code := 0; logged := None |}, w')
    | (inl error, w') => ({| exit_code := 0; logged := Some error |}, w')
    end.
Proof.
  intros (cfg & Hcfg & Hauto). exists cfg. split; [done|].
  unfold hook. rewrite Hcfg. by rewrite bool_decide_eq_false_2.
Qed.

(** When the collector accepts the messages, the invocation saves the
    accumulator [stopState] and issues the messages, then the session
    update. *)
Lemma stopUsage_synced transcript state :
  syncedMessageUuids (stopUsage transcript state) = syncedMessageUuids state.
Proof. unfold stopUsage. by destruct (_ || _). Qed.

Lemma Stop_run_ok :
  enabled env →
  acceptsAll env [] (stopMessages env data d) = true →
  invoke env (Stop data) d =
  ({| exit_code := 0;
      logged := if collector env (stopMessages env data d) (stopSession env data d)
                then None else Some (SyncFailed (stopSession env data d)) |},
   {| disk := <[stop_session_id data := stopState env data d]> d;
      requests := stopMessages env data d ++ [stopSession env data d] |}).
Proof.
  intros Hen Hacc. unfold invoke.
  destruct (hook_enabled (Stop data) {| disk := d; requests := [] |} Hen)
    as (cfg & _ & ->).
  unfold dispatch, loadSessionState, hookStop, mbind, M_bind at 1. simpl disk.
  unfold stopMessages, stopSession, stopState, stopForwarded, stopTranscript in *.
  fold (accumulator (stop_session_id data) d).
  destruct (truthy_opt_string (transcript_path data)).
  - set (tr := parseTranscriptFile _ _ _) in *.
    fold (stopUsage tr (accumulator (stop_session_id data) d)).
    rewrite stopUsage_synced. fold (synced (stop_session_id data) d).
    unfold M_bind. rewrite syncNewMessages_ok by exact Hacc.
    unfold mret, M_ret, saveSessionState, await. simpl.
    by destruct (collector _ _ _).
  - unfold M_bind, mret, M_ret, saveSessionState, await. simpl.
    by destruct (collector _ _ _).
Qed.

(** When the collector refuses a message, the invocation logs the error
    and exits, leaving the state file as it was. *)
Lemma Stop_run_fail :
  enabled env →
  acceptsAll env [] (stopMessages env data d) = false →
  ∃ rs r,
    invoke env (Stop data) d =
      ({| exit_code := 0; logged := Some (SyncFailed r) |},
       {| disk := d; requests := rs ++ [r] |}) ∧
    (rs ++ [r]) `prefix_of` stopMessages env data d ∧
    acceptsAll env [] rs = true ∧
    collector env rs r = false.
Proof.
  intros Hen Hacc. unfold invoke.
  destruct (hook_enabled (Stop data) {| disk := d; requests := [] |} Hen)
    as (cfg & _ & ->).
  unfold dispatch, loadSessionState, hookStop, mbind, M_bind at 1. simpl disk.
  unfold stopMessages, stopForwarded, stopTranscript in *.
  fold (accumulator (stop_session_id data) d).
  destruct (truthy_opt_string (transcript_path data)); [|done].
  set (tr := parseTranscriptFile _ _ _) in *.
  fold (stopUsage tr (accumulator (stop_session_id data) d)).
  rewrite stopUsage_synced. fold (synced (stop_session_id data) d).
  unfold M_bind.
  destruct (syncNewMessages_fail env (stop_session_id data)
              (assistantMessages tr) (synced (stop_session_id data) d)
              (stopUsage tr (accumulator (stop_session_id data) d))
              {| disk := d; requests := [] |} Hacc)
    as (rs & r & -> & Hpre & Hok & Hno).
  exists rs, r. done.
Qed.

End StopRun.

(* ===================================================================== *)
(** ** Deduplication by entry id *)
(* ===================================================================== *)

Section Dedup.

Implicit Types (msgs : list AssistantMessage) (s : gset string) (u : string).

Lemma truthy_string_true u : truthy_string u = true ↔ u ≠ EmptyString.
Proof. by destruct u. Qed.

Lemma truthy_string_false u : truthy_string u = false ↔ u = EmptyString.
Proof. by destruct u. Qed.

Lemma entryIds_cons msg msgs :
  entryIds (msg :: msgs) =
  if truthy_string (uuid msg) then uuid msg :: entryIds msgs else entryIds msgs.
Proof.
  unfold entryIds. rewrite fmap_cons, filter_cons.
  destruct (truthy_string (uuid msg)) eqn:E.
  - apply truthy_string_true in E. by rewrite decide_True.
  - apply truthy_string_false in E. by rewrite decide_False by (by intros []).
Qed.

Lemma entryIds_app msgs1 msgs2 :
  entryIds (msgs1 ++ msgs2) = entryIds msgs1 ++ entryIds msgs2.
Proof. unfold entryIds. by rewrite fmap_app, filter_app. Qed.

Lemma elem_of_entryIds u msgs :
  u ∈ entryIds msgs ↔ u ≠ EmptyString ∧ ∃ msg, msg ∈ msgs ∧ uuid msg = u.
Proof.
  unfold entryIds. rewrite list_elem_of_filter, list_elem_of_fmap. naive_solver.
Qed.

(** The synced set grows by the entry ids of the transcript. *)
Lemma syncedAfter_eq msgs s :
  syncedAfter msgs s = s ∪ list_to_set (entryIds msgs).
Proof.
  revert s. induction msgs as [|msg msgs IH]; intros s; simpl.
  - set_solver.
  - rewrite entryIds_cons.
    destruct (truthy_string (uuid msg)); simpl; [|by rewrite IH].
    destruct (bool_decide_reflect (uuid msg ∈ s)); simpl; rewrite IH; set_solver.
Qed.

(** Forwarded messages are messages of the transcript, in its order. *)
Lemma newMessages_sublist msgs s : newMessages msgs s `sublist_of` msgs.
Proof.
  revert s. induction msgs as [|msg msgs IH]; intros s; simpl; [done|].
  destruct (_ && _); [by apply sublist_cons | by apply sublist_skip].
Qed.


(** The entry ids forwarded are new and pairwise distinct. *)
Lemma newMessages_fresh msgs s u :
  u ∈ entryIds (newMessages msgs s) → u ∉ s.
Proof.
  revert s. induction msgs as [|msg msgs IH]; intros s; simpl.
  - by intros ?%elem_of_nil.
  - destruct (truthy_string (uuid msg)) eqn:E; simpl.
    + destruct (bool_decide_reflect (uuid msg ∈ s)) as [Hin|Hnotin]; simpl.
      * apply IH.
      * rewrite entryIds_cons, E. intros [->|Hu%IH]%elem_of_cons; set_solver.
    + rewrite entryIds_cons, E. apply IH.
Qed.

Lemma newMessages_NoDup msgs s : NoDup (entryIds (newMessages msgs s)).
Proof.
  revert s. induction msgs as [|msg msgs IH]; intros s; simpl.
  - constructor.
  - destruct (truthy_string (uuid msg)) eqn:E; simpl.
    + destruct (bool_decide (uuid msg ∈ s)); simpl; [apply IH|].
      rewrite entryIds_cons, E. constructor; [|apply IH].
      intros Hin%newMessages_fresh. set_solver.
    + rewrite entryIds_cons, E. apply IH.
Qed.

(** Once the entry ids of a transcript are synced, only its messages
    without entry id are forwarded. *)
Lemma newMessages_synced msgs s :
  (∀ u, u ∈ entryIds msgs → u ∈ s) → entryIds (newMessages msgs s) = [].
Proof.
  revert s. induction msgs as [|msg msgs IH]; intros s Hs; simpl; [done|].
  rewrite entryIds_cons in Hs.
  destruct (truthy_string (uuid msg)) eqn:E; simpl.
  - rewrite bool_decide_eq_true_2 by (apply Hs; left). simpl.
    apply IH. intros u Hu. apply Hs. by right.
  - rewrite entryIds_cons, E. by apply IH.
Qed.

Lemma entryIds_nil_uuidless msgs :
  entryIds msgs = [] → (∀ msg, msg ∈ msgs → uuid msg ≠ EmptyString) → msgs = [].
Proof.
  destruct msgs as [|msg msgs]; [done|]. intros Hids Hall.
  rewrite entryIds_cons in Hids.
  assert (truthy_string (uuid msg) = true) as E.
  { apply truthy_string_true, Hall. left. }
  by rewrite E in Hids.
Qed.

End Dedup.

(* ===================================================================== *)
(** ** The loop of the transcript parser *)
(* ===================================================================== *)

Lemma filter_none {A} (P : A → Prop) `{∀ x, Decision (P x)} (l : list A) :
  (∀ x, x ∈ l → ¬ P x) → filter P l = [].
Proof.
  induction l as [|x l IH]; intros Hall; [done|].
  rewrite filter_cons, decide_False by (apply Hall; left).
  apply IH. intros y Hy. apply Hall. by right.
Qed.

Lemma filter_all {A} (P : A → Prop) `{∀ x, Decision (P x)} (l : list A) :
  (∀ x, x ∈ l → P x) → filter P l = l.
Proof.
  induction l as [|x l IH]; intros Hall; [done|].
  rewrite filter_cons, decide_True by (apply Hall; left).
  f_equal. apply IH. intros y Hy. apply Hall. by right.
Qed.

Section ParserLoop.

Context (now : string).

Implicit Types (l : line) (lines : list line) (seen : gset string)
  (result : ParsedTranscript).

Lemma parse_cons l lines (acc : ParsedTranscript * gset string) :
  foldl (parseLine now) acc (l :: lines)
  = foldl (parseLine now) (parseLine now acc l) lines.
Proof. reflexivity. Qed.

Lemma parseTranscriptFile_oneFile lines (path : string) :
  parseTranscriptFile (oneFile lines) now path
  = (foldl (parseLine now) (emptyTranscript, ∅) lines).1.
Proof. reflexivity. Qed.


(** One iteration, in terms of what the line contributes. *)
Lemma parseLine_step result seen l :
  parseLine now (result, seen) l =
  match assistantLine l with
  | None => (result, seen)
  | Some _ =>
    if truthy_string (lineUuid l) && bool_decide (lineUuid l ∈ seen)
    then (result, seen)
    else ({| assistantMessages := assistantMessages result ++ lineMessages now l;
             tokenUsage := lineAddUsage (tokenUsage result) l |},
          if truthy_string (lineUuid l) then {[lineUuid l]} ∪ seen else seen)
  end.
Proof.
  unfold lineMessages, lineAddUsage, lineUuid, assistantLine.
  destruct l as [| |entry]; simpl; try done.
  destruct (entry_type entry) as [ty|]; [|done].
  destruct (message entry) as [msg|]; [|done].
  by destruct (String.eqb ty "assistant").
Qed.

Lemma parseLine_skip result seen l :
  assistantLine l = None → parseLine now (result, seen) l = (result, seen).
Proof. intros H. by rewrite parseLine_step, H. Qed.

(** One iteration on a line that is not a duplicate. *)
Lemma parseLine_fresh result seen l :
  lineUuid l = EmptyString ∨ lineUuid l ∉ seen →
  parseLine now (result, seen) l =
  ({| assistantMessages := assistantMessages result ++ lineMessages now l;
      tokenUsage := lineAddUsage (tokenUsage result) l |},
   if truthy_string (lineUuid l) then {[lineUuid l]} ∪ seen else seen).
Proof.
  intros Hfresh. rewrite parseLine_step.
  destruct (assistantLine l) as [[entry msg]|] eqn:Hl.
  - assert (truthy_string (lineUuid l) && bool_decide (lineUuid l ∈ seen) = false)
      as ->; [|done].
    destruct Hfresh as [->|Hnotin]; [done|].
    rewrite (bool_decide_eq_false_2 _ Hnotin). apply andb_false_r.
  - unfold lineMessages, lineAddUsage, lineUuid. rewrite Hl. simpl.
    rewrite app_nil_r. by destruct result.
Qed.

Lemma assistantUuids_nil : assistantUuids [] = ∅.
Proof. reflexivity. Qed.

Lemma assistantUuids_cons l lines :
  assistantUuids (l :: lines) =
  (if truthy_string (lineUuid l) then {[lineUuid l]} else ∅) ∪ assistantUuids lines.
Proof.
  unfold assistantUuids. rewrite fmap_cons, filter_cons.
  destruct (truthy_string (lineUuid l)) eqn:E.
  - apply truthy_string_true in E. rewrite decide_True by done. set_solver.
  - apply truthy_string_false in E. rewrite decide_False by (by intros []).
    set_solver.
Qed.

Lemma assistantUuids_app lines1 lines2 :
  assistantUuids (lines1 ++ lines2) = assistantUuids lines1 ∪ assistantUuids lines2.
Proof.
  unfold assistantUuids. rewrite fmap_app, filter_app, list_to_set_app_L. done.
Qed.

(** The messages of an entry carry its uuid and a non-empty text. *)
Lemma lineMessages_spec (entry : TranscriptEntry) (msg : TranscriptMessage)
    (u : string) (m : AssistantMessage) :
  m ∈ textMessages now entry msg u → uuid m = u ∧ text m ≠ [].
Proof.
  unfold textMessages. destruct (content msg) as [parts|]; [|by intros ?%elem_of_nil].
  intros Hm. apply list_elem_of_omap in Hm as (part & _ & Hpart).
  destruct (String.eqb (part_type part) "text"); [|done].
  destruct (part_text part) as [t|]; [|done].
  destruct t as [|c t]; [done|]. simpl in Hpart. by injection Hpart as <-.
Qed.



Lemma lineMessages_uuid l (m : AssistantMessage) :
  m ∈ lineMessages now l → uuid m = lineUuid l ∧ text m ≠ [].
Proof.
  unfold lineMessages. destruct (assistantLine l) as [[entry msg]|].
  - apply lineMessages_spec.
  - by intros ?%elem_of_nil.
Qed.

(** The set of seen uuids after the loop. *)
Lemma parse_seen lines result seen :
  (foldl (parseLine now) (result, seen) lines).2 = seen ∪ assistantUuids lines.
Proof.
  revert result seen. induction lines as [|l lines IH]; intros result seen.
  - rewrite assistantUuids_nil. simpl. set_solver.
  - rewrite parse_cons, parseLine_step, assistantUuids_cons.
    destruct (assistantLine l) as [[entry msg]|] eqn:Hl.
    + destruct (truthy_string (lineUuid l)) eqn:E; simpl.
      * destruct (bool_decide_reflect (lineUuid l ∈ seen)); rewrite IH; set_solver.
      * rewrite IH. set_solver.
    + rewrite IH. unfold lineUuid. rewrite Hl. simpl. set_solver.
Qed.

(** The loop only appends to the messages. *)
Lemma parse_messages_prefix lines result seen :
  assistantMessages result
  `prefix_of` assistantMessages (foldl (parseLine now) (result, seen) lines).1.
Proof.
  revert result seen. induction lines as [|l lines IH]; intros result seen.
  - done.
  - rewrite parse_cons, parseLine_step.
    destruct (assistantLine l) as [[entry msg]|]; [|apply IH].
    destruct (_ && _); [apply IH|].
    etrans; [|apply IH]. simpl. by apply prefix_app_r.
Qed.

(** What the loop appends: messages that have a text, and whose uuid is
    empty or is the uuid of a processed line that was not seen before. *)
Lemma parse_messages_new lines result seen :
  ∃ new,
    assistantMessages (foldl (parseLine now) (result, seen) lines).1
      = assistantMessages result ++ new ∧
    ∀ m, m ∈ new →
      text m ≠ [] ∧
      (uuid m = EmptyString ∨ (uuid m ∈ assistantUuids lines ∧ uuid m ∉ seen)).
Proof.
  revert result seen. induction lines as [|l lines IH]; intros result seen.
  - exists []. simpl. rewrite app_nil_r. split; [done|]. by intros m ?%elem_of_nil.
  - rewrite parse_cons, assistantUuids_cons.
    destruct (decide (lineUuid l = EmptyString ∨ lineUuid l ∉ seen)) as [Hfresh|Hdup].
    + rewrite parseLine_fresh by done.
      match goal with
      | |- context [foldl _ (?r, ?s) lines] =>
          destruct (IH r s) as (new & Heq & Hnew)
      end.
      exists (lineMessages now l ++ new). simpl in Heq.
      rewrite Heq, <- app_assoc. split; [done|].
      intros m [Hm|Hm]%elem_of_app.
      * apply lineMessages_uuid in Hm as [Hu Ht]. split; [done|].
        destruct (truthy_string (lineUuid l)) eqn:E.
        -- right. rewrite Hu. apply truthy_string_true in E.
           destruct Hfresh as [?|?]; [done|]. set_solver.
        -- left. rewrite Hu. by apply truthy_string_false.
      * destruct (Hnew m Hm) as [? [?|[? Hnotin]]]; [by auto|].
        split; [done|]. right. split; [set_solver|].
        destruct (truthy_string (lineUuid l)); set_solver.
    + assert (lineUuid l ≠ EmptyString ∧ lineUuid l ∈ seen) as [Hne Hin].
      { split; [tauto|]. destruct (decide (lineUuid l ∈ seen)); tauto. }
      rewrite parseLine_step.
      destruct (assistantLine l) as [[entry msg]|].
      * rewrite (proj2 (truthy_string_true _) Hne), bool_decide_eq_true_2 by done.
        simpl. destruct (IH result seen) as (new & Heq & Hnew).
        exists new. split; [done|]. intros m Hm.
        destruct (Hnew m Hm) as [? [?|[? ?]]]; set_solver.
      * destruct (IH result seen) as (new & Heq & Hnew).
        exists new. split; [done|]. intros m Hm.
        destruct (Hnew m Hm) as [? [?|[? ?]]]; set_solver.
Qed.


End ParserLoop.

(* ===================================================================== *)
(** ** The accumulator after a Stop invocation *)
(* ===================================================================== *)

Section StopState.

Context (env : Env) (data : HookStopData) (d : SessionState).

Local Abbreviation sid := (stop_session_id data).

Lemma accumulator_insert (id : string) (state : SessionEntry) (d' : SessionState) :
  accumulator id (<[id := state]> d') = state.
Proof. unfold accumulator. by rewrite lookup_insert_eq. Qed.

Lemma accumulator_insert_ne (id id' : string) (state : SessionEntry)
    (d' : SessionState) :
  id ≠ id' → accumulator id' (<[id := state]> d') = accumulator id' d'.
Proof. intros. unfold accumulator. by rewrite lookup_insert_ne. Qed.

Lemma countMessages_count n state :
  or0 (messageCount (countMessages n state))
  = or0 (messageCount state) + Z.of_nat n.
Proof. destruct n; simpl; lia. Qed.

Lemma countMessages_synced n state :
  syncedMessageUuids (countMessages n state) = syncedMessageUuids state.
Proof. by destruct n. Qed.

Lemma countMessages_tokenUsage n state :
  state_tokenUsage (countMessages n state) = state_tokenUsage state.
Proof. by destruct n. Qed.

Lemma stopUsage_count transcript state :
  messageCount (stopUsage transcript state) = messageCount state.
Proof. unfold stopUsage. by destruct (_ || _). Qed.

(** [messageCount] grows by the number of forwarded messages. *)
Lemma stopState_count :
  or0 (messageCount (stopState env data d))
  = count sid d + Z.of_nat (length (stopForwarded env data d)).
Proof.
  unfold stopState, count, stopForwarded.
  destruct (stopTranscript env data) as [tr|]; simpl; [|lia].
  by rewrite countMessages_count, stopUsage_count.
Qed.

(** The synced set grows by the entry ids of the parsed transcript. *)
Lemma stopState_synced :
  default ∅ (syncedMessageUuids (stopState env data d))
  = synced sid d ∪
    match stopTranscript env data with
    | Some tr => list_to_set (entryIds (assistantMessages tr))
    | None => ∅
    end.
Proof.
  unfold stopState.
  destruct (stopTranscript env data) as [tr|]; simpl.
  - apply syncedAfter_eq.
  - unfold synced. set_solver.
Qed.

(** [tokenUsage] is replaced by a non-zero parsed total and kept
    otherwise. *)
Lemma stopState_tokenUsage :
  state_tokenUsage (stopState env data d) =
  match stopTranscript env data with
  | Some tr =>
      if (0 <? input (tokenUsage tr)) || (0 <? output (tokenUsage tr))
      then Some (tokenUsage tr)
      else state_tokenUsage (accumulator sid d)
  | None => state_tokenUsage (accumulator sid d)
  end.
Proof.
  unfold stopState.
  destruct (stopTranscript env data) as [tr|]; simpl; [|done].
  rewrite countMessages_tokenUsage. unfold stopUsage.
  by destruct (_ || _).
Qed.

(** Under a collector that accepts messages, every message is accepted. *)
Lemma acceptsMessages_all history (msgs : list AssistantMessage) :
  acceptsMessages env →
  acceptsAll env history
    ((λ msg, syncMessage (assistantMessage env sid msg)) <$> msgs) = true.
Proof.
  intros Hacc. revert history. induction msgs as [|msg msgs IH]; intros h; simpl.
  - done.
  - by rewrite Hacc, IH.
Qed.

(** A Stop invocation under a collector that accepts messages. *)
Lemma Stop_run_accepted :
  enabled env → acceptsMessages env →
  disk (invoke env (Stop data) d).2 = <[sid := stopState env data d]> d ∧
  requests (invoke env (Stop data) d).2
    = stopMessages env data d ++ [stopSession env data d].
Proof.
  intros Hen Hacc.
  rewrite Stop_run_ok; [done|done|]. by apply acceptsMessages_all.
Qed.

(** Whatever the environment, a Stop invocation leaves the state file as
    it was or saves [stopState]. *)
Lemma Stop_disk :
  disk (invoke env (Stop data) d).2 = d ∨
  disk (invoke env (Stop data) d).2 = <[sid := stopState env data d]> d.
Proof.
  destruct (config env) as [cfg|] eqn:Hcfg.
  - destruct (decide (autoSync cfg = Some false)) as [Hoff|Hon].
    + left. unfold invoke, hook. by rewrite Hcfg, bool_decide_eq_true_2.
    + assert (enabled env) as Hen by (by exists cfg).
      destruct (acceptsAll env [] (stopMessages env data d)) eqn:Hacc.
      * right. by rewrite Stop_run_ok.
      * left. destruct (Stop_run_fail env data d Hen Hacc) as (rs & r & -> & _).
        done.
  - left. unfold invoke, hook. by rewrite Hcfg.
Qed.

End StopState.

(* ===================================================================== *)
(** ** Properties of the Stop case *)
(* ===================================================================== *)

Section StopClaims.

Context (env : Env) (data : HookStopData) (d : SessionState).

Local Abbreviation sid := (stop_session_id data).

Lemma acceptsAll_app history (rs1 rs2 : list Request) :
  acceptsAll env history (rs1 ++ rs2)
  = acceptsAll env history rs1 && acceptsAll env (history ++ rs1) rs2.
Proof.
  revert history. induction rs1 as [|r rs1 IH]; intros h; simpl.
  - by rewrite app_nil_r.
  - rewrite IH, <- app_assoc. simpl. by rewrite andb_assoc.
Qed.

Lemma acceptsAll_prefix history (rs rs' : list Request) :
  rs' `prefix_of` rs → acceptsAll env history rs = true →
  acceptsAll env history rs' = true.
Proof.
  intros [k ->]. rewrite acceptsAll_app. by intros [? _]%andb_true_iff.
Qed.

Lemma prefix_snoc_inv {A} (l1 l2 : list A) (x y : A) :
  (l1 ++ [x]) `prefix_of` (l2 ++ [y]) → l1 `prefix_of` l2.
Proof.
  intros [k Hk]. destruct k as [|z k _] using rev_ind.
  - rewrite app_nil_r in Hk. apply app_inj_tail in Hk as [-> _]. done.
  - rewrite !app_assoc in Hk. apply app_inj_tail in Hk as [-> _].
    rewrite <- app_assoc. by apply prefix_app_r.
Qed.

(** The Session update of a Stop invocation is [stopSession], issued after
    every message has been accepted. *)
Lemma Stop_session_last (s : SessionData) :
  enabled env →
  syncSession s ∈ requests (invoke env (Stop data) d).2 →
  syncSession s = stopSession env data d ∧
  acceptsAll env [] (stopMessages env data d) = true ∧
  requests (invoke env (Stop data) d).2 = stopMessages env data d ++ [syncSession s].
Proof.
  intros Hen Hin.
  destruct (acceptsAll env [] (stopMessages env data d)) eqn:Hacc.
  - rewrite Stop_run_ok in * by done. simpl in *.
    apply elem_of_app in Hin as [Hin|Hin%list_elem_of_singleton].
    + unfold stopMessages in Hin. apply list_elem_of_fmap in Hin as (? & ? & ?).
      done.
    + by rewrite Hin.
  - destruct (Stop_run_fail env data d Hen Hacc) as (rs & r & Hrun & Hpre & _).
    rewrite Hrun in Hin. simpl in Hin.
    assert (syncSession s ∈ stopMessages env data d) as Hin'.
    { destruct Hpre as [k ->]. apply elem_of_app. by left. }
    unfold stopMessages in Hin'. apply list_elem_of_fmap in Hin' as (? & ? & ?).
    done.
Qed.

Lemma issued_accepted history (rs : list Request) (r : Request) :
  acceptsAll env history rs = true → issued env history (rs ++ [r]) = rs ++ [r].
Proof.
  revert history. induction rs as [|r' rs IH]; intros h; simpl.
  - intros _. by destruct (collector env h r).
  - intros [-> Hrest]%andb_true_iff. by rewrite IH.
Qed.

Lemma issued_refused history (rs k : list Request) (r : Request) :
  acceptsAll env history rs = true → collector env (history ++ rs) r = false →
  issued env history (rs ++ r :: k) = rs ++ [r].
Proof.
  revert history. induction rs as [|r' rs IH]; intros h; simpl.
  - intros _. rewrite app_nil_r. by intros ->.
  - intros [-> Hrest]%andb_true_iff Hno. rewrite IH; [done|done|].
    by rewrite <- app_assoc.
Qed.


(** The requests of a Stop invocation, whatever the collector answers:
    the Message records and then the Session update, awaited one after
    the other up to the first refusal. *)
Lemma Stop_requests :
  enabled env →
  requests (invoke env (Stop data) d).2
  = issued env [] (stopMessages env data d ++ [stopSession env data d]).
Proof.
  intros Hen.
  destruct (acceptsAll env [] (stopMessages env data d)) eqn:Hacc.
  - rewrite Stop_run_ok by done. simpl. by rewrite issued_accepted.
  - destruct (Stop_run_fail env data d Hen Hacc) as (rs & r & -> & [k Hk] & Hok & Hno).
    simpl. rewrite Hk, <- !app_assoc. simpl. by rewrite issued_refused.
Qed.

(** C9.  A Stop invocation awaits its requests one after the other, each
    only once the collector has accepted the ones before: the Message
    records of the new assistant messages in transcript order, then the
    Session update.  The requests awaited are exactly these, up to the
    first one the collector refuses; at least one is awaited.  When the
    collector accepts the Message records, all of them are awaited and the
    Session update is awaited after them; when it refuses one, no Session
    update is issued.  When the Session update is issued it is the last
    request, every Message record has been accepted before it, and it
    carries the accumulator the loop over these messages produced: its
    [messageCount] counts each of them. *)
Theorem Stop_forwarding_order :
  enabled env →
  let rs := requests (invoke env (Stop data) d).2 in
  rs `prefix_of` (stopMessages env data d ++ [stopSession env data d]) ∧
  stopForwarded env data d `sublist_of`
    default [] (assistantMessages <$> stopTranscript env data) ∧
  (∀ rs' r, (rs' ++ [r]) `prefix_of` rs → acceptsAll env [] rs' = true) ∧
  (∀ s, syncSession s ∈ rs →
     rs = stopMessages env data d ++ [syncSession s] ∧
     acceptsAll env [] (stopMessages env data d) = true ∧
     s = sessionTotals sid (stopState env data d) ∧
     session_tokenUsage s = state_tokenUsage (stopState env data d) ∧
     or0 (session_messageCount s)
       = count sid d + Z.of_nat (length (stopForwarded env data d))) ∧
  rs = issued env [] (stopMessages env data d ++ [stopSession env data d]) ∧
  (0 < length rs)%nat ∧
  (acceptsAll env [] (stopMessages env data d) = true →
     rs = stopMessages env data d ++ [stopSession env data d]) ∧
  (acceptsAll env [] (stopMessages env data d) = false →
     ∀ s, syncSession s ∉ rs).
Proof.
  intros Hen rs. subst rs. split; [|split; [|split; [|split; [|split; [|split; [|split]]]]]].
  - destruct (acceptsAll env [] (stopMessages env data d)) eqn:Hacc.
    + by rewrite Stop_run_ok.
    + destruct (Stop_run_fail env data d Hen Hacc) as (rs & r & -> & Hpre & _).
      simpl. by apply prefix_app_r.
  - unfold stopForwarded. destruct (stopTranscript env data); simpl; [|done].
    apply newMessages_sublist.
  - intros rs' r.
    destruct (acceptsAll env [] (stopMessages env data d)) eqn:Hacc.
    + rewrite Stop_run_ok by done. simpl. intros Hpre%prefix_snoc_inv.
      by eapply acceptsAll_prefix.
    + destruct (Stop_run_fail env data d Hen Hacc) as (rs & r0 & -> & _ & Hok & _).
      simpl. intros Hpre%prefix_snoc_inv. by eapply acceptsAll_prefix.
  - intros s Hin.
    destruct (Stop_session_last s Hen Hin) as (Hs & Hacc & Hrs).
    assert (s = sessionTotals sid (stopState env data d)) as ->.
    { unfold stopSession in Hs. by injection Hs. }
    split; [done|]. split; [done|]. split; [done|]. split; [done|].
    simpl. apply stopState_count.
  - by apply Stop_requests.
  - rewrite Stop_requests by done.
    destruct (stopMessages env data d); simpl; lia.
  - intros Hacc. by rewrite Stop_run_ok.
  - intros Hacc s Hin.
    destruct (Stop_session_last s Hen Hin) as (_ & Hacc' & _). congruence.
Qed.

(** The parser on a path that names no readable file. *)
Lemma parseTranscriptFile_missing (files : string → fsnode) (now path : string) :
  (∀ lines, files path ≠ File lines) →
  parseTranscriptFile files now path = emptyTranscript.
Proof.
  intros Hno. unfold parseTranscriptFile.
  destruct (files path) as [| |lines]; [done|done|]. by destruct (Hno lines).
Qed.


(** The token-usage rule of the Stop case, when the invocation reaches
    its save (the collector accepts the Message records it issues).  When
    the parsed usage has a positive input or a positive output, the saved
    accumulator holds exactly the parsed total as its [tokenUsage],
    whatever it held before; otherwise, in particular for a missing or
    empty transcript, it holds what it held before.  The Session update
    carries the same value. *)
Lemma Stop_replaces_tokenUsage (path : string) :
  enabled env → acceptsAll env [] (stopMessages env data d) = true →
  transcript_path data = Some path → path ≠ EmptyString →
  let tr := parseTranscriptFile (fs env) (ISO_now env) path in
  let before := accumulator sid d in
  let after := accumulator sid (disk (invoke env (Stop data) d).2) in
  ((0 < input (tokenUsage tr) ∨ 0 < output (tokenUsage tr)) →
     state_tokenUsage after = Some (tokenUsage tr)) ∧
  (¬ (0 < input (tokenUsage tr) ∨ 0 < output (tokenUsage tr)) →
     state_tokenUsage after = state_tokenUsage before) ∧
  ((∀ lines, fs env path ≠ File lines) ∨ fs env path = File [] →
     state_tokenUsage after = state_tokenUsage before) ∧
  (∀ s, syncSession s ∈ requests (invoke env (Stop data) d).2 →
     session_tokenUsage s = state_tokenUsage after).
Proof.
  intros Hen Hacc Hpath Hne tr before after.
  assert (disk (invoke env (Stop data) d).2 = <[sid := stopState env data d]> d)
    as Hdisk by (by rewrite Stop_run_ok).
  assert (stopTranscript env data = Some tr) as Htr.
  { unfold stopTranscript. rewrite Hpath. simpl.
    by rewrite (proj2 (truthy_string_true path)). }
  assert (after = stopState env data d) as Hafter.
  { subst after. rewrite Hdisk. apply accumulator_insert. }
  pose proof (stopState_tokenUsage env data d) as Hrule. rewrite Htr in Hrule.
  rewrite Hafter. split; [|split; [|split]].
  - intros Hpos. rewrite Hrule.
    destruct (Z.ltb_spec 0 (input (tokenUsage tr)));
      destruct (Z.ltb_spec 0 (output (tokenUsage tr))); simpl; done || lia.
  - intros Hzero. rewrite Hrule.
    destruct (Z.ltb_spec 0 (input (tokenUsage tr)));
      destruct (Z.ltb_spec 0 (output (tokenUsage tr))); simpl; done || tauto.
  - intros Hfile. rewrite Hrule.
    assert (tr = emptyTranscript) as ->; [|done].
    subst tr. destruct Hfile as [Hno|Hempty].
    + by apply parseTranscriptFile_missing.
    + unfold parseTranscriptFile. by rewrite Hempty.
  - intros s Hin.
    destruct (Stop_session_last s Hen Hin) as (Hs & _).
    unfold stopSession in Hs. by injection Hs as ->.
Qed.



End StopClaims.

(* ===================================================================== *)
(** ** Replaying Stop events *)
(* ===================================================================== *)

Section Replay.

Implicit Types (env : Env) (data : HookStopData) (d : SessionState)
  (stops : list (Env * HookStopData)) (sid : string).

Lemma newMessages_elem_of (msgs : list AssistantMessage) (s : gset string) msg :
  msg ∈ newMessages msgs s → msg ∈ msgs.
Proof.
  revert s. induction msgs as [|m msgs IH]; intros s; simpl; [done|].
  destruct (_ && _).
  - intros ?%IH. by right.
  - intros [->|?%IH]%elem_of_cons; [by left | by right].
Qed.

(** The synced set of any session only grows in a Stop invocation,
    whatever the environment and the outcome. *)
Lemma Stop_synced_mono env data d sid :
  synced sid d ⊆ synced sid (disk (invoke env (Stop data) d).2).
Proof.
  destruct (Stop_disk env data d) as [->| ->]; [done|].
  destruct (decide (stop_session_id data = sid)) as [<-|Hne].
  - unfold synced at 2. rewrite accumulator_insert, stopState_synced.
    set_solver.
  - unfold synced. by rewrite accumulator_insert_ne.
Qed.

Lemma run_Stops_synced_mono stops d sid :
  synced sid d ⊆ synced sid (run d (prod_map id Stop <$> stops)).
Proof.
  revert d. induction stops as [|[env data] stops IH]; intros d; simpl; [done|].
  etrans; [apply (Stop_synced_mono env data)|apply IH].
Qed.

(** After an accepted Stop invocation the entry ids it forwarded are
    synced. *)
Lemma Stop_forwarded_synced env data d u :
  enabled env → acceptsMessages env →
  u ∈ entryIds (stopForwarded env data d) →
  u ∈ synced (stop_session_id data) (disk (invoke env (Stop data) d).2).
Proof.
  intros Hen Hacc Hu.
  destruct (Stop_run_accepted env data d Hen Hacc) as [-> _].
  unfold synced. rewrite accumulator_insert, stopState_synced.
  unfold stopForwarded in Hu.
  destruct (stopTranscript env data) as [tr|]; [|by apply elem_of_nil in Hu].
  apply elem_of_union_r, elem_of_list_to_set.
  apply elem_of_entryIds in Hu as (Hne & msg & Hmsg & <-).
  apply elem_of_entryIds. split; [done|]. exists msg.
  split; [by eapply newMessages_elem_of|done].
Qed.

(** Over a sequence of accepted Stop invocations of one session, the
    entry ids forwarded are pairwise distinct and were not synced before. *)
Lemma forwardedBy_exactly_once sid stops d :
  Forall (λ stop, enabled stop.1 ∧ acceptsMessages stop.1
                  ∧ stop_session_id stop.2 = sid) stops →
  NoDup (entryIds (forwardedBy d stops)) ∧
  (∀ u, u ∈ entryIds (forwardedBy d stops) → u ∉ synced sid d).
Proof.
  intros Hall. revert d.
  induction Hall as [|[env data] stops (Hen & Hacc & Hid) _ IH]; intros d; simpl in *.
  - split; [constructor|]. by intros u ?%elem_of_nil.
  - set (d1 := disk (invoke env (Stop data) d).2).
    destruct (IH d1) as [IHnd IHfresh]. subst sid.
    assert (∀ u, u ∈ entryIds (stopForwarded env data d) →
                 u ∉ synced (stop_session_id data) d) as Hfresh.
    { intros u. unfold stopForwarded.
      destruct (stopTranscript env data); [apply newMessages_fresh|].
      by intros ?%elem_of_nil. }
    rewrite entryIds_app. split.
    + apply NoDup_app. split; [|split; [|done]].
      * unfold stopForwarded.
        destruct (stopTranscript env data); [apply newMessages_NoDup|constructor].
      * intros u Hu Hu'. apply (IHfresh u Hu').
        by apply Stop_forwarded_synced.
    + intros u [Hu|Hu]%elem_of_app; [by apply Hfresh|].
      intros Hin. apply (IHfresh u Hu).
      by apply (Stop_synced_mono env data d).
Qed.

Lemma stopUsage_fixed (tr : ParsedTranscript) (state state0 : SessionEntry) :
  state_tokenUsage state = state_tokenUsage (stopUsage tr state0) →
  stopUsage tr state = state.
Proof.
  unfold stopUsage. destruct (_ || _); [|done].
  destruct state; simpl. by intros ->.
Qed.

(** The accumulator a Stop invocation saves is a fixed point of the same
    invocation, as soon as the second pass forwards nothing. *)
Lemma stopState_fixed env data d :
  let d1 := <[stop_session_id data := stopState env data d]> d in
  stopForwarded env data d1 = [] →
  stopState env data d1 = stopState env data d.
Proof.
  intros d1 Hfwd. unfold stopState at 1. rewrite Hfwd. subst d1.
  rewrite accumulator_insert. unfold synced. rewrite accumulator_insert.
  rewrite stopState_synced.
  destruct (stopTranscript env data) as [tr|] eqn:Htr; [|done].
  simpl. rewrite syncedAfter_eq.
  rewrite (stopUsage_fixed tr _ (accumulator (stop_session_id data) d)).
  - unfold stopState. rewrite Htr. unfold set_syncedMessageUuids. simpl.
    rewrite syncedAfter_eq. f_equal. f_equal. set_solver.
  - unfold stopState. rewrite Htr. simpl. rewrite countMessages_tokenUsage.
    unfold stopUsage. by destruct (_ || _).
Qed.

(** C1 (as amended).  Let a Stop event be handled twice by a collector
    that accepts Message records, the second time on the state the first
    pass saved.  The second pass forwards no message that has an entry id;
    when every assistant message of the transcript has an entry id, it
    forwards nothing and leaves the state file, hence [messageCount], as
    the first pass left it.  In every Stop invocation the synced set of
    every session only grows, and over every sequence of Stop events of a
    session handled by such collectors, the entry ids forwarded are
    pairwise distinct and none was synced before. *)
Theorem Stop_idempotent env data d stops :
  enabled env → acceptsMessages env →
  Forall (λ stop, enabled stop.1 ∧ acceptsMessages stop.1
                  ∧ stop_session_id stop.2 = stop_session_id data) stops →
  let sid := stop_session_id data in
  let d1 := disk (invoke env (Stop data) d).2 in
  let d2 := disk (invoke env (Stop data) d1).2 in
  requests (invoke env (Stop data) d1).2
    = stopMessages env data d1 ++ [stopSession env data d1] ∧
  entryIds (stopForwarded env data d1) = [] ∧
  ((∀ tr msg, stopTranscript env data = Some tr → msg ∈ assistantMessages tr →
      uuid msg ≠ EmptyString) →
     stopForwarded env data d1 = [] ∧ d2 = d1 ∧ count sid d2 = count sid d1) ∧
  (∀ env' data' d' sid', synced sid' d' ⊆ synced sid' (disk (invoke env' (Stop data') d').2)) ∧
  synced sid d ⊆ synced sid (run d (prod_map id Stop <$> stops)) ∧
  NoDup (entryIds (forwardedBy d stops)) ∧
  (∀ u, u ∈ entryIds (forwardedBy d stops) → u ∉ synced sid d).
Proof.
  intros Hen Hacc Hstops sid d1 d2.
  destruct (Stop_run_accepted env data d Hen Hacc) as [Hd1 _].
  destruct (Stop_run_accepted env data d1 Hen Hacc) as [Hd2 Hreqs2].
  assert (entryIds (stopForwarded env data d1) = []) as Hids.
  { unfold stopForwarded. destruct (stopTranscript env data) as [tr|] eqn:Htr; [|done].
    apply newMessages_synced. intros u Hu. subst d1. rewrite Hd1.
    unfold synced. rewrite accumulator_insert, stopState_synced, Htr.
    apply elem_of_union_r. by apply elem_of_list_to_set. }
  split; [done|]. split; [done|]. split; [|split; [|split]].
  - intros Hall.
    assert (stopForwarded env data d1 = []) as Hfwd.
    { apply entryIds_nil_uuidless; [done|]. intros msg Hmsg.
      unfold stopForwarded in Hmsg.
      destruct (stopTranscript env data) as [tr|] eqn:Htr;
        [|by apply elem_of_nil in Hmsg].
      apply (Hall tr); [done|]. by eapply newMessages_elem_of. }
    split; [done|].
    assert (d2 = d1) as ->; [|done].
    subst d2. rewrite Hd2. subst d1. rewrite Hd1 in *.
    rewrite stopState_fixed by done. apply insert_insert_eq.
  - intros env' data' d' sid'. apply Stop_synced_mono.
  - apply run_Stops_synced_mono.
  - by apply forwardedBy_exactly_once.
Qed.

End Replay.

(* ===================================================================== *)
(** ** The other events *)
(* ===================================================================== *)

Section Events.

Implicit Types (env : Env) (d : SessionState) (sid : string) (event : HookEvent).

(** Without a configuration, or with [autoSync] off, nothing happens. *)
Lemma hook_disabled env event d :
  ¬ enabled env → invoke env event d = ({| exit_code := 0; logged := None |},
                                        {| disk := d; requests := [] |}).
Proof.
  intros Hoff. unfold invoke, hook.
  destruct (config env) as [cfg|] eqn:Hcfg; [|done].
  destruct (bool_decide_reflect (autoSync cfg = Some false)); [done|].
  destruct Hoff. by exists cfg.
Qed.

Lemma enabled_or_not env : enabled env ∨ ¬ enabled env.
Proof.
  unfold enabled. destruct (config env) as [cfg|]; [|right; naive_solver].
  destruct (decide (autoSync cfg = Some false)); [right|left]; naive_solver.
Qed.

(** The hook command always exits with status 0. *)
Lemma hook_exit_code env event (w : World) : exit_code (hook env event w).1 = 0.
Proof.
  unfold hook. destruct (config env); [|done].
  destruct (bool_decide _); [done|].
  by destruct (dispatch env _ event w) as [[?|?] ?].
Qed.

(** SessionStart saves the fresh accumulator before it contacts the
    collector. *)
Lemma SessionStart_disk env (data : HookSessionStartData) d :
  enabled env →
  disk (invoke env (SessionStart data) d).2
  = <[start_session_id data := startEntry data]> d.
Proof.
  intros Hen. unfold invoke.
  destruct (hook_enabled env (SessionStart data) {| disk := d; requests := [] |} Hen)
    as (cfg & _ & ->).
  unfold dispatch, loadSessionState, hookSessionStart, mbind, M_bind,
    saveSessionState, await. simpl.
  by destruct (collector env [] _).
Qed.

(** SessionEnd deletes the accumulator once the collector has accepted the
    final record, and leaves the state file as it was otherwise. *)
Lemma SessionEnd_disk env (data : HookSessionEndData) d :
  enabled env →
  disk (invoke env (SessionEnd data) d).2 = d ∨
  disk (invoke env (SessionEnd data) d).2 = delete (end_session_id data) d.
Proof.
  intros Hen. unfold invoke.
  destruct (hook_enabled env (SessionEnd data) {| disk := d; requests := [] |} Hen)
    as (cfg & _ & ->).
  unfold dispatch, loadSessionState, hookSessionEnd, mbind, M_bind,
    saveSessionState, await. simpl.
  destruct (collector env [] _); [by right|by left].
Qed.

(** UserPromptSubmit saves the first prompt before it sends the title, and
    the incremented count before it sends the message. *)
Lemma UserPromptSubmit_disk env (data : HookUserPromptData) d :
  enabled env →
  disk (invoke env (UserPromptSubmit data) d).2
    = <[prompt_session_id data :=
          set_firstPrompt (prompt data) (accumulator (prompt_session_id data) d)]> d ∨
  ∃ state',
    messageCount state'
      = Some (or0 (messageCount (accumulator (prompt_session_id data) d)) + 1) ∧
    disk (invoke env (UserPromptSubmit data) d).2
      = <[prompt_session_id data := state']> d.
Proof.
  intros Hen. unfold invoke, accumulator.
  destruct (hook_enabled env (UserPromptSubmit data) {| disk := d; requests := [] |} Hen)
    as (cfg & _ & ->).
  unfold dispatch, loadSessionState, hookUserPromptSubmit, mbind, M_bind.
  cbn [disk].
  destruct (firstPrompt (default emptyEntry (d !! prompt_session_id data)))
    as [p|]; [destruct (truthy_jsstring p)|];
    unfold saveSessionState, await, mret, M_ret; cbn -[insert];
    repeat match goal with
           | |- context [collector env ?h ?r] =>
               destruct (collector env h r); cbn -[insert]
           end;
    try (by left);
    right; eexists; (split; [|rewrite ?insert_insert_eq; reflexivity]); done.
Qed.

(** PostToolUse and unknown events do not touch the state file. *)
Lemma PostToolUse_disk env (data : HookToolUseData) d :
  disk (invoke env (PostToolUse data) d).2 = d.
Proof.
  unfold invoke, hook. destruct (config env); [|done].
  destruct (bool_decide _); [done|].
  unfold dispatch, loadSessionState, hookPostToolUse, mbind, M_bind, await,
    mret, M_ret. cbn [disk requests].
  destruct (negb _); [done|].
  match goal with
  | |- context [collector env ?h ?r] => by destruct (collector env h r)
  end.
Qed.

Lemma UnknownEvent_disk env (name : string) d :
  disk (invoke env (UnknownEvent name) d).2 = d.
Proof.
  unfold invoke, hook. destruct (config env); [|done].
  by destruct (bool_decide _).
Qed.

Lemma count_insert sid (state : SessionEntry) d :
  count sid (<[sid := state]> d) = or0 (messageCount state).
Proof. unfold count. by rewrite accumulator_insert. Qed.

Lemma count_insert_ne sid sid' (state : SessionEntry) d :
  sid ≠ sid' → count sid' (<[sid := state]> d) = count sid' d.
Proof. intros. unfold count. by rewrite accumulator_insert_ne. Qed.

(** One invocation that neither starts nor ends the session does not
    decrease its [messageCount]. *)
Lemma invoke_count_mono env event d sid :
  ¬ resets sid event → count sid d ≤ count sid (disk (invoke env event d).2).
Proof.
  intros Hno.
  destruct (enabled_or_not env) as [Hen|Hoff]; [|by rewrite hook_disabled].
  destruct event as [data|data|data|data|data|name]; simpl in Hno.
  - rewrite SessionStart_disk by done. by rewrite count_insert_ne.
  - destruct (SessionEnd_disk env data d Hen) as [->| ->]; [done|].
    unfold count, accumulator. by rewrite lookup_delete_ne.
  - destruct (UserPromptSubmit_disk env data d Hen) as [->|(st & Hst & ->)].
    + destruct (decide (prompt_session_id data = sid)) as [<-|Hne].
      * by rewrite count_insert.
      * by rewrite count_insert_ne.
    + destruct (decide (prompt_session_id data = sid)) as [<-|Hne].
      * rewrite count_insert, Hst. unfold count. simpl. lia.
      * by rewrite count_insert_ne.
  - by rewrite PostToolUse_disk.
  - destruct (Stop_disk env data d) as [->| ->]; [done|].
    destruct (decide (stop_session_id data = sid)) as [<-|Hne].
    + rewrite count_insert, stopState_count. lia.
    + by rewrite count_insert_ne.
  - by rewrite UnknownEvent_disk.
Qed.

Lemma run_app d (events1 events2 : list (Env * HookEvent)) :
  run d (events1 ++ events2) = run (run d events1) events2.
Proof.
  revert d. induction events1 as [|[env event] events1 IH]; intros d; simpl; [done|].
  apply IH.
Qed.

Lemma run_count_mono sid d (events : list (Env * HookEvent)) :
  Forall (λ e, ¬ resets sid e.2) events → count sid d ≤ count sid (run d events).
Proof.
  intros Hall. revert d.
  induction Hall as [|[env event] events Hno _ IH]; intros d; simpl; [done|].
  etrans; [by apply (invoke_count_mono env event)|apply IH].
Qed.

(** A SessionEnd invocation, whatever the collector answers. *)
Lemma SessionEnd_run env (data : HookSessionEndData) d :
  enabled env →
  invoke env (SessionEnd data) d =
  if collector env [] (syncSession (endSession env data d)) then
    ({| exit_code := 0; logged := None |},
     {| disk := delete (end_session_id data) d;
        requests := [syncSession (endSession env data d)] |})
  else
    ({| exit_code := 0;
        logged := Some (SyncFailed (syncSession (endSession env data d))) |},
     {| disk := d; requests := [syncSession (endSession env data d)] |}).
Proof.
  intros Hen. unfold invoke.
  destruct (hook_enabled env (SessionEnd data) {| disk := d; requests := [] |} Hen)
    as (cfg & _ & ->).
  unfold dispatch, loadSessionState, hookSessionEnd, mbind, M_bind,
    saveSessionState, await, endSession, firstPromptRecorded.
  cbn -[delete]. fold (accumulator (end_session_id data) d).
  destruct (firstPrompt (accumulator (end_session_id data) d)) as [p|];
    [destruct (truthy_jsstring p)|]; cbn -[delete];
    by destruct (collector env [] _).
Qed.

(** C4 (as amended).  For a fixed session identifier, [messageCount] never
    decreases across any sequence of processed events that contains no
    SessionStart and no SessionEnd of that session, whatever happened
    before.  A SessionStart of the session sets it to zero.  A SessionEnd
    of the session deletes the accumulator once the collector has accepted
    the final record, and leaves the state file as it was when the
    collector refuses that record. *)
Theorem messageCount_monotone sid d (before events : list (Env * HookEvent)) :
  Forall (λ e, ¬ resets sid e.2) events →
  count sid (run d before) ≤ count sid (run d (before ++ events)) ∧
  (∀ env data, enabled env → start_session_id data = sid →
     count sid (disk (invoke env (SessionStart data) d).2) = 0) ∧
  (∀ env data, enabled env → end_session_id data = sid →
     (collector env [] (syncSession (endSession env data d)) = true →
        disk (invoke env (SessionEnd data) d).2 = delete sid d ∧
        disk (invoke env (SessionEnd data) d).2 !! sid = None) ∧
     (collector env [] (syncSession (endSession env data d)) = false →
        disk (invoke env (SessionEnd data) d).2 = d)).
Proof.
  intros Hall. split; [|split].
  - rewrite run_app. by apply run_count_mono.
  - intros env data Hen <-. rewrite SessionStart_disk by done.
    by rewrite count_insert.
  - intros env data Hen <-. rewrite SessionEnd_run by done.
    split; intros ->; simpl; [|done].
    split; [done|]. apply lookup_delete_eq.
Qed.

(** C4, witness: a prompt and two Stop events after the start of S1. *)
Lemma messageCount_monotone_witness :
  count "S1" (run ∅ [(env_up, SessionStart start_S1)])
  ≤ count "S1" (run ∅ ([(env_up, SessionStart start_S1)] ++
                        [(env_up, UserPromptSubmit prompt_S1);
                         (env_up, Stop stop_no_uuid);
                         (env_down, Stop stop_with_uuid)])).
Proof.
  refine (proj1 (messageCount_monotone "S1" ∅ _ _ _)).
  repeat constructor; simpl; tauto.
Defined.

(** C4, counterexample to the claim as stated: a SessionStart event of a
    session that has counted one message brings [messageCount] from 1 back
    to 0. *)
Lemma messageCount_counterexample :
  count "S1" disk_S1 = 1 ∧
  count "S1" (run disk_S1 [(env_up, SessionStart start_S1)]) = 0.
Proof. split; reflexivity. Qed.

(** C8 (as amended).  A SessionEnd event issues one request, the final
    Session record.  Its message count is the one the event supplies when
    that is present and not zero, and the accumulated one otherwise; its
    token usage is the one the event supplies when present, and the
    accumulated one otherwise; its tool-call count and cost estimate are
    the ones the event supplies; its title is derived from [firstPrompt]
    when a non-empty one was recorded and is absent otherwise.  Without an
    accumulator the accumulated values are absent.  Once the collector has
    accepted the record, the accumulator is deleted from the store. *)
Theorem SessionEnd_final_record env (data : HookSessionEndData) d :
  enabled env →
  ∃ s,
    requests (invoke env (SessionEnd data) d).2 = [syncSession s] ∧
    sessionId s = end_session_id data ∧
    (∀ n, message_count data = Some n → n ≠ 0 → session_messageCount s = Some n) ∧
    (message_count data = None ∨ message_count data = Some 0 →
       session_messageCount s = messageCount (accumulator (end_session_id data) d)) ∧
    (∀ u, total_token_usage data = Some u → session_tokenUsage s = Some u) ∧
    (total_token_usage data = None →
       session_tokenUsage s = state_tokenUsage (accumulator (end_session_id data) d)) ∧
    toolCallCount s = tool_call_count data ∧
    costEstimate s = cost_estimate data ∧
    (∀ p, firstPrompt (accumulator (end_session_id data) d) = Some p → p ≠ [] →
       title s = Some (generateTitle p)) ∧
    (firstPrompt (accumulator (end_session_id data) d) = None ∨
     firstPrompt (accumulator (end_session_id data) d) = Some [] → title s = None) ∧
    (d !! end_session_id data = None →
       title s = None ∧
       (message_count data = None ∨ message_count data = Some 0 →
          session_messageCount s = None) ∧
       session_tokenUsage s = total_token_usage data) ∧
    (collector env [] (syncSession s) = true →
       disk (invoke env (SessionEnd data) d).2 = delete (end_session_id data) d ∧
       logged (invoke env (SessionEnd data) d).1 = None).
Proof.
  intros Hen. unfold invoke.
  destruct (hook_enabled env (SessionEnd data) {| disk := d; requests := [] |} Hen)
    as (cfg & _ & ->).
  unfold dispatch, loadSessionState, hookSessionEnd, mbind, M_bind,
    saveSessionState, await. cbn [disk requests app].
  fold (accumulator (end_session_id data) d).
  set (state := accumulator (end_session_id data) d).
  match goal with
  | |- context [collector env [] (syncSession ?r)] => exists r
  end.
  split; [by destruct (collector env [] _)|]. cbn.
  split; [done|]. split.
  { intros n -> Hn. simpl. by destruct (Z.eqb_spec n 0). }
  split. { by intros [-> | ->]. }
  split. { by intros u ->. }
  split. { by intros ->. }
  split; [done|]. split; [done|]. split.
  { intros p -> Hp. by destruct p. }
  split. { by intros [-> | ->]. }
  split.
  { intros Hnone. subst state. unfold accumulator. rewrite Hnone. simpl.
    split; [done|]. split; [by intros [-> | ->]|]. by destruct (total_token_usage data). }
  by intros ->.
Qed.

(** C8, witness: the end of S1 with no count supplied, accepted. *)
Lemma SessionEnd_final_record_witness :
  ∃ s, requests (invoke env_up (SessionEnd (end_S1 None)) disk_S1).2 = [syncSession s]
       ∧ title s = Some (js "fix bug") ∧ session_messageCount s = Some 1
       ∧ disk (invoke env_up (SessionEnd (end_S1 None)) disk_S1).2 = ∅.
Proof.
  destruct (SessionEnd_final_record env_up (end_S1 None) disk_S1)
    as (s & Hreq & _ & _ & Hcount & _ & _ & _ & _ & Htitle & _ & _ & Hdel).
  - exists config_on. split; [reflexivity|discriminate].
  - exists s. split; [exact Hreq|]. split; [|split].
    + apply (Htitle (js "fix bug")); [reflexivity|discriminate].
    + apply Hcount. by left.
    + apply Hdel. reflexivity.
Defined.

(** C8, counterexample to the claim as stated.  The event supplies the
    message count 0 and the accumulator holds 1: both are present, and the
    record carries the accumulated 1.  And when the collector refuses the
    record, the accumulator stays in the store. *)
Lemma SessionEnd_counterexample :
  (message_count (end_S1 (Some 0)) = Some 0 ∧
   messageCount (accumulator "S1" disk_S1) = Some 1 ∧
   session_messageCount
     <$> omap (λ r, match r with syncSession s => Some s | _ => None end)
              (requests (invoke env_up (SessionEnd (end_S1 (Some 0))) disk_S1).2)
   = [Some 1]) ∧
  (disk (invoke env_down (SessionEnd (end_S1 None)) disk_S1).2 = disk_S1 ∧
   is_Some (disk_S1 !! "S1"%string)).
Proof.
  split; [split; [|split]|split]; try reflexivity.
  by eexists.
Qed.

(** C2, the failing input.  The state file holds S1 with one message
    counted; a Stop event names a transcript with one new assistant
    message and a usage of 100 input and 50 output tokens; the collector
    refuses Message records.  The accumulator computed before the failure
    has the parsed usage, the count 2 and the entry id u1, but the error is
    thrown before [saveSessionState]: the state file is left as it was.
    The error is logged and the exit status is 0. *)
Lemma Stop_failure_discards_state :
  state_tokenUsage (stopState env_no_messages stop_with_uuid disk_S1)
    = Some {| input := 100; output := 50 |} ∧
  messageCount (stopState env_no_messages stop_with_uuid disk_S1)
    = Some 2 ∧
  syncedMessageUuids (stopState env_no_messages stop_with_uuid disk_S1)
    = Some {["u1"%string]} ∧
  disk (invoke env_no_messages (Stop stop_with_uuid) disk_S1).2
    = disk_S1 ∧
  state_tokenUsage (accumulator "S1" disk_S1) = Some {| input := 0; output := 0 |} ∧
  messageCount (accumulator "S1" disk_S1) = Some 1 ∧
  syncedMessageUuids (accumulator "S1" disk_S1) = None ∧
  requests (invoke env_no_messages (Stop stop_with_uuid) disk_S1).2
    = stopMessages env_no_messages stop_with_uuid disk_S1 ∧
  logged (invoke env_no_messages (Stop stop_with_uuid) disk_S1).1
    = SyncFailed <$> head (stopMessages env_no_messages stop_with_uuid disk_S1) ∧
  exit_code (invoke env_no_messages (Stop stop_with_uuid) disk_S1).1 = 0.
Proof. repeat split; reflexivity. Qed.

(** The sibling paths save before they contact the collector: whatever the
    collector answers, SessionStart has saved the fresh accumulator and
    UserPromptSubmit has saved the first prompt. *)
Lemma siblings_save_before_sync env d :
  enabled env →
  (∀ data, disk (invoke env (SessionStart data) d).2
           = <[start_session_id data := startEntry data]> d) ∧
  (∀ data, ∃ state',
     disk (invoke env (UserPromptSubmit data) d).2
       = <[prompt_session_id data := state']> d ∧
     (truthy_jsstring (prompt data) = true →
      ∃ p, firstPrompt state' = Some p ∧ truthy_jsstring p = true)).
Proof.
  intros Hen. split; [intros data; by apply SessionStart_disk|].
  intros data. unfold invoke, accumulator.
  destruct (hook_enabled env (UserPromptSubmit data) {| disk := d; requests := [] |} Hen)
    as (cfg & _ & ->).
  unfold dispatch, loadSessionState, hookUserPromptSubmit, mbind, M_bind.
  cbn [disk].
  destruct (firstPrompt (default emptyEntry (d !! prompt_session_id data)))
    as [p|] eqn:Hp; [destruct (truthy_jsstring p) eqn:Htruthy|];
    unfold saveSessionState, await, mret, M_ret; cbn -[insert];
    repeat match goal with
           | |- context [collector env ?h ?r] =>
               destruct (collector env h r); cbn -[insert]
           end;
    eexists; (split; [rewrite ?insert_insert_eq; reflexivity|]);
    cbn; intros Hprompt; eauto.
  all: rewrite Hp; eauto.
Qed.

End Events.

(* ===================================================================== *)
(** ** The theorems at concrete inputs *)
(* ===================================================================== *)

Lemma env_up_enabled : enabled env_up.
Proof. exists config_on. split; [reflexivity|discriminate]. Qed.

Lemma env_up_acceptsMessages : acceptsMessages env_up.
Proof. intros history message. reflexivity. Qed.

(** C1, witness: the Stop event of the transcript with uuid u1, replayed on
    the state its first pass saved, and a sequence of three Stop events. *)
Lemma Stop_idempotent_witness :
  run disk_S1 [(env_up, Stop stop_with_uuid); (env_up, Stop stop_with_uuid)]
    = run disk_S1 [(env_up, Stop stop_with_uuid)] ∧
  NoDup (entryIds (forwardedBy disk_S1
                     [(env_up, stop_with_uuid); (env_up, stop_no_uuid);
                      (env_up, stop_with_uuid)])).
Proof.
  destruct (Stop_idempotent env_up stop_with_uuid disk_S1
              [(env_up, stop_with_uuid); (env_up, stop_no_uuid);
               (env_up, stop_with_uuid)]
              env_up_enabled env_up_acceptsMessages)
    as (_ & _ & Hidem & _ & _ & Hnodup & _).
  - repeat constructor; apply env_up_enabled || apply env_up_acceptsMessages.
  - split; [|exact Hnodup]. apply Hidem.
    intros tr msg [= <-] Hmsg.
    apply list_elem_of_singleton in Hmsg. by subst msg.
Defined.

(** C1, counterexample to the claim as stated.  The transcript holds one
    assistant message without uuid.  The first Stop pass brings
    [messageCount] from 1 to 2 and forwards the message; the second pass,
    on the same transcript and on the state the first pass saved, brings it
    to 3 and forwards the message again. *)
Lemma Stop_idempotent_counterexample :
  count "S1" disk_S1 = 1 ∧
  count "S1" (run disk_S1 [(env_up, Stop stop_no_uuid)]) = 2 ∧
  count "S1" (run disk_S1 [(env_up, Stop stop_no_uuid);
                           (env_up, Stop stop_no_uuid)]) = 3 ∧
  head (requests (invoke env_up (Stop stop_no_uuid) disk_S1).2)
    = Some (syncMessage (assistantMessage env_up "S1" message_no_uuid)) ∧
  head (requests (invoke env_up (Stop stop_no_uuid)
                    (run disk_S1 [(env_up, Stop stop_no_uuid)])).2)
    = Some (syncMessage (assistantMessage env_up "S1" message_no_uuid)).
Proof. repeat split; reflexivity. Qed.

(** The parsed usage of 100 and 50 tokens replaces the accumulated zero
    usage of S1 when the collector accepts the message. *)
Lemma Stop_replaces_tokenUsage_accepted :
  state_tokenUsage
    (accumulator "S1" (disk (invoke env_up (Stop stop_with_uuid) disk_S1).2))
  = Some {| input := 100; output := 50 |}.
Proof.
  refine (proj1 (Stop_replaces_tokenUsage env_up stop_with_uuid disk_S1
                   "with-uuid.jsonl" env_up_enabled eq_refl eq_refl _) _).
  - discriminate.
  - left. reflexivity.
Qed.

(** C3, the failing input.  The state file holds S1 with a token usage of
    zero; a Stop event names a transcript whose parsed usage is 100 input
    and 50 output tokens, which is not zero; the collector refuses Message
    records.  The stored accumulator keeps the usage of zero: the usage
    was replaced in memory, but the error is thrown before
    [saveSessionState].  Under a collector that accepts the message, the
    same event on the same state stores the parsed total. *)
Lemma Stop_refused_keeps_tokenUsage :
  tokenUsage (parseTranscriptFile (fs env_no_messages) (ISO_now env_no_messages)
                                  "with-uuid.jsonl")
    = {| input := 100; output := 50 |} ∧
  transcript_path stop_with_uuid = Some "with-uuid.jsonl"%string ∧
  state_tokenUsage (accumulator "S1" disk_S1)
    = Some {| input := 0; output := 0 |} ∧
  state_tokenUsage (stopState env_no_messages stop_with_uuid disk_S1)
    = Some {| input := 100; output := 50 |} ∧
  state_tokenUsage
    (accumulator "S1"
       (disk (invoke env_no_messages (Stop stop_with_uuid) disk_S1).2))
    = Some {| input := 0; output := 0 |} ∧
  logged (invoke env_no_messages (Stop stop_with_uuid) disk_S1).1
    = SyncFailed <$> head (stopMessages env_no_messages stop_with_uuid disk_S1) ∧
  state_tokenUsage
    (accumulator "S1" (disk (invoke env_up (Stop stop_with_uuid) disk_S1).2))
    = Some {| input := 100; output := 50 |}.
Proof. repeat split; reflexivity. Qed.


(** C9, witness: under a collector that accepts every request, the Stop
    event of the transcript with uuid u1 issues the Message record of u1
    and then the Session update, which counts two messages. *)
Lemma Stop_forwarding_order_witness :
  requests (invoke env_up (Stop stop_with_uuid) disk_S1).2
  = [syncMessage (assistantMessage env_up "S1" message_u1);
     syncSession (sessionTotals "S1" (stopState env_up stop_with_uuid disk_S1))] ∧
  messageCount (stopState env_up stop_with_uuid disk_S1) = Some 2.
Proof.
  split; [|reflexivity].
  refine (proj1 (proj2 (proj2 (proj2 (proj2 (proj2 (proj2
    (Stop_forwarding_order env_up stop_with_uuid disk_S1 env_up_enabled)))))))
    _).
  reflexivity.
Defined.



(** The end-to-end scenario of the specification: the start of S1, the
    prompt "fix bug", a Stop event with one new assistant turn of 100 input
    and 50 output tokens, and the end of S1. *)
Example end_to_end_scenario :
  let d1 := run ∅ [(env_up, SessionStart start_S1);
                   (env_up, UserPromptSubmit prompt_S1)] in
  let d2 := run d1 [(env_up, Stop stop_with_uuid)] in
  count "S1" d1 = 1 ∧
  head (requests (invoke env_up (UserPromptSubmit prompt_S1)
                    (run ∅ [(env_up, SessionStart start_S1)])).2)
    = Some (syncSession (sessionTitle "S1" (js "fix bug"))) ∧
  count "S1" d2 = 2 ∧
  state_tokenUsage (accumulator "S1" d2) = Some {| input := 100; output := 50 |} ∧
  length (stopMessages env_up stop_with_uuid d1) = 1%nat ∧
  (title <$> omap (λ r, match r with syncSession s => Some s | _ => None end)
               (requests (invoke env_up (SessionEnd (end_S1 None)) d2).2))
    = [Some (js "fix bug")] ∧
  run d2 [(env_up, SessionEnd (end_S1 None))] = ∅.
Proof. repeat split; reflexivity. Qed.

(* ===================================================================== *)
(** ** More on the transcript parser *)
(* ===================================================================== *)

Lemma partsRead_Some (parts : list TranscriptContentPart) :
  partsRead (Some <$> parts) = parts.
Proof.
  induction parts as [|p parts IH]; [done|].
  rewrite fmap_cons. cbn [partsRead]. by rewrite IH.
Qed.

Lemma partsRead_null (parts1 : list TranscriptContentPart)
    (parts2 : list (option TranscriptContentPart)) :
  partsRead ((Some <$> parts1) ++ None :: parts2) = parts1.
Proof.
  induction parts1 as [|p parts1 IH]; [done|].
  rewrite fmap_cons, <- app_comm_cons. cbn [partsRead]. by rewrite IH.
Qed.

Lemma round64_exact (z : Z) : - 2 ^ 53 ≤ z ≤ 2 ^ 53 → round64 z = z.
Proof.
  intros Hz. unfold round64.
  destruct (Z.leb_spec (Z.abs z) (2 ^ 53)) as [_|Hbig]; [done|lia].
Qed.

Lemma usageField_exact (x : option Z) :
  0 ≤ or0 x ≤ 2 ^ 53 → usageField x = or0 x.
Proof.
  unfold usageField. destruct x as [z|]; simpl; [|done].
  intros Hz. apply round64_exact. lia.
Qed.

Lemma sumZ_nonneg (zs : list Z) : Forall (λ z, 0 ≤ z) zs → 0 ≤ sumZ zs.
Proof. induction 1; simpl; lia. Qed.

(** What a line does to the totals, in terms of its usage block. *)
Lemma lineAddUsage_spec (u : TokenUsage) (l : line) :
  lineAddUsage u l =
  match lineUsage l with
  | None => u
  | Some us =>
    {| input := add64 (input u)
                  (add64 (add64 (usageField (input_tokens us))
                                (usageField (cache_read_input_tokens us)))
                         (usageField (cache_creation_input_tokens us)));
       output := add64 (output u) (usageField (output_tokens us)) |}
  end.
Proof.
  unfold lineAddUsage, lineUsage, addUsage.
  destruct (assistantLine l) as [[entry msg]|]; [|done].
  by destruct (contentThrows msg).
Qed.

Lemma lineInput_nonneg (l : line) : lineNonneg l → 0 ≤ lineInput l.
Proof. unfold lineNonneg, lineInput. destruct (lineUsage l); lia. Qed.

Lemma lineOutput_nonneg (l : line) : lineNonneg l → 0 ≤ lineOutput l.
Proof. unfold lineNonneg, lineOutput. destruct (lineUsage l); lia. Qed.

Lemma lineAddUsage_step_exact (u : TokenUsage) (l : line) :
  lineNonneg l → 0 ≤ input u → 0 ≤ output u →
  input u + lineInput l ≤ 2 ^ 53 → output u + lineOutput l ≤ 2 ^ 53 →
  lineAddUsage u l = {| input := input u + lineInput l;
                        output := output u + lineOutput l |}.
Proof.
  rewrite lineAddUsage_spec. unfold lineNonneg, lineInput, lineOutput.
  destruct (lineUsage l) as [us|].
  - intros (H1 & H2 & H3 & H4) Hi Ho Hin Hout. unfold add64.
    rewrite !usageField_exact by lia.
    rewrite (round64_exact (or0 (input_tokens us)
                            + or0 (cache_read_input_tokens us))) by lia.
    rewrite (round64_exact (or0 (input_tokens us)
                            + or0 (cache_read_input_tokens us)
                            + or0 (cache_creation_input_tokens us))) by lia.
    rewrite !round64_exact by lia. done.
  - intros _ _ _ _ _. rewrite !Z.add_0_r. by destruct u.
Qed.

(** While the totals stay within 2^53, the running sums are exact. *)
Lemma lineAddUsage_exact (lines : list line) (u : TokenUsage) :
  Forall lineNonneg lines → 0 ≤ input u → 0 ≤ output u →
  input u + sumZ (lineInput <$> lines) ≤ 2 ^ 53 →
  output u + sumZ (lineOutput <$> lines) ≤ 2 ^ 53 →
  foldl lineAddUsage u lines =
  {| input := input u + sumZ (lineInput <$> lines);
     output := output u + sumZ (lineOutput <$> lines) |}.
Proof.
  intros Hall. revert u. induction Hall as [|l lines Hl Hall IH]; intros u Hi Ho Hin Hout.
  - simpl. rewrite !Z.add_0_r. by destruct u.
  - rewrite !fmap_cons in Hin, Hout.
    change (sumZ (?x :: ?xs)) with (x + sumZ xs) in Hin, Hout.
    assert (0 ≤ sumZ (lineInput <$> lines)) as Hsi.
    { apply sumZ_nonneg, Forall_fmap. eapply Forall_impl; [exact Hall|].
      intros l'. apply lineInput_nonneg. }
    assert (0 ≤ sumZ (lineOutput <$> lines)) as Hso.
    { apply sumZ_nonneg, Forall_fmap. eapply Forall_impl; [exact Hall|].
      intros l'. apply lineOutput_nonneg. }
    pose proof (lineInput_nonneg l Hl) as Hli.
    pose proof (lineOutput_nonneg l Hl) as Hlo.
    cbn [foldl]. rewrite lineAddUsage_step_exact by (done || lia).
    rewrite IH by (cbn [input output]; lia).
    rewrite !fmap_cons. change (sumZ (?x :: ?xs)) with (x + sumZ xs).
    cbn [input output]. f_equal; lia.
Qed.

Section Parser.

Context (now : string).

Implicit Types (l : line) (lines : list line) (seen : gset string)
  (result : ParsedTranscript).

(** X1.  Blank lines, lines on which [JSON.parse] throws and entries that
    are not assistant entries with a message are skipped one by one: the
    parse of a file is the parse of the file without them.  An assistant
    line whose content holds a [null] part is not skipped: it contributes
    the text parts that precede the [null] part, and no usage. *)
Theorem parse_skips_other_lines lines (path : string) :
  parseTranscriptFile (oneFile lines) now path
  = parseTranscriptFile
      (oneFile (filter (λ l, is_Some (assistantLine l)) lines)) now path ∧
  (∀ l, interrupted l →
     lineUuid l = EmptyString ∨ lineUuid l ∉ assistantUuids lines →
     parseTranscriptFile (oneFile (lines ++ [l])) now path
     = {| assistantMessages :=
            assistantMessages (parseTranscriptFile (oneFile lines) now path)
            ++ lineMessages now l;
          tokenUsage := tokenUsage (parseTranscriptFile (oneFile lines) now path) |}) ∧
  (∀ (entry : TranscriptEntry) (msg : TranscriptMessage) (u : string) parts1 parts2,
     content msg = Some ((Some <$> parts1) ++ None :: parts2) →
     textMessages now entry msg u
     = textMessages now entry
         {| content := Some (Some <$> parts1); usage := usage msg;
            message_model := message_model msg |} u).
Proof.
  split; [|split].
  - rewrite !parseTranscriptFile_oneFile. f_equal.
    generalize (emptyTranscript, (∅ : gset string)).
    induction lines as [|l lines IH]; intros [result seen]; [done|].
    rewrite parse_cons, filter_cons.
    destruct (assistantLine l) as [[entry msg]|] eqn:Hl.
    + rewrite decide_True by eauto. rewrite parse_cons. apply IH.
    + rewrite decide_False by (by intros [? ?]).
      rewrite parseLine_skip by done. apply IH.
  - intros l Hint Hfresh. rewrite !parseTranscriptFile_oneFile, foldl_app.
    pose proof (parse_seen now lines emptyTranscript ∅) as Hseen.
    destruct (foldl (parseLine now) (emptyTranscript, ∅) lines) as [result seen].
    cbn [fst snd] in *. rewrite parse_cons, parseLine_fresh.
    + simpl. f_equal. unfold lineAddUsage, interrupted in *.
      destruct (assistantLine l) as [[entry msg]|]; [|done]. by rewrite Hint.
    + destruct Hfresh as [?|?]; [by left|right]. rewrite Hseen. set_solver.
  - intros entry msg u parts1 parts2 Hparts. unfold textMessages.
    rewrite Hparts. simpl. by rewrite partsRead_null, partsRead_Some.
Qed.

(** X2.  An assistant line whose non-empty uuid was carried by an earlier
    assistant line of the same file contributes nothing, neither messages
    nor usage: the parse is the parse of the file without that line. *)
Theorem parse_duplicate_line lines1 lines2 l (path : string) :
  lineUuid l ≠ EmptyString → lineUuid l ∈ assistantUuids lines1 →
  parseTranscriptFile (oneFile (lines1 ++ l :: lines2)) now path
  = parseTranscriptFile (oneFile (lines1 ++ lines2)) now path.
Proof.
  intros Hne Hin. rewrite !parseTranscriptFile_oneFile, !foldl_app, parse_cons.
  f_equal. f_equal.
  pose proof (parse_seen now lines1 emptyTranscript ∅) as Hseen.
  destruct (foldl (parseLine now) (emptyTranscript, ∅) lines1) as [result seen].
  simpl in Hseen. rewrite parseLine_step.
  destruct (assistantLine l) as [[entry msg]|]; [|done].
  rewrite (proj2 (truthy_string_true _) Hne).
  rewrite bool_decide_eq_true_2; [done|]. rewrite Hseen. set_solver.
Qed.

Lemma omap_untimed {A} (f f' : A → option AssistantMessage) (xs : list A) :
  (∀ x, untimed <$> f x = untimed <$> f' x) →
  untimed <$> omap f xs = untimed <$> omap f' xs.
Proof.
  intros Hf. induction xs as [|x xs IH]; [done|].
  cbn [omap list_omap]. specialize (Hf x).
  destruct (f x) as [m|], (f' x) as [m'|]; try done.
  change (Some (untimed m) = Some (untimed m')) in Hf. apply (inj Some) in Hf.
  rewrite !fmap_cons. by rewrite Hf, IH.
Qed.

Lemma textMessages_untimed (now' : string) (entry : TranscriptEntry)
    (msg : TranscriptMessage) (u : string) :
  untimed <$> textMessages now entry msg u
  = untimed <$> textMessages now' entry msg u.
Proof.
  unfold textMessages. destruct (content msg) as [parts|]; [|done].
  apply omap_untimed. intros part.
  destruct (String.eqb (part_type part) "text"); [|done].
  destruct (part_text part) as [t|]; [|done].
  by destruct (truthy_jsstring t).
Qed.

Lemma lineMessages_untimed (now' : string) l :
  untimed <$> lineMessages now l = untimed <$> lineMessages now' l.
Proof.
  unfold lineMessages. destruct (assistantLine l) as [[entry msg]|]; [|done].
  apply textMessages_untimed.
Qed.

Lemma lineMessages_stamped (now' : string) l :
  stamped l → lineMessages now l = lineMessages now' l.
Proof.
  unfold stamped, lineMessages, textMessages.
  destruct (assistantLine l) as [[entry msg]|]; [|done].
  destruct (entry_timestamp entry) as [ts|]; [|done]. simpl. by intros ->.
Qed.

(** The clock decides nothing but the timestamps of messages whose entry
    has none. *)
Lemma parse_clock (now' : string) lines result result' seen :
  untimed <$> assistantMessages result = untimed <$> assistantMessages result' →
  tokenUsage result = tokenUsage result' →
  untimed <$> assistantMessages (foldl (parseLine now) (result, seen) lines).1
  = untimed <$> assistantMessages (foldl (parseLine now') (result', seen) lines).1.
Proof.
  revert result result' seen.
  induction lines as [|l lines IH]; intros result result' seen Hmsgs Husage; [done|].
  rewrite !parse_cons, !parseLine_step.
  destruct (assistantLine l) as [[entry msg]|]; [|by apply IH].
  destruct (_ && _); [by apply IH|].
  apply IH; simpl.
  - by rewrite !fmap_app, Hmsgs, (lineMessages_untimed now').
  - by rewrite Husage.
Qed.

Lemma parse_stamped (now' : string) lines (acc : ParsedTranscript * gset string) :
  Forall stamped lines →
  foldl (parseLine now) acc lines = foldl (parseLine now') acc lines.
Proof.
  intros Hall. revert acc. induction Hall as [|l lines Hl _ IH]; intros [result seen];
    [done|].
  rewrite !parse_cons, !parseLine_step, (lineMessages_stamped now' l Hl).
  apply IH.
Qed.

(** X3.  A transcript is append-only.  Read at one time and read again,
    extended by further lines, at another, the messages of the first
    reading are a prefix of those of the second, up to the timestamps of
    messages whose entry has none (these carry the time of the reading):
    uuid, text and model agree, and the messages themselves agree when the
    two readings have the same time or every assistant entry of the file
    has a timestamp. *)
Theorem parse_append_only (now' : string) lines more (path : string) :
  untimed <$> assistantMessages (parseTranscriptFile (oneFile lines) now path)
  `prefix_of`
  untimed <$> assistantMessages
                (parseTranscriptFile (oneFile (lines ++ more)) now' path) ∧
  (now = now' ∨ Forall stamped lines →
   assistantMessages (parseTranscriptFile (oneFile lines) now path)
   `prefix_of`
   assistantMessages (parseTranscriptFile (oneFile (lines ++ more)) now' path)).
Proof.
  rewrite !parseTranscriptFile_oneFile, foldl_app. split.
  - rewrite (parse_clock now' lines emptyTranscript emptyTranscript ∅) by done.
    destruct (foldl (parseLine now') (emptyTranscript, ∅) lines) as [result seen].
    destruct (parse_messages_prefix now' more result seen) as [k ->].
    rewrite fmap_app. by apply prefix_app_r.
  - intros Hsame.
    assert (foldl (parseLine now) (emptyTranscript, ∅) lines
            = foldl (parseLine now') (emptyTranscript, ∅) lines) as ->.
    { destruct Hsame as [<-|Hst]; [done|]. by apply parse_stamped. }
    destruct (foldl (parseLine now') (emptyTranscript, ∅) lines) as [result seen].
    apply parse_messages_prefix.
Qed.

(** X4.  One turn per entry id: the parsed messages that carry a non-empty
    uuid are exactly the messages of the first assistant line with that
    uuid, that is, its non-empty text parts that precede any [null] part;
    later lines with that uuid add nothing. *)
Theorem parse_one_turn_per_uuid lines1 lines2 l (path : string) :
  lineUuid l ≠ EmptyString → lineUuid l ∉ assistantUuids lines1 →
  filter (λ m, uuid m = lineUuid l)
    (assistantMessages
       (parseTranscriptFile (oneFile (lines1 ++ l :: lines2)) now path))
  = lineMessages now l.
Proof.
  intros Hne Hnotin. rewrite parseTranscriptFile_oneFile, foldl_app, parse_cons.
  destruct (parse_messages_new now lines1 emptyTranscript ∅) as (new1 & Heq1 & Hnew1).
  pose proof (parse_seen now lines1 emptyTranscript ∅) as Hseen.
  destruct (foldl (parseLine now) (emptyTranscript, ∅) lines1) as [result seen].
  simpl in Heq1, Hseen.
  rewrite parseLine_fresh by (right; rewrite Hseen; set_solver).
  rewrite (proj2 (truthy_string_true _) Hne).
  match goal with
  | |- context [foldl _ (?r, ?s) lines2] =>
      destruct (parse_messages_new now lines2 r s) as (new2 & -> & Hnew2)
  end.
  simpl. rewrite Heq1. simpl. rewrite !filter_app.
  rewrite (filter_none _ new1), (filter_none _ new2), app_nil_r.
  - simpl. apply filter_all. intros m Hm.
    by apply lineMessages_uuid in Hm as [? _].
  - intros m Hm Hu. destruct (Hnew2 m Hm) as [_ [?|[_ Hfresh]]]; [congruence|].
    apply Hfresh. rewrite Hu. set_solver.
  - intros m Hm Hu. destruct (Hnew1 m Hm) as [_ [?|[? _]]]; [congruence|].
    apply Hnotin. by rewrite <- Hu.
Qed.

(** X5.  Every parsed message has a non-empty text, and its uuid is empty
    or is the uuid of an assistant line of the file. *)
Theorem parse_messages_wellformed lines (path : string) (m : AssistantMessage) :
  m ∈ assistantMessages (parseTranscriptFile (oneFile lines) now path) →
  text m ≠ [] ∧ (uuid m = EmptyString ∨ uuid m ∈ assistantUuids lines).
Proof.
  rewrite parseTranscriptFile_oneFile.
  destruct (parse_messages_new now lines emptyTranscript ∅) as (new & -> & Hnew).
  simpl. intros Hm. destruct (Hnew m Hm) as [? [?|[? _]]]; auto.
Qed.

(** Without a repeated uuid, the loop goes through every line. *)
Lemma parse_distinct lines result seen :
  NoDup (filter (λ u, u ≠ EmptyString) (lineUuid <$> lines)) →
  (∀ u, u ∈ assistantUuids lines → u ∉ seen) →
  (foldl (parseLine now) (result, seen) lines).1 =
  {| assistantMessages :=
       assistantMessages result ++ concat (lineMessages now <$> lines);
     tokenUsage := foldl lineAddUsage (tokenUsage result) lines |}.
Proof.
  revert result seen. induction lines as [|l lines IH]; intros result seen Hnd Hfresh.
  - simpl. rewrite app_nil_r. by destruct result.
  - rewrite fmap_cons, filter_cons in Hnd.
    rewrite assistantUuids_cons in Hfresh.
    rewrite parse_cons, parseLine_fresh.
    + rewrite IH.
      * rewrite !fmap_cons. simpl. by rewrite <- app_assoc.
      * destruct (decide (lineUuid l ≠ EmptyString)); [|done].
        by apply NoDup_cons in Hnd as [_ ?].
      * intros u Hu.
        destruct (truthy_string (lineUuid l)) eqn:E; [|apply Hfresh; set_solver].
        apply truthy_string_true in E. rewrite decide_True in Hnd by done.
        apply NoDup_cons in Hnd as [Hnotin _].
        rewrite not_elem_of_union. split; [|apply Hfresh; set_solver].
        intros ->%elem_of_singleton. apply Hnotin.
        by apply elem_of_list_to_set in Hu.
    + destruct (truthy_string (lineUuid l)) eqn:E.
      * right. apply Hfresh. set_solver.
      * left. by apply truthy_string_false.
Qed.

(** X6.  When no non-empty uuid repeats among the assistant lines, every
    assistant line contributes its text parts, in file order, up to a
    [null] part, and, unless it has a [null] part, its usage block: input,
    cache reads and cache writes are added up, as binary64 numbers, line
    by line into the input total, and the output into the output total.
    When no count is negative and both totals are at most 2^53, the totals
    are the exact sums. *)
Theorem parse_distinct_uuids lines (path : string) :
  NoDup (filter (λ u, u ≠ EmptyString) (lineUuid <$> lines)) →
  parseTranscriptFile (oneFile lines) now path =
  {| assistantMessages := concat (lineMessages now <$> lines);
     tokenUsage := foldl lineAddUsage {| input := 0; output := 0 |} lines |} ∧
  (Forall lineNonneg lines →
   sumZ (lineInput <$> lines) ≤ 2 ^ 53 → sumZ (lineOutput <$> lines) ≤ 2 ^ 53 →
   tokenUsage (parseTranscriptFile (oneFile lines) now path)
   = {| input := sumZ (lineInput <$> lines);
        output := sumZ (lineOutput <$> lines) |}).
Proof.
  intros Hnd. rewrite parseTranscriptFile_oneFile.
  rewrite parse_distinct; [|done|intros u _; set_solver].
  split; [done|]. intros Hall Hin Hout. simpl.
  rewrite lineAddUsage_exact; simpl; done || lia.
Qed.

End Parser.


(** X2, instance: the entry of uuid u1 read a second time, with another
    text and another usage. *)
Lemma parse_duplicate_line_witness :
  parseTranscriptFile (oneFile ([Parsed entry_u1] ++ Parsed entry_u1_again :: []))
                      "now" "t.jsonl"
  = parseTranscriptFile (oneFile ([Parsed entry_u1] ++ [])) "now" "t.jsonl".
Proof.
  apply (parse_duplicate_line "now" [Parsed entry_u1] [] (Parsed entry_u1_again)
           "t.jsonl").
  - discriminate.
  - apply (bool_decide_unpack _). by vm_compute.
Defined.

(** X4, instance: of the entry of uuid u3, whose second part is [null],
    the text of the first part is parsed, and nothing of the later entry
    of the same uuid. *)
Lemma parse_one_turn_per_uuid_witness :
  filter (λ m, uuid m = lineUuid (Parsed entry_u3))
    (assistantMessages
       (parseTranscriptFile
          (oneFile ([Parsed entry_user] ++ Parsed entry_u3 :: [Parsed entry_u3_retry]))
          "now" "t.jsonl"))
  = lineMessages "now" (Parsed entry_u3) ∧
  text <$> lineMessages "now" (Parsed entry_u3) = [js "kept"].
Proof.
  split; [|reflexivity].
  apply (parse_one_turn_per_uuid "now" [Parsed entry_user]
           [Parsed entry_u3_retry] (Parsed entry_u3) "t.jsonl").
  - discriminate.
  - apply (bool_decide_unpack _). by vm_compute.
Defined.

(** X5, instance: the message of the entry without uuid. *)
Lemma parse_messages_wellformed_witness :
  text message_no_uuid ≠ [] ∧
  (uuid message_no_uuid = EmptyString ∨
   uuid message_no_uuid ∈ assistantUuids [Parsed entry_nouuid]).
Proof.
  apply (parse_messages_wellformed "now" [Parsed entry_nouuid] "t.jsonl"
           message_no_uuid).
  apply list_elem_of_here.
Defined.

(** X6, instance: a transcript whose uuids are u0, u1, u3 and none; the
    entry of uuid u3 has a [null] part and adds no usage. *)
Lemma parse_distinct_uuids_witness :
  tokenUsage
    (parseTranscriptFile
       (oneFile [Parsed entry_user; Parsed entry_u1; Parsed entry_u3;
                 Parsed entry_nouuid]) "now" "t.jsonl")
  = {| input := sumZ (lineInput <$> [Parsed entry_user; Parsed entry_u1;
                                     Parsed entry_u3; Parsed entry_nouuid]);
       output := sumZ (lineOutput <$> [Parsed entry_user; Parsed entry_u1;
                                       Parsed entry_u3; Parsed entry_nouuid]) |} ∧
  sumZ (lineInput <$> [Parsed entry_user; Parsed entry_u1;
                       Parsed entry_u3; Parsed entry_nouuid]) = 200.
Proof.
  split; [|reflexivity].
  refine (proj2 (parse_distinct_uuids "now"
            [Parsed entry_user; Parsed entry_u1; Parsed entry_u3;
             Parsed entry_nouuid] "t.jsonl" _) _ _ _).
  - apply (bool_decide_unpack _). by vm_compute.
  - repeat constructor; by vm_compute.
  - by vm_compute.
  - by vm_compute.
Defined.

(** From 2^53 on the totals are rounded as binary64 rounds them. *)
Example parse_totals_rounded :
  add64 (2 ^ 53) 1 = 2 ^ 53 ∧ add64 (2 ^ 53) 3 = 2 ^ 53 + 4.
Proof. split; reflexivity. Qed.

(** The entry of uuid u3 followed by a later entry of the same uuid: the
    text before the [null] part is kept, the usage of the entry is not
    added, and the later entry is skipped as a duplicate. *)
Example parse_null_part :
  parseTranscriptFile (oneFile [Parsed entry_u3; Parsed entry_u3_retry])
                      "now" "t.jsonl"
  = {| assistantMessages :=
         [ {| uuid := "u3"; text := js "kept"; timestamp := "now"; model := None |} ];
       tokenUsage := {| input := 0; output := 0 |} |}.
Proof. reflexivity. Qed.

(* ===================================================================== *)
(** ** More on the hook command *)
(* ===================================================================== *)

Section HookMore.

Implicit Types (env : Env) (d : SessionState) (sid : string) (event : HookEvent).

(** A UserPromptSubmit invocation, whatever the collector answers: it stops
    after its first save when the title update is refused, and after its
    second save otherwise. *)
Lemma UserPromptSubmit_run env (data : HookUserPromptData) d :
  enabled env →
  let sid := prompt_session_id data in
  let title := syncSession (sessionTitle sid (generateTitle (prompt data))) in
  let message := syncMessage (promptMessage env data) in
  if firstPromptRecorded (accumulator sid d) then
    invoke env (UserPromptSubmit data) d =
    ({| exit_code := 0;
        logged := if collector env [] message then None
                  else Some (SyncFailed message) |},
     {| disk := <[sid := promptCounted data d]> d; requests := [message] |})
  else if collector env [] title then
    invoke env (UserPromptSubmit data) d =
    ({| exit_code := 0;
        logged := if collector env [title] message then None
                  else Some (SyncFailed message) |},
     {| disk := <[sid := promptCounted data d]> d; requests := [title; message] |})
  else
    invoke env (UserPromptSubmit data) d =
    ({| exit_code := 0; logged := Some (SyncFailed title) |},
     {| disk := <[sid := promptRecorded data d]> d; requests := [title] |}).
Proof.
  intros Hen sid title message. subst sid title message.
  unfold invoke, promptCounted, promptRecorded, firstPromptRecorded, accumulator,
    promptMessage.
  destruct (hook_enabled env (UserPromptSubmit data) {| disk := d; requests := [] |} Hen)
    as (cfg & _ & ->).
  unfold dispatch, loadSessionState, hookUserPromptSubmit, mbind, M_bind.
  cbn [disk].
  destruct (firstPrompt (default emptyEntry (d !! prompt_session_id data)))
    as [p|] eqn:Hp; [destruct (truthy_jsstring p) eqn:Htruthy|];
    unfold saveSessionState, await, mret, M_ret; cbn -[insert];
    repeat match goal with
           | |- context [collector env ?h ?r] =>
               destruct (collector env h r); cbn -[insert]
           end;
    rewrite ?insert_insert_eq, ?Hp; reflexivity.
Qed.

Lemma SessionStart_run env (data : HookSessionStartData) d :
  enabled env →
  invoke env (SessionStart data) d =
  ({| exit_code := 0;
      logged := if collector env [] (syncSession (startSession env data)) then None
                else Some (SyncFailed (syncSession (startSession env data))) |},
   {| disk := <[start_session_id data := startEntry data]> d;
      requests := [syncSession (startSession env data)] |}).
Proof.
  intros Hen. unfold invoke.
  destruct (hook_enabled env (SessionStart data) {| disk := d; requests := [] |} Hen)
    as (cfg & _ & ->).
  unfold dispatch, loadSessionState, hookSessionStart, mbind, M_bind,
    saveSessionState, await, startSession, startEntry. cbn -[insert].
  by destruct (collector env [] _).
Qed.

Lemma PostToolUse_run env (data : HookToolUseData) d :
  enabled env →
  invoke env (PostToolUse data) d =
  if toolCallsOn env then
    ({| exit_code := 0;
        logged := if collector env [] (syncMessage (toolMessage env data)) then None
                  else Some (SyncFailed (syncMessage (toolMessage env data))) |},
     {| disk := d; requests := [syncMessage (toolMessage env data)] |})
  else ({| exit_code := 0; logged := None |}, {| disk := d; requests := [] |}).
Proof.
  intros Hen. unfold invoke, toolCallsOn.
  destruct (hook_enabled env (PostToolUse data) {| disk := d; requests := [] |} Hen)
    as (cfg & -> & ->).
  unfold dispatch, loadSessionState, hookPostToolUse, mbind, M_bind, await,
    mret, M_ret, toolMessage. cbn [disk requests app].
  destruct (bool_decide (syncToolCalls cfg = Some true)); simpl; [|done].
  by destruct (collector env [] _).
Qed.

(** Whatever the collector answers, the requests of an invocation are an
    initial part of the requests the event issues when it runs to its end. *)
Lemma invoke_requests_prefix env event d :
  requests (invoke env event d).2 `prefix_of` allRequests env event d.
Proof.
  destruct (enabled_or_not env) as [Hen|Hoff];
    [|rewrite hook_disabled by done; apply prefix_nil].
  destruct event as [data|data|data|data|data|name]; simpl.
  - by rewrite SessionStart_run.
  - rewrite SessionEnd_run by done. by destruct (collector env [] _).
  - pose proof (UserPromptSubmit_run env data d Hen) as Hrun. cbv zeta in Hrun.
    unfold promptRequests.
    destruct (firstPromptRecorded _); [by rewrite Hrun|].
    destruct (collector env [] _); rewrite Hrun; simpl; [done|].
    by apply prefix_cons, prefix_nil.
  - rewrite PostToolUse_run by done. by destruct (toolCallsOn env).
  - destruct (acceptsAll env [] (stopMessages env data d)) eqn:Hacc.
    + by rewrite Stop_run_ok.
    + destruct (Stop_run_fail env data d Hen Hacc) as (rs & r & -> & Hpre & _).
      simpl. by apply prefix_app_r.
  - unfold invoke, hook. destruct (config env); [|done].
    by destruct (bool_decide _).
Qed.

(** X7.  Every request an invocation issues is about the session of its
    event: a Session record carries the event's session identifier as its
    [sessionId], a Message record as its [sessionId] too. *)
Theorem requests_carry_event_session env event d (r : Request) :
  r ∈ requests (invoke env event d).2 →
  eventSession event = Some (requestSession r).
Proof.
  intros Hr.
  assert (r ∈ allRequests env event d) as Hin.
  { destruct (invoke_requests_prefix env event d) as [k ->].
    apply elem_of_app. by left. }
  clear Hr. destruct event as [data|data|data|data|data|name]; simpl in *.
  - by apply list_elem_of_singleton in Hin as ->.
  - by apply list_elem_of_singleton in Hin as ->.
  - unfold promptRequests in Hin.
    apply elem_of_app in Hin as [Hin|Hin%list_elem_of_singleton]; [|by subst r].
    destruct (firstPromptRecorded _); [by apply elem_of_nil in Hin|].
    by apply list_elem_of_singleton in Hin as ->.
  - destruct (toolCallsOn env); [|by apply elem_of_nil in Hin].
    by apply list_elem_of_singleton in Hin as ->.
  - apply elem_of_app in Hin as [Hin|Hin%list_elem_of_singleton]; [|by subst r].
    unfold stopMessages in Hin. apply list_elem_of_fmap in Hin as (msg & -> & _).
    done.
  - by apply elem_of_nil in Hin.
Qed.

(** The state file after an invocation, for the sessions the event is not
    about. *)
Lemma invoke_disk_cases env event d :
  disk (invoke env event d).2 = d ∨
  ∃ sid, eventSession event = Some sid ∧
    (disk (invoke env event d).2 = delete sid d ∨
     ∃ state, disk (invoke env event d).2 = <[sid := state]> d).
Proof.
  destruct (enabled_or_not env) as [Hen|Hoff];
    [|left; by rewrite hook_disabled].
  destruct event as [data|data|data|data|data|name]; simpl.
  - right. eexists. split; [done|]. right. eexists. by rewrite SessionStart_run.
  - rewrite SessionEnd_run by done.
    destruct (collector env [] _); [|by left].
    right. eexists. split; [done|]. by left.
  - right. eexists. split; [done|]. right.
    pose proof (UserPromptSubmit_run env data d Hen) as Hrun. cbv zeta in Hrun.
    destruct (firstPromptRecorded _); [rewrite Hrun; by eexists|].
    destruct (collector env [] _); rewrite Hrun; by eexists.
  - left. by rewrite PostToolUse_run; [destruct (toolCallsOn env)|].
  - destruct (Stop_disk env data d) as [->| ->]; [by left|].
    right. eexists. split; [done|]. right. by eexists.
  - left. apply UnknownEvent_disk.
Qed.

(** X8.  An invocation never touches the accumulator of a session other
    than the one its event is about. *)
Theorem invoke_other_sessions_untouched env event d sid :
  eventSession event ≠ Some sid →
  disk (invoke env event d).2 !! sid = d !! sid.
Proof.
  intros Hne.
  destruct (invoke_disk_cases env event d)
    as [->|(sid' & Hev & [->|(state & ->)])]; [done| |].
  - apply lookup_delete_ne. congruence.
  - apply lookup_insert_ne. congruence.
Qed.

Lemma invoke_accumulator_other env event d sid :
  eventSession event ≠ Some sid →
  accumulator sid (disk (invoke env event d).2) = accumulator sid d.
Proof.
  intros Hne. unfold accumulator.
  destruct (invoke_disk_cases env event d)
    as [->|(sid' & Hev & [->|(state & ->)])]; [done| |].
  - rewrite lookup_delete_ne; [done|congruence].
  - rewrite lookup_insert_ne; [done|congruence].
Qed.

Lemma stopState_model env (data : HookStopData) d :
  state_model (stopState env data d)
  = state_model (accumulator (stop_session_id data) d).
Proof.
  unfold stopState. destruct (stopTranscript env data) as [tr|]; [|done].
  simpl. destruct (length _); simpl; unfold stopUsage; by destruct (_ || _).
Qed.

Lemma stopState_firstPrompt env (data : HookStopData) d :
  firstPrompt (stopState env data d)
  = firstPrompt (accumulator (stop_session_id data) d).
Proof.
  unfold stopState. destruct (stopTranscript env data) as [tr|]; [|done].
  simpl. destruct (length _); simpl; unfold stopUsage; by destruct (_ || _).
Qed.

(** One invocation that neither starts nor ends the session keeps its model
    and a recorded first prompt. *)
Lemma invoke_keeps env event d sid :
  ¬ resets sid event →
  state_model (accumulator sid (disk (invoke env event d).2))
    = state_model (accumulator sid d) ∧
  (firstPromptRecorded (accumulator sid d) = true →
   firstPrompt (accumulator sid (disk (invoke env event d).2))
     = firstPrompt (accumulator sid d)).
Proof.
  intros Hno.
  destruct (decide (eventSession event = Some sid)) as [Hev|Hne];
    [|by rewrite invoke_accumulator_other].
  destruct (enabled_or_not env) as [Hen|Hoff]; [|by rewrite hook_disabled].
  destruct event as [data|data|data|data|data|name]; simpl in *;
    try (by destruct Hno; congruence).
  - injection Hev as <-.
    pose proof (UserPromptSubmit_run env data d Hen) as Hrun. cbv zeta in Hrun.
    unfold promptCounted, promptRecorded in Hrun.
    destruct (firstPromptRecorded (accumulator (prompt_session_id data) d)) eqn:Hrec.
    + rewrite Hrun. simpl. by rewrite accumulator_insert.
    + destruct (collector env [] _); rewrite Hrun; simpl;
        by rewrite accumulator_insert.
  - by rewrite PostToolUse_disk.
  - injection Hev as <-.
    destruct (Stop_disk env data d) as [->| ->]; [done|].
    by rewrite accumulator_insert, stopState_model, stopState_firstPrompt.
Qed.

Lemma run_keeps_first sid d (events : list (Env * HookEvent)) :
  Forall (λ e, ¬ resets sid e.2) events →
  firstPromptRecorded (accumulator sid d) = true →
  firstPrompt (accumulator sid (run d events)) = firstPrompt (accumulator sid d).
Proof.
  intros Hall. revert d.
  induction Hall as [|[env event] events Hno _ IH]; intros d Hrec; simpl; [done|].
  destruct (invoke_keeps env event d sid Hno) as [_ Hfirst].
  rewrite IH, Hfirst; [done|done|].
  unfold firstPromptRecorded in *. by rewrite Hfirst.
Qed.

(** X9.  The model and a recorded first prompt of a session are kept by
    every sequence of events that contains no SessionStart and no
    SessionEnd of the session: the first prompt is set once. *)
Theorem run_keeps_model_and_firstPrompt sid d (events : list (Env * HookEvent)) :
  Forall (λ e, ¬ resets sid e.2) events →
  state_model (accumulator sid (run d events)) = state_model (accumulator sid d) ∧
  (firstPromptRecorded (accumulator sid d) = true →
   firstPrompt (accumulator sid (run d events)) = firstPrompt (accumulator sid d)).
Proof.
  intros Hall. revert d.
  induction Hall as [|[env event] events Hno _ IH]; intros d; simpl; [done|].
  destruct (invoke_keeps env event d sid Hno) as [Hmodel Hfirst].
  destruct (IH (disk (invoke env event d).2)) as [IHmodel IHfirst].
  split; [congruence|]. intros Hrec.
  rewrite IHfirst, Hfirst; [done|done|].
  unfold firstPromptRecorded in *. by rewrite Hfirst.
Qed.

(** X10.  A UserPromptSubmit invocation whose requests the collector
    accepts counts exactly one message, forwards the prompt as a user
    message, and records the prompt and forwards its title exactly when no
    non-empty first prompt was recorded before. *)
Theorem UserPromptSubmit_completed env (data : HookUserPromptData) d :
  enabled env → acceptsAll env [] (promptRequests env data d) = true →
  let sid := prompt_session_id data in
  let d' := disk (invoke env (UserPromptSubmit data) d).2 in
  requests (invoke env (UserPromptSubmit data) d).2 = promptRequests env data d ∧
  logged (invoke env (UserPromptSubmit data) d).1 = None ∧
  count sid d' = count sid d + 1 ∧
  (firstPromptRecorded (accumulator sid d) = true →
     firstPrompt (accumulator sid d') = firstPrompt (accumulator sid d) ∧
     promptRequests env data d = [syncMessage (promptMessage env data)]) ∧
  (firstPromptRecorded (accumulator sid d) = false →
     firstPrompt (accumulator sid d') = Some (prompt data) ∧
     promptRequests env data d =
       [syncSession (sessionTitle sid (generateTitle (prompt data)));
        syncMessage (promptMessage env data)]).
Proof.
  intros Hen Hacc sid d'. subst sid d'.
  pose proof (UserPromptSubmit_run env data d Hen) as Hrun. cbv zeta in Hrun.
  unfold promptRequests, promptCounted, promptRecorded, count in *.
  destruct (firstPromptRecorded (accumulator (prompt_session_id data) d)) eqn:Hrec;
    simpl in Hacc.
  - rewrite andb_true_r in Hacc. rewrite Hacc in Hrun. rewrite Hrun. simpl.
    rewrite accumulator_insert. simpl. by repeat split.
  - apply andb_true_iff in Hacc as [Htitle Hmsg]. rewrite andb_true_r in Hmsg.
    rewrite Htitle, Hmsg in Hrun. rewrite Hrun. simpl.
    rewrite accumulator_insert. simpl. by repeat split.
Qed.

(** X11.  The title of the final record is the title forwarded with the
    first prompt: when a UserPromptSubmit event records a non-empty first
    prompt, a SessionEnd event that follows any events that neither start
    nor end the session carries the title derived from that prompt. *)
Theorem SessionEnd_title_is_first_title env env'
    (pdata : HookUserPromptData) (edata : HookSessionEndData) d
    (events : list (Env * HookEvent)) :
  enabled env → enabled env' →
  end_session_id edata = prompt_session_id pdata →
  firstPromptRecorded (accumulator (prompt_session_id pdata) d) = false →
  prompt pdata ≠ [] →
  Forall (λ e, ¬ resets (prompt_session_id pdata) e.2) events →
  let d' := run (disk (invoke env (UserPromptSubmit pdata) d).2) events in
  requests (invoke env' (SessionEnd edata) d').2
    = [syncSession (endSession env' edata d')] ∧
  title (endSession env' edata d') = Some (generateTitle (prompt pdata)) ∧
  head (requests (invoke env (UserPromptSubmit pdata) d).2)
    = Some (syncSession (sessionTitle (prompt_session_id pdata)
                                      (generateTitle (prompt pdata)))).
Proof.
  intros Hen Hen' Hid Hrec Hprompt Hall d'.
  pose proof (UserPromptSubmit_run env pdata d Hen) as Hrun. cbv zeta in Hrun.
  rewrite Hrec in Hrun.
  assert (firstPrompt (accumulator (prompt_session_id pdata)
                         (disk (invoke env (UserPromptSubmit pdata) d).2))
          = Some (prompt pdata)) as Hfirst.
  { unfold promptCounted, promptRecorded in Hrun. rewrite Hrec in Hrun.
    destruct (collector env [] _); rewrite Hrun; simpl;
      by rewrite accumulator_insert. }
  assert (truthy_jsstring (prompt pdata) = true) as Htruthy
    by (by destruct (prompt pdata)).
  pose proof (run_keeps_first _
    (disk (invoke env (UserPromptSubmit pdata) d).2) events Hall) as Hkeep.
  split; [|split].
  - rewrite SessionEnd_run by done. by destruct (collector env' [] _).
  - unfold endSession. rewrite Hid. subst d'.
    unfold firstPromptRecorded. rewrite Hkeep, Hfirst; [by rewrite Htruthy|].
    unfold firstPromptRecorded. by rewrite Hfirst.
  - by destruct (collector env [] _); rewrite Hrun.
Qed.



(** X13.  A PostToolUse invocation never changes the state file, whatever
    the environment: tool calls are forwarded but not counted.  It issues
    at most one request, and only when the configuration asks for tool
    calls: a Message record of role assistant that names the tool, has no
    text content, and is identified by the tool-use id when the event
    carries a non-empty one. *)
Theorem PostToolUse_forwards_only env (data : HookToolUseData) d :
  disk (invoke env (PostToolUse data) d).2 = d ∧
  (length (requests (invoke env (PostToolUse data) d).2) ≤ 1)%nat ∧
  ∀ r, r ∈ requests (invoke env (PostToolUse data) d).2 →
    toolCallsOn env = true ∧
    ∃ m, r = syncMessage m ∧ role m = assistant ∧
         message_sessionId m = tool_session_id data ∧
         toolName m = Some (tool_name data) ∧ message_content m = None ∧
         (∀ id, tool_use_id data = Some id → id ≠ EmptyString → messageId m = id).
Proof.
  destruct (enabled_or_not env) as [Hen|Hoff].
  - rewrite PostToolUse_run by done.
    destruct (toolCallsOn env); simpl.
    + split; [done|]. split; [lia|]. intros r ->%list_elem_of_singleton.
      split; [done|]. eexists. split; [done|]. simpl. repeat split.
      intros id -> Hid. unfold or_string. simpl.
      by rewrite (proj2 (truthy_string_true id) Hid).
    + split; [done|]. split; [lia|]. by intros r ?%elem_of_nil.
  - rewrite hook_disabled by done. simpl.
    split; [done|]. split; [lia|]. by intros r ?%elem_of_nil.
Qed.

End HookMore.


(** X7, instance: the record of the start of S1. *)
Lemma requests_carry_event_session_witness :
  eventSession (SessionStart start_S1)
  = Some (requestSession (syncSession (startSession env_up start_S1))).
Proof.
  apply (requests_carry_event_session env_up (SessionStart start_S1) ∅).
  rewrite SessionStart_run by apply env_up_enabled. apply list_elem_of_here.
Defined.

(** X8, instance: a prompt of S1 leaves S2 alone. *)
Lemma invoke_other_sessions_untouched_witness :
  disk (invoke env_up (UserPromptSubmit prompt_S1) disk_S1).2 !! "S2"%string
  = disk_S1 !! "S2"%string.
Proof.
  apply (invoke_other_sessions_untouched env_up (UserPromptSubmit prompt_S1)
           disk_S1 "S2").
  discriminate.
Defined.

(** X9, instance: a prompt and a Stop event of S1. *)
Lemma run_keeps_model_and_firstPrompt_witness :
  state_model (accumulator "S1"
    (run disk_S1 [(env_up, UserPromptSubmit prompt_S1);
                  (env_up, Stop stop_with_uuid)]))
  = state_model (accumulator "S1" disk_S1) ∧
  (firstPromptRecorded (accumulator "S1" disk_S1) = true →
   firstPrompt (accumulator "S1"
     (run disk_S1 [(env_up, UserPromptSubmit prompt_S1);
                   (env_up, Stop stop_with_uuid)]))
   = firstPrompt (accumulator "S1" disk_S1)).
Proof.
  apply (run_keeps_model_and_firstPrompt "S1" disk_S1).
  repeat constructor; simpl; tauto.
Defined.

(** X10, instance: the second prompt of S1. *)
Lemma UserPromptSubmit_completed_witness :
  count "S1" (disk (invoke env_up (UserPromptSubmit prompt_S1) disk_S1).2)
  = count "S1" disk_S1 + 1.
Proof.
  refine (proj1 (proj2 (proj2
    (UserPromptSubmit_completed env_up prompt_S1 disk_S1 env_up_enabled _)))).
  reflexivity.
Defined.

(** X11, instance: the first prompt of S1, a Stop event, and the end. *)
Lemma SessionEnd_title_is_first_title_witness :
  title (endSession env_up (end_S1 None)
           (run (disk (invoke env_up (UserPromptSubmit prompt_S1) ∅).2)
                [(env_up, Stop stop_with_uuid)]))
  = Some (generateTitle (prompt prompt_S1)).
Proof.
  refine (proj1 (proj2
    (SessionEnd_title_is_first_title env_up env_up prompt_S1 (end_S1 None) ∅
       [(env_up, Stop stop_with_uuid)] env_up_enabled env_up_enabled
       eq_refl eq_refl _ _))).
  - discriminate.
  - repeat constructor; simpl; tauto.
Defined.


(* ===================================================================== *)
(** ** More on the title *)
(* ===================================================================== *)

Section TitleMore.

Implicit Types (s prompt : jsstring) (c : N).

Lemma trimStart_suffix s : trimStart s `suffix_of` s.
Proof.
  induction s as [|c s IH]; simpl; [done|].
  destruct (isWhiteSpace c); [by apply suffix_cons_r|done].
Qed.

Lemma trimStart_head s c : head (trimStart s) = Some c → isWhiteSpace c = false.
Proof.
  induction s as [|x s IH]; simpl; [done|].
  destruct (isWhiteSpace x) eqn:E; [done|]. simpl. by intros [= <-].
Qed.

Lemma trimEnd_prefix s : trimEnd s `prefix_of` s.
Proof.
  unfold trimEnd. destruct (trimStart_suffix (reverse s)) as [k Hk].
  exists (reverse k). apply (inj reverse).
  by rewrite reverse_app, !reverse_involutive.
Qed.

Lemma trimEnd_last s c : last (trimEnd s) = Some c → isWhiteSpace c = false.
Proof. unfold trimEnd. rewrite last_reverse. apply trimStart_head. Qed.

Lemma head_prefix {A} (l1 l2 : list A) (x : A) :
  l1 `prefix_of` l2 → head l1 = Some x → head l2 = Some x.
Proof. intros [k ->]. by destruct l1. Qed.

Lemma trim_head s c : head (trim s) = Some c → isWhiteSpace c = false.
Proof.
  intros Hc. apply (trimStart_head s).
  by apply (head_prefix _ _ _ (trimEnd_prefix (trimStart s))).
Qed.

Lemma trim_last s c : last (trim s) = Some c → isWhiteSpace c = false.
Proof. apply trimEnd_last. Qed.

Lemma trim_length s : (length (trim s) ≤ length s)%nat.
Proof.
  unfold trim. etrans; [apply prefix_length, trimEnd_prefix|].
  apply suffix_length, trimStart_suffix.
Qed.

Lemma trim_idempotent s : trim (trim s) = trim s.
Proof. apply trim_id; [apply trim_head|apply trim_last]. Qed.

(** The title of a prompt of more than 80 units: a part of the trimmed
    window, then the ellipsis. *)
Lemma generateTitle_long prompt :
  (80 < length prompt)%nat →
  ∃ body, generateTitle prompt = body ++ ELLIPSIS ∧
    body `prefix_of` trim (take 80 prompt) ∧
    (body = trim (take 80 prompt) ∨ (41 ≤ length body)%nat).
Proof.
  intros Hlen. unfold generateTitle. rewrite generateTitle_window.
  destruct (Z.ltb_spec 80 (Z.of_nat (length prompt))) as [_|?]; [|lia].
  set (w := trim (take 80 prompt)).
  destruct (Z.ltb_spec 40 (lastIndexOf SPACE w)) as [Hcut|_].
  - rewrite slice_0 by lia. exists (take (Z.to_nat (lastIndexOf SPACE w)) w).
    split; [done|]. split; [apply prefix_take|]. right.
    unfold lastIndexOf in *.
    destruct (lastIndexOf_from_spec SPACE w 0 (-1))
      as [[_ Heq]|(k & Hk & _ & Heq)]; rewrite Heq in *; [lia|].
    apply lookup_lt_Some in Hk. rewrite length_take. lia.
  - exists w. split; [done|]. split; [done|]. by left.
Qed.

(** X14.  A title has at most 83 code units, and at most as many as the
    prompt when the prompt has at most 80; it never starts with white
    space.  The title of a prompt of at most 80 units does not end with
    white space either and is its own title; the title of a longer prompt
    ends with the ellipsis and keeps at least 41 units of the prompt
    before it when it is cut at a space. *)
Theorem generateTitle_shape prompt :
  (length (generateTitle prompt) ≤ 83)%nat ∧
  (∀ c, head (generateTitle prompt) = Some c → isWhiteSpace c = false) ∧
  ((length prompt ≤ 80)%nat →
     (length (generateTitle prompt) ≤ length prompt)%nat ∧
     (∀ c, last (generateTitle prompt) = Some c → isWhiteSpace c = false) ∧
     generateTitle (generateTitle prompt) = generateTitle prompt) ∧
  ((80 < length prompt)%nat →
     ∃ body, generateTitle prompt = body ++ ELLIPSIS ∧
       body `prefix_of` trim (take 80 prompt) ∧
       (body = trim (take 80 prompt) ∨ (41 ≤ length body)%nat)).
Proof.
  assert (length (trim (take 80 prompt)) ≤ 80)%nat as Hw.
  { etrans; [apply trim_length|]. rewrite length_take. lia. }
  split; [|split; [|split]].
  - destruct (decide (length prompt ≤ 80)%nat) as [Hshort|Hlong].
    + rewrite generateTitle_short by done. pose proof (trim_length prompt). lia.
    + destruct (generateTitle_long prompt) as (body & -> & Hpre & _); [lia|].
      apply prefix_length in Hpre. rewrite length_app.
      change (length ELLIPSIS) with 3%nat. lia.
  - intros c. destruct (decide (length prompt ≤ 80)%nat) as [Hshort|Hlong].
    + rewrite generateTitle_short by done. apply trim_head.
    + destruct (generateTitle_long prompt) as (body & -> & Hpre & _); [lia|].
      destruct body as [|x body]; simpl.
      * by intros [= <-].
      * intros [= <-]. apply (trim_head (take 80 prompt)).
        by apply (head_prefix _ _ _ Hpre).
  - intros Hshort. rewrite generateTitle_short by done.
    split; [apply trim_length|]. split; [apply trim_last|].
    rewrite generateTitle_short by (pose proof (trim_length prompt); lia).
    apply trim_idempotent.
  - apply generateTitle_long.
Qed.

End TitleMore.

(* ===================================================================== *)
(** ** The payloads the hook command sends *)
(* ===================================================================== *)

Section Payloads.

Context (getTime : string → float).

Implicit Types (env : Env) (d : SessionState) (event : HookEvent).

(** The parser returns messages with a text, whatever the file system. *)
Lemma parseTranscriptFile_text (files : string → fsnode) (now path : string)
    (m : AssistantMessage) :
  m ∈ assistantMessages (parseTranscriptFile files now path) → text m ≠ [].
Proof.
  unfold parseTranscriptFile.
  destruct (files path) as [| |lines]; try (by intros ?%elem_of_nil).
  destruct (parse_messages_new now lines emptyTranscript ∅) as (new & -> & Hnew).
  simpl. intros Hm. by destruct (Hnew m Hm).
Qed.

(** X15.  The payloads of the partial updates carry the changed fields
    only.  The Session update of a Stop event carries the session
    identifier, the token usage and the message count of the saved
    accumulator and no other key; the title update of a UserPromptSubmit
    event carries the session identifier and the title and no other key.
    Neither can overwrite what the other one wrote. *)
Theorem partial_updates env (sdata : HookStopData) (pdata : HookUserPromptData) d
    (s : SessionData) :
  (enabled env → syncSession s ∈ requests (invoke env (Stop sdata) d).2 →
   transformSession getTime s =
   {| externalId := stop_session_id sdata;
      payload_title := None; payload_projectPath := None;
      payload_projectName := None; payload_model := None;
      promptTokens := input <$> state_tokenUsage (stopState env sdata d);
      completionTokens := output <$> state_tokenUsage (stopState env sdata d);
      cost := None;
      payload_messageCount := messageCount (stopState env sdata d);
      payload_toolCallCount := None; payload_endReason := None;
      payload_durationMs := None |}) ∧
  (syncSession s ∈ requests (invoke env (UserPromptSubmit pdata) d).2 →
   transformSession getTime s =
   {| externalId := prompt_session_id pdata;
      payload_title := Some (generateTitle (prompt pdata));
      payload_projectPath := None; payload_projectName := None;
      payload_model := None; promptTokens := None; completionTokens := None;
      cost := None; payload_messageCount := None;
      payload_toolCallCount := None; payload_endReason := None;
      payload_durationMs := None |}).
Proof.
  split.
  - intros Hen Hin. destruct (Stop_session_last env sdata d s Hen Hin) as (Hs & _).
    unfold stopSession in Hs. by injection Hs as ->.
  - intros Hin.
    assert (syncSession s ∈ promptRequests env pdata d) as Hin'.
    { destruct (invoke_requests_prefix env (UserPromptSubmit pdata) d) as [k Hk].
      simpl in Hk. rewrite Hk. apply elem_of_app. by left. }
    unfold promptRequests in Hin'.
    apply elem_of_app in Hin' as [Hin'|Hin'%list_elem_of_singleton]; [|done].
    destruct (firstPromptRecorded _); [by apply elem_of_nil in Hin'|].
    apply list_elem_of_singleton in Hin'. by injection Hin' as ->.
Qed.

(** X16.  No Session payload of the hook command carries a duration: no
    record it builds has both a start and an end time. *)
Theorem hook_never_sends_duration env event d (s : SessionData) :
  syncSession s ∈ requests (invoke env event d).2 →
  payload_durationMs (transformSession getTime s) = None.
Proof.
  intros Hr.
  assert (syncSession s ∈ allRequests env event d) as Hin.
  { destruct (invoke_requests_prefix env event d) as [k ->].
    apply elem_of_app. by left. }
  clear Hr. destruct event as [data|data|data|data|data|name]; simpl in *.
  - apply list_elem_of_singleton in Hin. by injection Hin as ->.
  - apply list_elem_of_singleton in Hin. by injection Hin as ->.
  - unfold promptRequests in Hin.
    apply elem_of_app in Hin as [Hin|Hin%list_elem_of_singleton]; [|done].
    destruct (firstPromptRecorded _); [by apply elem_of_nil in Hin|].
    apply list_elem_of_singleton in Hin. by injection Hin as ->.
  - destruct (toolCallsOn env); [|by apply elem_of_nil in Hin].
    by apply list_elem_of_singleton in Hin.
  - apply elem_of_app in Hin as [Hin|Hin%list_elem_of_singleton].
    + unfold stopMessages in Hin. by apply list_elem_of_fmap in Hin as (? & ? & ?).
    + unfold stopSession in Hin. by injection Hin as ->.
  - by apply elem_of_nil in Hin.
Qed.

(** X17.  Every assistant message a Stop event forwards reaches the
    collector with its text as text content, which is never empty, with
    the uuid of its entry as external identifier when it has one, and
    without parts. *)
Theorem Stop_message_payloads env (data : HookStopData) d (r : Request) :
  r ∈ requests (invoke env (Stop data) d).2 →
  (∃ s, r = syncSession s) ∨
  ∃ msg, msg ∈ stopForwarded env data d ∧
    r = syncMessage (assistantMessage env (stop_session_id data) msg) ∧
    text msg ≠ [] ∧
    textContent (transformMessage None (assistantMessage env (stop_session_id data) msg))
      = Some (inl (text msg)) ∧
    parts (transformMessage None (assistantMessage env (stop_session_id data) msg))
      = None ∧
    (uuid msg ≠ EmptyString →
     message_externalId
       (transformMessage None (assistantMessage env (stop_session_id data) msg))
     = uuid msg).
Proof.
  intros Hr.
  assert (r ∈ allRequests env (Stop data) d) as Hin.
  { destruct (invoke_requests_prefix env (Stop data) d) as [k ->].
    apply elem_of_app. by left. }
  simpl in Hin. apply elem_of_app in Hin as [Hin|Hin%list_elem_of_singleton].
  - right. unfold stopMessages in Hin.
    apply list_elem_of_fmap in Hin as (msg & -> & Hmsg).
    exists msg. split; [done|]. split; [done|].
    assert (text msg ≠ []) as Htext.
    { unfold stopForwarded, stopTranscript in Hmsg.
      destruct (truthy_opt_string (transcript_path data));
        [|by apply elem_of_nil in Hmsg].
      apply newMessages_elem_of in Hmsg. by eapply parseTranscriptFile_text. }
    split; [done|]. unfold transformMessage. simpl.
    destruct (text msg) as [|c t] eqn:E; [done|]. simpl.
    split; [done|]. split; [done|].
    intros Hu. by rewrite (proj2 (truthy_string_true _) Hu).
  - left. by eexists.
Qed.

(** X18.  The message of a PostToolUse event, so long as the tool has a
    name, reaches the collector without text content and with the tool
    call as its first part.  The tool call is followed by exactly one
    tool-result part when the event has a non-empty output or a non-empty
    error, carrying the output if that is non-empty and the error
    otherwise, and by nothing when the event has neither. *)
Theorem PostToolUse_payload env (data : HookToolUseData) :
  tool_name data ≠ EmptyString →
  let call := part_tool_call (tool_name data) (tool_input data) in
  let output := tool_result data ≫= tool_output in
  let error := tool_result data ≫= tool_error in
  textContent (transformMessage None (toolMessage env data)) = None ∧
  (∀ out, output = Some out → out ≠ EmptyString →
     parts (transformMessage None (toolMessage env data))
     = Some [call; part_tool_result out]) ∧
  (output = None ∨ output = Some EmptyString →
   ∀ err, error = Some err → err ≠ EmptyString →
     parts (transformMessage None (toolMessage env data))
     = Some [call; part_tool_result err]) ∧
  (output = None ∨ output = Some EmptyString →
   error = None ∨ error = Some EmptyString →
     parts (transformMessage None (toolMessage env data)) = Some [call]).
Proof.
  intros Hname call output error. subst call output error.
  unfold transformMessage, toolMessage. simpl.
  rewrite (proj2 (truthy_string_true _) Hname). simpl.
  rewrite andb_false_r. split; [done|]. unfold or_string.
  split; [|split].
  - intros out -> Hout. simpl.
    by rewrite !(proj2 (truthy_string_true _) Hout).
  - intros Hno err -> Herr.
    destruct Hno as [-> | ->]; simpl;
      by rewrite !(proj2 (truthy_string_true _) Herr).
  - intros [-> | ->] [-> | ->]; done.
Qed.

End Payloads.


(** X16, instance: the record of the start of S1. *)
Lemma hook_never_sends_duration_witness :
  payload_durationMs
    (transformSession (λ _, 0%float) (startSession env_up start_S1)) = None.
Proof.
  apply (hook_never_sends_duration (λ _, 0%float) env_up
           (SessionStart start_S1) ∅).
  rewrite SessionStart_run by apply env_up_enabled. apply list_elem_of_here.
Defined.

(** X17, instance: the message of uuid u1 forwarded at the Stop event. *)
Lemma Stop_message_payloads_witness :
  (∃ s, syncMessage (assistantMessage env_up "S1" message_u1) = syncSession s) ∨
  ∃ msg, msg ∈ stopForwarded env_up stop_with_uuid disk_S1 ∧
    syncMessage (assistantMessage env_up "S1" message_u1)
      = syncMessage (assistantMessage env_up (stop_session_id stop_with_uuid) msg) ∧
    text msg ≠ [] ∧
    textContent (transformMessage None
                   (assistantMessage env_up (stop_session_id stop_with_uuid) msg))
      = Some (inl (text msg)) ∧
    parts (transformMessage None
             (assistantMessage env_up (stop_session_id stop_with_uuid) msg))
      = None ∧
    (uuid msg ≠ EmptyString →
     message_externalId
       (transformMessage None
          (assistantMessage env_up (stop_session_id stop_with_uuid) msg))
     = uuid msg).
Proof.
  apply (Stop_message_payloads env_up stop_with_uuid disk_S1).
  apply (list_elem_of_here (syncMessage (assistantMessage env_up "S1" message_u1))).
Defined.

(** X18, instance: the tool call of S1, which printed ok. *)
Lemma PostToolUse_payload_witness :
  parts (transformMessage None (toolMessage env_up tool_S1))
  = Some [part_tool_call "Bash" None; part_tool_result "ok"].
Proof.
  refine (proj1 (proj2 (PostToolUse_payload env_up tool_S1 _)) "ok"%string _ _).
  - discriminate.
  - reflexivity.
  - discriminate.
Defined.

(* ===================================================================== *)
(** ** The session-state file *)
(* ===================================================================== *)

Section Store.

Implicit Types (x : string) (s array : list string).

Lemma Set_add_elem_of x y s : y ∈ Set_add x s ↔ y = x ∨ y ∈ s.
Proof.
  unfold Set_add. destruct (bool_decide_reflect (x ∈ s)).
  - split; [by right|]. by intros [->|?].
  - rewrite elem_of_app, list_elem_of_singleton. tauto.
Qed.

Lemma Set_add_NoDup x s : NoDup s → NoDup (Set_add x s).
Proof.
  intros Hnd. unfold Set_add. destruct (bool_decide_reflect (x ∈ s)); [done|].
  apply NoDup_app. split; [done|]. split; [|apply NoDup_singleton].
  intros y Hy ->%list_elem_of_singleton. done.
Qed.

(** Adding the elements of an array to a set. *)
Lemma foldl_Set_add array s :
  NoDup s →
  NoDup (foldl (λ s x, Set_add x s) s array) ∧
  (∀ y, y ∈ foldl (λ s x, Set_add x s) s array ↔ y ∈ s ∨ y ∈ array) ∧
  ((∀ y, y ∈ array → y ∉ s) → NoDup array →
   foldl (λ s x, Set_add x s) s array = s ++ array).
Proof.
  revert s. induction array as [|x array IH]; intros s Hnd; simpl.
  - split; [done|]. split; [intros y; rewrite elem_of_nil; tauto|].
    intros _ _. by rewrite app_nil_r.
  - destruct (IH (Set_add x s) (Set_add_NoDup x s Hnd)) as (IHnd & IHin & IHeq).
    split; [done|]. split.
    + intros y. rewrite IHin, Set_add_elem_of, elem_of_cons. tauto.
    + intros Hfresh [Hx Harr]%NoDup_cons.
      assert (Set_add x s = s ++ [x]) as Hadd.
      { unfold Set_add. rewrite bool_decide_eq_false_2; [done|].
        apply Hfresh. left. }
      rewrite IHeq, Hadd; [by rewrite <- app_assoc| |done].
      intros y Hy. rewrite Hadd, elem_of_app, list_elem_of_singleton.
      intros [Hs| ->]; [|done]. apply (Hfresh y); [by right|done].
Qed.

Lemma new_Set_NoDup array : NoDup (new_Set array).
Proof. apply foldl_Set_add. constructor. Qed.

Lemma new_Set_elem_of array x : x ∈ new_Set array ↔ x ∈ array.
Proof.
  unfold new_Set. destruct (foldl_Set_add array [] (NoDup_nil_2)) as (_ & Hin & _).
  rewrite Hin, elem_of_nil. tauto.
Qed.

Lemma new_Set_id s : NoDup s → new_Set s = s.
Proof.
  intros Hnd. unfold new_Set.
  destruct (foldl_Set_add s [] (NoDup_nil_2)) as (_ & _ & Heq).
  apply Heq; [|done]. intros y _. apply not_elem_of_nil.
Qed.

(** X19.  Saving and loading is the identity on a state whose synced
    uuids are sets: the array written for a set is read back as the same
    set, elements and order, and the other fields are copied. *)
Theorem load_save_round_trip (state : gmap string MemoryEntry) :
  map_Forall (λ _ e, wellFormed e) state →
  loadSessionState_file (saveSessionState_file state) = state.
Proof.
  intros Hwf. unfold loadSessionState_file, saveSessionState_file.
  rewrite <- map_fmap_compose. rewrite <- (map_fmap_id state) at 2.
  apply map_fmap_ext. intros sid e He. specialize (Hwf sid e He).
  unfold wellFormed in Hwf. destruct e as [m f t c u]. simpl in *.
  unfold loadEntry, saveEntry. simpl. f_equal.
  destruct u as [[elements|items]|]; simpl; [|done|done].
  by rewrite new_Set_id.
Qed.

(** X20.  Loading never fails and always yields sets: a missing or
    corrupt file reads as the empty state, and every array of the file is
    read as a set with the same members, each once, whatever the array
    repeats.  Saving and loading again never changes which entry ids the
    Stop case finds synced, also for a state that holds an array. *)
Theorem load_normalises (file : StateFile) (state : gmap string MemoryEntry)
    (sid : string) :
  loadSessionState_file NoStateFile = ∅ ∧
  loadSessionState_file CorruptStateFile = ∅ ∧
  (∀ e, loadSessionState_file file !! sid = Some e →
     match memory_syncedMessageUuids e with
     | Some (UuidSet elements) =>
         NoDup elements ∧
         ∃ fe items, file = StateObject fe ∧
           file_syncedMessageUuids <$> fe !! sid = Some (Some items) ∧
           ∀ x, x ∈ elements ↔ x ∈ items
     | Some (UuidArray _) => False
     | None => True
     end) ∧
  entryOf <$> loadSessionState_file (saveSessionState_file state)
    = entryOf <$> state.
Proof.
  split; [done|]. split; [done|]. split.
  - intros e. destruct file as [| |fe]; simpl; try by rewrite lookup_empty.
    rewrite lookup_fmap. destruct (fe !! sid) as [f|] eqn:Hf; [|done].
    simpl. intros [= <-]. simpl.
    destruct (file_syncedMessageUuids f) as [items|] eqn:Hitems; simpl; [|done].
    split; [apply new_Set_NoDup|]. exists fe, items.
    split; [done|]. split; [by rewrite Hf; simpl; rewrite Hitems|].
    apply new_Set_elem_of.
  - unfold loadSessionState_file, saveSessionState_file.
    rewrite <- !map_fmap_compose. apply map_fmap_ext. intros k e _.
    destruct e as [m f t c u]. unfold entryOf, loadEntry, saveEntry. simpl.
    f_equal. destruct u as [[elements|items]|]; simpl; [|done|done].
    f_equal. apply set_eq. intros x.
    by rewrite !elem_of_list_to_set, new_Set_elem_of.
Qed.

End Store.


(** X19, instance: the state in which S1 has synced u1 and u2. *)
Lemma load_save_round_trip_witness :
  loadSessionState_file (saveSessionState_file memory_S1) = memory_S1.
Proof.
  apply load_save_round_trip. apply map_Forall_singleton.
  apply (bool_decide_unpack _). by vm_compute.
Defined.

(* ===================================================================== *)
(** ** The statistics parser and the key mask *)
(* ===================================================================== *)

Section Stats.

Implicit Types (l : statsLine) (lines : list statsLine) (stats : TranscriptStats).

Lemma truthy_only_truthy (a : option string) (x : string) :
  truthy_only a = Some x → a = Some x ∧ truthy_opt_string a = true.
Proof.
  unfold truthy_only, or_string. destruct (truthy_opt_string a) eqn:E; [|done].
  by intros ->.
Qed.

Lemma truthy_only_None (a : option string) :
  truthy_only a = None → truthy_opt_string a = false.
Proof.
  unfold truthy_only, or_string. destruct (truthy_opt_string a) eqn:E; [|done].
  intros ->. done.
Qed.

Lemma firstWins_step (current new : option string) (found : list string) :
  firstWins (if negb (truthy_opt_string current) && truthy_opt_string new
             then new else current) found
  = firstWins current match truthy_only new with
                      | Some y => y :: found
                      | None => found
                      end.
Proof.
  unfold firstWins, truthy_only, or_string.
  destruct (truthy_opt_string current) eqn:Hc; simpl.
  - by rewrite Hc.
  - destruct (truthy_opt_string new) eqn:Hn.
    + rewrite Hn. by destruct new.
    + by rewrite Hc.
Qed.

Lemma parseTranscript_fold lines stats :
  let stats' := foldl statsLineStep stats lines in
  stats_messageCount stats'
    = stats_messageCount stats + Z.of_nat (length (filter lineIsUser lines)) ∧
  stats_toolCallCount stats'
    = stats_toolCallCount stats + sumZ (lineToolUses <$> lines) ∧
  stats_model stats' = firstWins (stats_model stats) (omap lineModel lines) ∧
  stats_title stats' = firstWins (stats_title stats) (omap lineSlug lines) ∧
  stats_cwd stats' = firstWins (stats_cwd stats) (omap lineCwd lines).
Proof.
  revert stats. induction lines as [|l lines IH]; intros stats.
  - unfold firstWins. simpl. rewrite !Z.add_0_r.
    repeat split; by destruct (truthy_opt_string _).
  - destruct (IH (statsLineStep stats l)) as (Hcount & Htools & Hmodel & Htitle & Hcwd).
    cbn zeta in *. cbn [foldl]. rewrite Hcount, Htools, Hmodel, Htitle, Hcwd.
    clear IH Hcount Htools Hmodel Htitle Hcwd.
    rewrite fmap_cons.
    change (omap ?f (l :: lines))
      with (match f l with Some y => y :: omap f lines | None => omap f lines end).
    destruct l as [|entry].
    { rewrite filter_cons_False by (by intros []). simpl. repeat split; lia. }
    change (sumZ (?x :: ?l)) with (x + sumZ l).
    cbn [statsLineStep lineToolUses lineModel lineSlug lineCwd
         stats_messageCount stats_toolCallCount stats_model stats_title
         stats_cwd].
    split; [|split; [|split; [|split]]].
    + destruct (decide (stats_type entry = Some "user"%string)) as [Hu|Hu].
      * rewrite bool_decide_eq_true_2, filter_cons_True by done. simpl. lia.
      * rewrite bool_decide_eq_false_2, filter_cons_False by done. lia.
    + lia.
    + rewrite <- firstWins_step.
      destruct (statsAssistant entry) as [msg|]; simpl.
      * by rewrite (andb_comm (negb _)).
      * by rewrite andb_false_r.
    + by rewrite <- firstWins_step.
    + by rewrite <- firstWins_step.
Qed.

(** X21.  The statistics of a transcript: the message count is the number
    of lines of type user, the tool-call count is the number of parts of
    kind tool_use in the assistant messages, and the model, the title and
    the working directory are those of the first line that has a
    non-empty one; malformed lines count for nothing.  A missing or
    unreadable file gives the zero statistics. *)
Theorem parseTranscript_counts lines (path : string) :
  let stats := parseTranscript (λ _, StatsFile lines) path in
  stats_messageCount stats = Z.of_nat (length (filter lineIsUser lines)) ∧
  stats_toolCallCount stats = sumZ (lineToolUses <$> lines) ∧
  stats_model stats = head (omap lineModel lines) ∧
  stats_title stats = head (omap lineSlug lines) ∧
  stats_cwd stats = head (omap lineCwd lines) ∧
  parseTranscript (λ _, NoStatsFile) path = emptyStats ∧
  parseTranscript (λ _, UnreadableStatsFile) path = emptyStats.
Proof.
  intros stats. subst stats. unfold parseTranscript.
  destruct (parseTranscript_fold lines emptyStats)
    as (Hcount & Htools & Hmodel & Htitle & Hcwd).
  rewrite Hcount, Htools, Hmodel, Htitle, Hcwd. unfold firstWins. simpl.
  repeat split; try lia;
    by destruct (omap _ lines).
Qed.

Lemma substring_0 (s : jsstring) (n : Z) :
  0 ≤ n ≤ Z.of_nat (length s) → substring s 0 n = take (Z.to_nat n) s.
Proof.
  intros Hn. unfold substring.
  rewrite (Z.max_l 0 0), (Z.min_l 0), (Z.max_l n 0), (Z.min_l n) by lia.
  rewrite Z.max_r, Z.min_l by lia. rewrite Z.sub_0_r.
  change (Z.to_nat 0) with 0%nat. by rewrite drop_0.
Qed.

Lemma substring_end (s : jsstring) (n : Z) :
  0 ≤ n ≤ Z.of_nat (length s) →
  substring s n (Z.of_nat (length s)) = drop (Z.to_nat n) s.
Proof.
  intros Hn. unfold substring.
  rewrite (Z.max_l n 0), (Z.min_l n), (Z.max_l (Z.of_nat _) 0), Z.min_id by lia.
  rewrite Z.max_r, Z.min_l by lia.
  apply take_ge. rewrite length_drop. lia.
Qed.

(** X22.  The mask of an API key has 4 or 12 code units.  A key of at
    most 8 units is hidden whole; of a longer key only the first four and
    the last four units are shown: two keys of the same length that agree
    on these have the same mask. *)
Theorem maskApiKey_shape (key key' : jsstring) :
  ((length key ≤ 8)%nat → maskApiKey key = js "****") ∧
  ((8 < length key)%nat →
     maskApiKey key
       = take 4 key ++ js "****" ++ drop (length key - 4) key ∧
     length (maskApiKey key) = 12%nat) ∧
  (length key = length key' → take 4 key = take 4 key' →
   drop (length key - 4) key = drop (length key' - 4) key' →
   maskApiKey key = maskApiKey key').
Proof.
  assert (Hlong : ∀ k : jsstring, (8 < length k)%nat →
            maskApiKey k = take 4 k ++ js "****" ++ drop (length k - 4) k).
  { intros k Hk. unfold maskApiKey.
    destruct (Z.leb_spec (Z.of_nat (length k)) 8) as [?|_]; [lia|].
    rewrite substring_0, substring_end by lia.
    repeat f_equal. lia. }
  assert (Hshort : ∀ k : jsstring, (length k ≤ 8)%nat → maskApiKey k = js "****").
  { intros k Hk. unfold maskApiKey.
    destruct (Z.leb_spec (Z.of_nat (length k)) 8) as [_|?]; [done|lia]. }
  split; [apply Hshort|]. split.
  - intros Hk. split; [by apply Hlong|]. rewrite Hlong by done.
    rewrite !length_app, length_take, length_drop.
    change (length (js "****")) with 4%nat. lia.
  - intros Hlen Hfirst Hlast.
    destruct (decide (length key ≤ 8)%nat) as [Hk|Hk].
    + rewrite !Hshort by lia. done.
    + rewrite !Hlong by lia. by rewrite Hfirst, Hlast.
Qed.

End Stats.

(* ===================================================================== *)
(** ** The in-process plugin *)
(* ===================================================================== *)

Section PluginMore.

Import Plugin.

Implicit Types (host : Host) (st : State) (t : Trace) (ev : Event)
  (events : list (string * Event)) (key : string * string).

Lemma string_app_inv_head (s a b : string) : s +:+ a = s +:+ b → a = b.
Proof. induction s as [|c s IH]; simpl; [done|]. intros [= H]. by apply IH. Qed.

Lemma getSessionState_insert st k v k' :
  getSessionState (set_sessionCache (<[k := v]> (sessionCache st)) st) k'
  = if decide (k = k') then v else getSessionState st k'.
Proof.
  unfold getSessionState. simpl. destruct (decide (k = k')) as [->|Hne].
  - by rewrite lookup_insert_eq.
  - by rewrite lookup_insert_ne.
Qed.

Lemma getSessionState_delete st k k' :
  getSessionState (clearSessionState k st) k'
  = if decide (k = k') then emptySession else getSessionState st k'.
Proof.
  unfold getSessionState, clearSessionState. simpl.
  destruct (decide (k = k')) as [->|Hne].
  - by rewrite lookup_delete_eq.
  - by rewrite lookup_delete_ne.
Qed.

Lemma addTokenUsage_messageCounter sid u st :
  messageCounter (addTokenUsage sid u st) = messageCounter st.
Proof. unfold addTokenUsage. by destruct (_ || _). Qed.

Lemma addTokenUsage_toolCallCounter sid u st :
  toolCallCounter (addTokenUsage sid u st) = toolCallCounter st.
Proof. unfold addTokenUsage. by destruct (_ || _). Qed.

(** *** Message identifiers *)

Lemma issuedBetween_mono st0 st st' st1 key :
  messageCounter st0 ≤ messageCounter st →
  toolCallCounter st0 ≤ toolCallCounter st →
  messageCounter st' ≤ messageCounter st1 →
  toolCallCounter st' ≤ toolCallCounter st1 →
  issuedBetween st st' key → issuedBetween st0 st1 key.
Proof.
  intros ? ? ? ? [(n & Hn & Hkey)|(n & Hn & Hkey)]; [left|right];
    exists n; (split; [lia|done]).
Qed.

Lemma issuedBetween_apart st st' st'' key :
  issuedBetween st st' key → issuedBetween st' st'' key → False.
Proof.
  intros [(n & Hn & Hkey)|(n & Hn & Hkey)] [(m & Hm & Hkey')|(m & Hm & Hkey')];
    rewrite Hkey in Hkey'; apply string_app_inv_head in Hkey'.
  - apply (string_app_inv_head "-msg-") in Hkey'.
    apply (inj pretty) in Hkey'. lia.
  - discriminate.
  - discriminate.
  - apply (string_app_inv_head "-tool-") in Hkey'.
    apply (inj pretty) in Hkey'. lia.
Qed.

Lemma handle_issued host now accepts ev st :
  isSessionStart ev = false →
  messageCounter st ≤ messageCounter (state_after (handle host now accepts ev st)) ∧
  toolCallCounter st ≤ toolCallCounter (state_after (handle host now accepts ev st)) ∧
  (length (omap messageKey (sent (handle host now accepts ev st))) ≤ 1)%nat ∧
  ∀ key, key ∈ omap messageKey (sent (handle host now accepts ev st)) →
         issuedBetween st (state_after (handle host now accepts ev st)) key.
Proof.
  intros Hev. destruct ev as [e|e|e|e|e]; [done| | | |]; simpl.
  - unfold UserPromptSubmit. simpl. split; [lia|]. split; [lia|]. split; [lia|].
    intros key ->%list_elem_of_singleton. left. eexists. split; [|done]. simpl. lia.
  - unfold PostToolUse.
    destruct (negb _); simpl.
    { split; [lia|]. split; [lia|]. split; [lia|]. by intros key ?%elem_of_nil. }
    split; [lia|]. split; [lia|]. split; [lia|].
    intros key ->%list_elem_of_singleton. right. eexists. split; [|done]. simpl. lia.
  - unfold Stop.
    destruct (st_response e) as [response|]; [destruct (truthy_jsstring response)|].
    + destruct (accepts _); simpl;
        rewrite ?addTokenUsage_messageCounter, ?addTokenUsage_toolCallCounter;
        simpl; (split; [lia|]; split; [lia|]; split; [lia|]);
        intros key ->%list_elem_of_singleton; left; eexists;
        (split; [|done]); rewrite ?addTokenUsage_messageCounter; simpl; lia.
    + simpl. rewrite addTokenUsage_messageCounter, addTokenUsage_toolCallCounter.
      split; [lia|]. split; [lia|]. split; [lia|]. by intros key ?%elem_of_nil.
    + simpl. rewrite addTokenUsage_messageCounter, addTokenUsage_toolCallCounter.
      split; [lia|]. split; [lia|]. split; [lia|]. by intros key ?%elem_of_nil.
  - unfold SessionEnd. destruct (accepts _); simpl;
      (split; [lia|]; split; [lia|]; split; [lia|]); by intros key ?%elem_of_nil.
Qed.

Lemma NoDup_short {A} (l : list A) : (length l ≤ 1)%nat → NoDup l.
Proof.
  destruct l as [|x [|y l]]; simpl; intros H.
  - constructor.
  - apply NoDup_singleton.
  - lia.
Qed.

Lemma run_cons host e events t :
  run host (e :: events) t = run host events (step host t e).
Proof. done. Qed.

Lemma run_issued host events t :
  Forall (λ e, isSessionStart e.2 = false) events →
  ∃ new, calls (run host events t) = calls t ++ new ∧
    messageCounter (plugin t) ≤ messageCounter (plugin (run host events t)) ∧
    toolCallCounter (plugin t) ≤ toolCallCounter (plugin (run host events t)) ∧
    (∀ key, key ∈ omap messageKey new →
            issuedBetween (plugin t) (plugin (run host events t)) key) ∧
    NoDup (omap messageKey new).
Proof.
  intros Hev. revert t. induction Hev as [|e events He _ IH]; intros t.
  - exists []. rewrite app_nil_r. simpl. split; [done|]. split; [lia|].
    split; [lia|]. split; [by intros key ?%elem_of_nil|constructor].
  - rewrite run_cons. destruct (IH (step host t e)) as (new & Hcalls & Hm & Ht & Hkeys & Hnd).
    destruct (handle_issued host e.1 (host_collector host (calls t)) e.2 (plugin t) He)
      as (Hm0 & Ht0 & Hlen & Hkeys0).
    set (o := handle host e.1 (host_collector host (calls t)) e.2 (plugin t)) in *.
    change (plugin (step host t e)) with (state_after o) in *.
    change (calls (step host t e)) with (calls t ++ sent o) in *.
    exists (sent o ++ new). rewrite Hcalls, <- app_assoc.
    split; [done|]. split; [lia|]. split; [lia|].
    rewrite omap_app. split.
    + intros key [Hkey|Hkey]%elem_of_app.
      * apply (issuedBetween_mono (plugin t) (plugin t) (state_after o)
                 (plugin (run host events (step host t e)))); [lia|lia|lia|lia|].
        by apply Hkeys0.
      * apply (issuedBetween_mono (plugin t) (state_after o)
                 (plugin (run host events (step host t e)))
                 (plugin (run host events (step host t e)))); [lia|lia|lia|lia|].
        by apply Hkeys.
    + apply NoDup_app. split; [by apply NoDup_short|]. split; [|done].
      intros key Hkey0 Hkey. eapply issuedBetween_apart; [by apply Hkeys0|by apply Hkeys].
Qed.

(** X23.  Between two SessionStart events the plugin never issues the same
    message identifier twice for a session: over any sequence of events
    without a SessionStart, from any state and whatever the collector
    answers, the pairs of session and message identifier of the messages
    sent are pairwise distinct. *)
Theorem plugin_message_ids_distinct host events t :
  Forall (λ e, isSessionStart e.2 = false) events →
  ∃ new, calls (run host events t) = calls t ++ new ∧
         NoDup (omap messageKey new).
Proof.
  intros Hev. destruct (run_issued host events t Hev) as (new & ? & _ & _ & _ & ?).
  by exists new.
Qed.

(** X24.  A SessionStart event resets the message counter for every
    session: when two prompts are separated by a SessionStart event, of
    whatever session, both messages are numbered 1, so that two prompts of
    one session are sent under the same identifier. *)
Theorem plugin_restart_reuses_id host t now1 now2 now3 now4
    (a b : SessionStartEvent) (p q : UserPromptEvent) :
  let sid e := eventSessionId (up_session_id e) (up_sessionId e) in
  ∃ c1 m1 c2 m2,
    calls (run host [(now1, OnSessionStart a); (now2, OnUserPromptSubmit p);
                     (now3, OnSessionStart b); (now4, OnUserPromptSubmit q)] t)
    = calls t ++ [SessionCall c1; MessageCall m1 None;
                  SessionCall c2; MessageCall m2 None] ∧
    messageKey (MessageCall m1 None) = Some (sid p, sid p +:+ "-msg-1") ∧
    messageKey (MessageCall m2 None) = Some (sid q, sid q +:+ "-msg-1").
Proof.
  intros sid. do 4 eexists. unfold run. simpl. unfold step. simpl.
  rewrite <- !app_assoc. simpl. split; [reflexivity|]. split; reflexivity.
Qed.

(** *** The cached token usage *)

Lemma sameButUsage_field {A} (f : CachedSession → A) st st' sid :
  (∀ c, f (withoutUsage c) = f c) →
  sameButUsage st st' →
  f (getSessionState st sid) = f (getSessionState st' sid).
Proof.
  intros Hf (_ & _ & H). rewrite <- (Hf (getSessionState st sid)), H. apply Hf.
Qed.

Lemma sameButUsage_addTokenUsage sid u st st' :
  sameButUsage st st' →
  sameButUsage (addTokenUsage sid u st) (addTokenUsage sid u st').
Proof.
  intros Hsame. pose proof Hsame as (Hm & Ht & Hc). unfold addTokenUsage.
  destruct (_ || _); [|done]. unfold cacheTokenUsage.
  split; [done|]. split; [done|]. intros k.
  rewrite !getSessionState_insert. destruct (decide (sid = k)) as [->|_]; [|done].
  specialize (Hc k). unfold withoutUsage in *. simpl. congruence.
Qed.

Lemma sameButUsage_counters st st' m m' k k' :
  m = m' → k = k' → sameButUsage st st' →
  sameButUsage {| messageCounter := m; toolCallCounter := k;
                  sessionCache := sessionCache st |}
               {| messageCounter := m'; toolCallCounter := k';
                  sessionCache := sessionCache st' |}.
Proof. intros -> -> (_ & _ & Hc). split; [done|]. split; [done|]. exact Hc. Qed.

Lemma handle_sameButUsage host now accepts ev st st' :
  sameButUsage st st' →
  sent (handle host now accepts ev st) = sent (handle host now accepts ev st') ∧
  fulfilled (handle host now accepts ev st)
    = fulfilled (handle host now accepts ev st') ∧
  sameButUsage (state_after (handle host now accepts ev st))
               (state_after (handle host now accepts ev st')).
Proof.
  intros Hsame. pose proof Hsame as (Hm & Ht & Hc).
  destruct ev as [e|e|e|e|e]; simpl.
  - unfold SessionStart. simpl. split; [done|]. split; [done|].
    unfold cacheStartedSession. simpl.
    split; [done|]. split; [done|]. intros k.
    pose proof (getSessionState_insert
      {| messageCounter := 0; toolCallCounter := 0; sessionCache := sessionCache st |})
      as Hi. simpl in Hi. unfold set_sessionCache in Hi. simpl in Hi.
    pose proof (getSessionState_insert
      {| messageCounter := 0; toolCallCounter := 0; sessionCache := sessionCache st' |})
      as Hi'. simpl in Hi'. unfold set_sessionCache in Hi'. simpl in Hi'.
    unfold set_sessionCache. simpl. rewrite Hi, Hi'.
    destruct (decide _) as [_|_]; [|apply Hc].
    specialize (Hc (eventSessionId (ss_session_id e) (ss_sessionId e))).
    unfold withoutUsage in *. unfold getSessionState in *. simpl in *.
    injection Hc as _ Hpath Hname _ _ _ _ _ _. by rewrite Hpath, Hname.
  - unfold UserPromptSubmit. simpl. rewrite Hm. split; [done|]. split; [done|].
    apply sameButUsage_counters; [done|done|done].
  - unfold PostToolUse. destruct (negb _); simpl; [done|].
    rewrite Ht. split; [done|]. split; [done|].
    apply sameButUsage_counters; [by rewrite Hm|done|done].
  - unfold Stop.
    destruct (st_response e) as [response|]; [destruct (truthy_jsstring response)|];
      simpl.
    + rewrite Hm. destruct (accepts _); simpl.
      * split; [done|]. split; [done|]. apply sameButUsage_addTokenUsage.
        apply sameButUsage_counters; [done|done|done].
      * split; [done|]. split; [done|].
        apply sameButUsage_counters; [done|done|done].
    + split; [done|]. split; [done|]. by apply sameButUsage_addTokenUsage.
    + split; [done|]. split; [done|]. by apply sameButUsage_addTokenUsage.
  - unfold SessionEnd.
    rewrite (sameButUsage_field cached_model st st'),
            (sameButUsage_field cached_startType st st'),
            (sameButUsage_field cached_thinkingEnabled st st'),
            (sameButUsage_field cached_permissionMode st st'),
            (sameButUsage_field cached_mcpServers st st'),
            (sameButUsage_field cached_startedAt st st') by done.
    destruct (accepts _); simpl; [|done].
    split; [done|]. split; [done|]. split; [done|]. split; [done|].
    intros k. rewrite !getSessionState_delete. destruct (decide _); [done|apply Hc].
Qed.

(** X25.  The token usage the Stop handler accumulates in the cache is
    never sent: from two states that differ at most in the token usage
    they cache, the plugin makes the same calls over every sequence of
    events, and ends in two states that again differ at most there. *)
Theorem plugin_cached_usage_never_sent host events t t' :
  sameButUsage (plugin t) (plugin t') → calls t = calls t' →
  calls (run host events t) = calls (run host events t') ∧
  sameButUsage (plugin (run host events t)) (plugin (run host events t')).
Proof.
  revert t t'. induction events as [|e events IH]; intros t t' Hsame Hcalls.
  - done.
  - rewrite !run_cons. apply IH.
    + unfold step. simpl. rewrite Hcalls.
      by apply handle_sameButUsage.
    + unfold step. simpl. rewrite Hcalls. f_equal.
      by apply handle_sameButUsage.
Qed.

(** *** From SessionStart to SessionEnd *)

Lemma cachedSince_addTokenUsage sid u st k model startedAt :
  cachedSince st k model startedAt →
  cachedSince (addTokenUsage sid u st) k model startedAt.
Proof.
  intros (c & Hc & Hmodel & Hstart). unfold addTokenUsage.
  destruct (_ || _); [|by exists c]. unfold cachedSince, cacheTokenUsage. simpl.
  destruct (decide (sid = k)) as [->|Hne].
  - rewrite lookup_insert_eq. eexists. split; [done|].
    unfold getSessionState. rewrite Hc. simpl. done.
  - rewrite lookup_insert_ne by done. by exists c.
Qed.

Lemma handle_cachedSince host now accepts ev st k model startedAt :
  (eventSession ev = k → isSessionStart ev = false ∧ isSessionEnd ev = false) →
  cachedSince st k model startedAt →
  cachedSince (state_after (handle host now accepts ev st)) k model startedAt.
Proof.
  intros Hev Hc. destruct ev as [e|e|e|e|e]; simpl in *.
  - destruct Hc as (c & Hc & Hmodel & Hstart).
    unfold SessionStart, cachedSince, cacheStartedSession. simpl.
    rewrite lookup_insert_ne; [by exists c|].
    intros Heq. by destruct (Hev Heq).
  - exact Hc.
  - unfold PostToolUse. by destruct (negb _).
  - unfold Stop.
    destruct (st_response e) as [response|]; [destruct (truthy_jsstring response)|];
      [destruct (accepts _)| |]; simpl;
      try apply cachedSince_addTokenUsage; exact Hc.
  - unfold SessionEnd. destruct (accepts _); simpl; [|done].
    destruct Hc as (c & Hc & Hmodel & Hstart). exists c.
    unfold clearSessionState. simpl. rewrite lookup_delete_ne; [done|].
    intros Heq. by destruct (Hev Heq).
Qed.

Lemma run_cachedSince host events t k model startedAt :
  Forall (λ e, eventSession e.2 = k →
               isSessionStart e.2 = false ∧ isSessionEnd e.2 = false) events →
  cachedSince (plugin t) k model startedAt →
  cachedSince (plugin (run host events t)) k model startedAt.
Proof.
  intros Hev. revert t. induction Hev as [|e events He _ IH]; intros t Hc; [done|].
  rewrite run_cons. apply IH. unfold step. simpl. by apply handle_cachedSince.
Qed.

(** X26.  A session from its start to its end.  After a SessionStart
    event, and any events that neither start nor end that session, the
    SessionEnd event sends one Session record: it has the model and the
    start time of the SessionStart event and the token usage of the
    SessionEnd event, whatever usage the Stop events reported in between,
    and its payload has the duration between the two times; this holds
    whether or not the collector accepted the SessionStart record or any
    other.  The session leaves the cache exactly when the collector
    accepts the final record. *)
Theorem plugin_session_start_to_end host (getTime : string → float)
    now1 now2 (e : SessionStartEvent) (f : SessionEndEvent) events t :
  let sid := eventSessionId (ss_session_id e) (ss_sessionId e) in
  let t1 := run host ((now1, OnSessionStart e) :: events) t in
  let o := handle host now2 (host_collector host (calls t1)) (OnSessionEnd f)
                  (plugin t1) in
  eventSessionId (se_session_id f) (se_sessionId f) = sid →
  Forall (λ e, eventSession e.2 = sid →
               isSessionStart e.2 = false ∧ isSessionEnd e.2 = false) events →
  ∃ session,
    sent o = [SessionCall session] ∧
    sessionId session = sid ∧
    session_model session = ss_model e ∧
    startedAt session = Some now1 ∧ endedAt session = Some now2 ∧
    session_tokenUsage session = se_totalTokenUsage f ∧
    (now1 ≠ EmptyString → now2 ≠ EmptyString →
       payload_durationMs (transformSession getTime session)
       = Some (getTime now2 - getTime now1)%float) ∧
    (sessionCache (state_after o) !! sid = None ↔ fulfilled o = true).
Proof.
  intros sid t1 o Hsid Hev.
  assert (Hc : cachedSince (plugin t1) sid (ss_model e) now1).
  { subst t1. rewrite run_cons. apply run_cachedSince; [done|].
    unfold step, cachedSince. simpl. unfold SessionStart, cacheStartedSession. simpl.
    fold sid. rewrite lookup_insert_eq. eexists. split; [done|]. done. }
  destruct Hc as (c & Hc & Hmodel & Hstart).
  subst o. simpl. unfold SessionEnd. rewrite Hsid.
  unfold getSessionState. rewrite Hc. simpl. rewrite Hmodel, Hstart.
  destruct (host_collector host (calls t1) _); simpl.
  - eexists. split; [done|]. simpl. repeat split; try done.
    + intros H1 H2. destruct now1, now2; done.
    + by rewrite lookup_delete_eq.
  - eexists. split; [done|]. simpl. repeat split; try done.
    + intros H1 H2. destruct now1, now2; done.
    + by rewrite Hc.
Qed.

End PluginMore.

(** X27.  What the [config] command reports against what the handlers
    do.  The autoSync flag is reported as it is acted on.  The
    syncToolCalls flag is reported as set unless it is false, while both
    the hook command and the plugin forward a tool call only when it is
    true: with the flag absent from the configuration, tool calls are
    reported as synced and none is forwarded. *)
Theorem reported_flags_and_behaviour env cfg (data : HookToolUseData) d
    host now accepts (event : Plugin.ToolUseEvent) st :
  config env = Some cfg → Plugin.host_config host = cfg →
  (reportedAutoSync cfg = true ↔ enabled env) ∧
  (reportedAutoSync cfg = true ↔ Plugin.createPlugin (config env) ≠ None) ∧
  (reportedSyncToolCalls cfg = true ↔ syncToolCalls cfg ≠ Some false) ∧
  (enabled env →
     (requests (invoke env (PostToolUse data) d).2 ≠ []
      ↔ syncToolCalls cfg = Some true)) ∧
  (Plugin.sent (Plugin.PostToolUse host now accepts event st) ≠ []
   ↔ syncToolCalls cfg = Some true) ∧
  (syncToolCalls cfg = None →
     reportedSyncToolCalls cfg = true ∧
     requests (invoke env (PostToolUse data) d).2 = [] ∧
     Plugin.sent (Plugin.PostToolUse host now accepts event st) = []).
Proof.
  intros Hcfg Hhost.
  assert (Hreport : reportedAutoSync cfg = true ↔ autoSync cfg ≠ Some false).
  { unfold reportedAutoSync. rewrite negb_true_iff, bool_decide_eq_false. done. }
  assert (Hplugin : Plugin.sent (Plugin.PostToolUse host now accepts event st) ≠ []
                    ↔ syncToolCalls cfg = Some true).
  { unfold Plugin.PostToolUse. rewrite Hhost.
    destruct (decide (syncToolCalls cfg = Some true)) as [Hon|Hoff].
    - rewrite bool_decide_eq_true_2 by done. simpl. done.
    - rewrite bool_decide_eq_false_2 by done. simpl. done. }
  assert (Hhook : enabled env →
            (requests (invoke env (PostToolUse data) d).2 ≠ []
             ↔ syncToolCalls cfg = Some true)).
  { intros Hen. rewrite PostToolUse_run by done. unfold toolCallsOn. rewrite Hcfg.
    destruct (decide (syncToolCalls cfg = Some true)) as [Hon|Hoff].
    - rewrite bool_decide_eq_true_2 by done. simpl. done.
    - rewrite bool_decide_eq_false_2 by done. simpl. done. }
  split; [|split; [|split; [|split; [|split]]]].
  - rewrite Hreport. unfold enabled. rewrite Hcfg. split.
    + intros H. by exists cfg.
    + by intros (cfg' & [= <-] & H).
  - rewrite Hreport, Hcfg. unfold Plugin.createPlugin.
    destruct (decide (autoSync cfg = Some false)) as [Hoff|Hon].
    + rewrite bool_decide_eq_true_2 by done. done.
    + rewrite bool_decide_eq_false_2 by done. done.
  - unfold reportedSyncToolCalls. by rewrite negb_true_iff, bool_decide_eq_false.
  - exact Hhook.
  - exact Hplugin.
  - intros Hnone. split; [|split].
    + unfold reportedSyncToolCalls. by rewrite Hnone.
    + destruct (enabled_or_not env) as [Hen|Hoff].
      * destruct (requests (invoke env (PostToolUse data) d).2) eqn:E; [done|].
        assert (syncToolCalls cfg = Some true) by (by apply Hhook).
        congruence.
      * by rewrite hook_disabled.
    + destruct (Plugin.sent _) eqn:E; [done|].
      assert (syncToolCalls cfg = Some true) by (by apply Hplugin).
      congruence.
Qed.


(** X23, instance: a prompt, a tool call and a Stop event of P1. *)
Lemma plugin_message_ids_distinct_witness :
  ∃ new,
    Plugin.calls
      (Plugin.run host_up
         [("10:00"%string, Plugin.OnUserPromptSubmit prompt_P1);
          ("10:01"%string, Plugin.OnPostToolUse tool_P1);
          ("10:02"%string, Plugin.OnStop stop_P1)] fresh)
    = Plugin.calls fresh ++ new ∧
    NoDup (omap Plugin.messageKey new).
Proof.
  apply plugin_message_ids_distinct. repeat constructor.
Defined.

(** X25, instance: the end of P1 with and without a cached usage. *)
Lemma plugin_cached_usage_never_sent_witness :
  Plugin.calls
    (Plugin.run host_up [("10:03"%string, Plugin.OnSessionEnd end_P1)]
       fresh_with_usage)
  = Plugin.calls
      (Plugin.run host_up [("10:03"%string, Plugin.OnSessionEnd end_P1)] fresh).
Proof.
  refine (proj1 (plugin_cached_usage_never_sent host_up
            [("10:03"%string, Plugin.OnSessionEnd end_P1)]
            fresh_with_usage fresh _ eq_refl)).
  split; [reflexivity|]. split; [reflexivity|]. intros sid.
  unfold Plugin.getSessionState. simpl.
  destruct (decide ("P1"%string = sid)) as [<-|Hne].
  - rewrite lookup_insert_eq. reflexivity.
  - rewrite lookup_insert_ne by exact Hne. reflexivity.
Defined.

(** X26, instance: P1 from its start to its end, with a prompt and a Stop
    event in between. *)
Lemma plugin_session_start_to_end_witness :
  ∃ session,
    Plugin.sent
      (Plugin.handle host_up "10:03"
         (Plugin.host_collector host_up
            (Plugin.calls
               (Plugin.run host_up
                  (("10:00"%string, Plugin.OnSessionStart start_P1)
                   :: [("10:01"%string, Plugin.OnUserPromptSubmit prompt_P1);
                       ("10:02"%string, Plugin.OnStop stop_P1)]) fresh)))
         (Plugin.OnSessionEnd end_P1)
         (Plugin.plugin
            (Plugin.run host_up
               (("10:00"%string, Plugin.OnSessionStart start_P1)
                :: [("10:01"%string, Plugin.OnUserPromptSubmit prompt_P1);
                    ("10:02"%string, Plugin.OnStop stop_P1)]) fresh)))
    = [Plugin.SessionCall session] ∧
    session_model session = Some "claude-sonnet-4-20250514"%string ∧
    startedAt session = Some "10:00"%string ∧
    session_tokenUsage session = None.
Proof.
  destruct (plugin_session_start_to_end host_up (λ _, 0%float) "10:00" "10:03"
              start_P1 end_P1
              [("10:01"%string, Plugin.OnUserPromptSubmit prompt_P1);
               ("10:02"%string, Plugin.OnStop stop_P1)] fresh eq_refl)
    as (session & Hsent & _ & Hmodel & Hstart & _ & Husage & _).
  - repeat constructor; intros _; split; reflexivity.
  - exists session. repeat split; assumption.
Defined.

(** X27, instance: the configuration that names neither flag. *)
Lemma reported_flags_and_behaviour_witness :
  reportedSyncToolCalls config_bare = true ∧
  requests (invoke env_bare (PostToolUse tool_S1) ∅).2 = [] ∧
  Plugin.sent (Plugin.PostToolUse host_bare "10:01" (λ _, true) tool_P1
                 (Plugin.plugin fresh)) = [].
Proof.
  refine (proj2 (proj2 (proj2 (proj2 (proj2
    (reported_flags_and_behaviour env_bare config_bare tool_S1 ∅ host_bare
       "10:01" (λ _, true) tool_P1 (Plugin.plugin fresh) eq_refl eq_refl))))) _).
  reflexivity.
Defined.
